(** * kube-opex-analytics: the usage-normalisation and cost-analytics engine

    A shallow embedding of [backend.py] and the properties of its
    quantity decoders, snapshot builder, sampler and analytics engine.

    Python values are modelled as the interpreter has them:
    - [int] is [Z];
    - [float] is IEEE 754 binary64, through the executable specification
      [spec_float] of the standard library (precision 53, emax 1024);
    - [str] is [string], one [ascii] per character: the strings whose
      characters are all at most U+00FF (strings with other characters
      are not modelled);
    - [dict] is an insertion-ordered association list;
    - a raised exception is the [Raise] case of [result]. *)

From Stdlib Require Import ZArith List String Ascii Bool Lia DecimalString.
From Stdlib Require Import Floats.SpecFloat.
Import ListNotations.

Local Open Scope string_scope.
Local Open Scope Z_scope.

Set Implicit Arguments.

(* ===================================================================== *)
(** * Python runtime *)
(* ===================================================================== *)

Module Py.

(** ** Exceptions *)

Inductive exn : Type :=
| ValueError
| KeyError
| TypeError
| OverflowError
| ZeroDivisionError
| OperationalError.      (* rrdtool.OperationalError *)

Inductive result (A : Type) : Type :=
| Ok (a : A)
| Raise (e : exn).

Arguments Ok {A} a.
Arguments Raise {A} e.

Definition rbind {A B} (r : result A) (k : A -> result B) : result B :=
  match r with
  | Ok a => k a
  | Raise e => Raise e
  end.

Definition is_ok {A} (r : result A) : bool :=
  match r with Ok _ => true | Raise _ => false end.

(** ** Floats: IEEE 754 binary64 *)

Definition prec : Z := 53.
Definition emax : Z := 1024.

Definition float : Type := spec_float.

Definition fadd : float -> float -> float := SFadd prec emax.
Definition fsub : float -> float -> float := SFsub prec emax.
Definition fmul : float -> float -> float := SFmul prec emax.
Definition fdiv_ieee : float -> float -> float := SFdiv prec emax.
Definition fltb : float -> float -> bool := SFltb.
Definition fleb : float -> float -> bool := SFleb.
Definition feqb : float -> float -> bool := SFeqb.

(** [a > b] on floats. *)
Definition fgtb (a b : float) : bool := fltb b a.

Definition is_finite (x : float) : bool :=
  match x with
  | S754_zero _ | S754_finite _ _ _ => true
  | _ => false
  end.

Definition is_nan (x : float) : bool :=
  match x with S754_nan => true | _ => false end.

(** The binary64 nearest to the integer [z] (ties to even); an integer
    beyond the range rounds to an infinity. *)
Definition float_of_Z_ieee (z : Z) : float := binary_normalize prec emax z 0 false.

(** The binary64 nearest to the rational [n / d], [d > 0].  The division
    of [spec_float] rounds the exact quotient of its two mantissas, whatever
    their size, so the integers are passed as they are. *)
Definition float_of_ratio (n : Z) (d : positive) : float :=
  match n with
  | Z0 => S754_zero false
  | Zpos p => SFdiv prec emax (S754_finite false p 0) (S754_finite false d 0)
  | Zneg p => SFdiv prec emax (S754_finite true p 0) (S754_finite false d 0)
  end.

(** A decimal literal [m e k] of the source text: the binary64 nearest to
    [m * 10^k]. *)
Definition dec (m k : Z) : float :=
  if 0 <=? k then float_of_Z_ieee (m * 10 ^ k)
  else float_of_ratio m (Z.to_pos (10 ^ (- k))).

Definition f0 : float := S754_zero false.      (* 0.0 *)
Definition f100 : float := dec 100 0.          (* 100.0 *)

(** [float(i)] and the implicit conversion of an [int] operand:
    [OverflowError] when the integer does not fit. *)
Definition float_of_int (z : Z) : result float :=
  match float_of_Z_ieee z with
  | S754_infinity _ => Raise OverflowError
  | f => Ok f
  end.

(** [a / b] on floats: Python raises on a zero divisor instead of
    returning an infinity or a NaN. *)
Definition fdiv (a b : float) : result float :=
  match b with
  | S754_zero _ => Raise ZeroDivisionError
  | _ => Ok (fdiv_ieee a b)
  end.

(** ** Numbers: [int] or [float] *)

Inductive num : Type :=
| PInt (z : Z)
| PFloat (f : float).

Definition to_float (x : num) : result float :=
  match x with
  | PInt z => float_of_int z
  | PFloat f => Ok f
  end.

(** [a + b]. *)
Definition add (a b : num) : result num :=
  match a, b with
  | PInt x, PInt y => Ok (PInt (x + y))
  | _, _ =>
      rbind (to_float a) (fun x =>
      rbind (to_float b) (fun y => Ok (PFloat (fadd x y))))
  end.

(** [a * b]. *)
Definition mul (a b : num) : result num :=
  match a, b with
  | PInt x, PInt y => Ok (PInt (x * y))
  | _, _ =>
      rbind (to_float a) (fun x =>
      rbind (to_float b) (fun y => Ok (PFloat (fmul x y))))
  end.

(** The exact value of a finite float as a fraction [n / 2^k]: the pair
    [(n, k)] with [k >= 0]. *)
Definition exact (s : bool) (m : positive) (e : Z) : Z * Z :=
  let n := if s then Zneg m else Zpos m in
  if 0 <=? e then (n * 2 ^ e, 0) else (n, - e).

(** [a == b] between numbers: an [int] and a [float] are compared by their
    exact values. *)
Definition eqb (a b : num) : bool :=
  let int_float (z : Z) (f : float) :=
    match f with
    | S754_zero _ => z =? 0
    | S754_finite s m e => let '(n, k) := exact s m e in z * 2 ^ k =? n
    | _ => false
    end in
  match a, b with
  | PInt x, PInt y => x =? y
  | PFloat x, PFloat y => feqb x y
  | PInt x, PFloat y => int_float x y
  | PFloat x, PInt y => int_float y x
  end.

(** ** [round(x, 6)]

    CPython rounds the exact value of [x] to six decimals, ties to even,
    and returns the float nearest to that decimal; infinities and NaNs
    round to themselves; the sign of a result that rounds to zero is
    kept. *)

Definition db_round_decimals : Z := 6.

(** Nearest integer to [n / d], ties to even ([n >= 0], [d > 0]). *)
Definition div_half_even (n d : Z) : Z :=
  let q := n / d in
  let r := n mod d in
  match 2 * r ?= d with
  | Lt => q
  | Gt => q + 1
  | Eq => if Z.even q then q else q + 1
  end.

Definition round_scaled (m : positive) (e : Z) : Z :=
  if 0 <=? e then Zpos m * 2 ^ e * 10 ^ db_round_decimals
  else div_half_even (Zpos m * 10 ^ db_round_decimals) (2 ^ (- e)).

Definition round6 (x : float) : float :=
  match x with
  | S754_finite s m e =>
      match round_scaled m e with
      | Zpos p =>
          SFdiv prec emax (S754_finite s p 0)
                (S754_finite false (Z.to_pos (10 ^ db_round_decimals)) 0)
      | _ => S754_zero s
      end
  | _ => x
  end.

(** ** Strings *)

Definition len (s : string) : Z := Z.of_nat (String.length s).

(** [s[start:stop]] with Python's treatment of negative and out-of-range
    bounds. *)
Definition clamp_index (n i : Z) : Z :=
  let j := if i <? 0 then i + n else i in
  Z.max 0 (Z.min n j).

Definition slice (s : string) (start stop : Z) : string :=
  let n := len s in
  let a := clamp_index n start in
  let b := clamp_index n stop in
  String.substring (Z.to_nat a) (Z.to_nat (b - a)) s.

(** [s[start:]]. *)
Definition slice_from (s : string) (start : Z) : string :=
  let n := len s in
  let a := clamp_index n start in
  String.substring (Z.to_nat a) (Z.to_nat (n - a)) s.

Fixpoint last_char (s : string) : option ascii :=
  match s with
  | EmptyString => None
  | String c EmptyString => Some c
  | String _ r => last_char r
  end.

(** [s.endswith(c)] for a one-character suffix. *)
Definition endswith_char (s : string) (c : ascii) : bool :=
  match last_char s with
  | Some d => Ascii.eqb c d
  | None => false
  end.

(** ** [int(s)] in base 10

    White space at both ends is dropped, one sign is allowed, and digits
    may be separated by single underscores.  Anything else is a
    [ValueError], and so is a numeral of more digits than
    [sys.int_max_str_digits] allows (4300 unless the interpreter is told
    otherwise).

    The white space of [int] and of [float] is narrower than that of
    [str.strip]: a character below U+007F is dropped only when it is a
    space or one of [\t \n \v \f \r] (so not the separators U+001C to
    U+001F), and of the characters from there to U+00FF only U+0085 and
    U+00A0 are turned into spaces before the numeral is read; none of
    these characters is a decimal digit. *)

Definition is_space (c : ascii) : bool :=
  let n := Z.of_nat (nat_of_ascii c) in
  (n =? 32) || ((9 <=? n) && (n <=? 13)) || (n =? 133) || (n =? 160).

Definition digit_of (c : ascii) : option Z :=
  let n := Z.of_nat (nat_of_ascii c) in
  if (48 <=? n) && (n <=? 57) then Some (n - 48) else None.

Fixpoint lstrip (s : string) : string :=
  match s with
  | String c r => if is_space c then lstrip r else s
  | EmptyString => s
  end.

Fixpoint rstrip (s : string) : string :=
  match s with
  | String c r =>
      match rstrip r with
      | EmptyString => if is_space c then EmptyString else String c EmptyString
      | r' => String c r'
      end
  | EmptyString => s
  end.

Definition strip (s : string) : string := rstrip (lstrip s).

(** Digits with single underscores between them; [acc] is the value read
    so far and [prev] tells whether the previous character was a digit. *)
Fixpoint int_digits (s : string) (acc : Z) (prev : bool) : option Z :=
  match s with
  | EmptyString => if prev then Some acc else None
  | String c r =>
      match digit_of c with
      | Some d => int_digits r (10 * acc + d) true
      | None =>
          if Ascii.eqb c "_"%char && prev then
            match r with
            | EmptyString => None
            | String c' _ =>
                match digit_of c' with
                | Some _ => int_digits r acc false
                | None => None
                end
            end
          else None
      end
  end.

(** [sys.int_max_str_digits], as the interpreter starts with. *)
Definition int_max_str_digits : Z := 4300.

(** The number of digits of a numeral. *)
Fixpoint digit_count (s : string) : Z :=
  match s with
  | EmptyString => 0
  | String c r =>
      match digit_of c with
      | Some _ => 1 + digit_count r
      | None => digit_count r
      end
  end.

Definition int (s : string) : result Z :=
  let body (t : string) :=
    match int_digits t 0 false with
    | Some z => if int_max_str_digits <? digit_count t then Raise ValueError else Ok z
    | None => Raise ValueError
    end in
  match strip s with
  | String "-"%char r => rbind (body r) (fun z => Ok (- z))
  | String "+"%char r => body r
  | t => body t
  end.

(** ** [int(x)] on a float: truncation towards zero *)

Definition trunc (x : float) : result Z :=
  match x with
  | S754_zero _ => Ok 0
  | S754_finite s m e =>
      let a := if 0 <=? e then Zpos m * 2 ^ e else Zpos m / 2 ^ (- e) in
      Ok (if s then - a else a)
  | S754_infinity _ => Raise OverflowError
  | S754_nan => Raise ValueError
  end.

(** [a / b] on integers: the float nearest to the exact quotient. *)
Definition truediv (a b : Z) : result float :=
  match b with
  | Z0 => Raise ZeroDivisionError
  | Zpos d =>
      match float_of_ratio a d with
      | S754_infinity _ => Raise OverflowError
      | f => Ok f
      end
  | Zneg d =>
      match float_of_ratio (- a) d with
      | S754_infinity _ => Raise OverflowError
      | f => Ok f
      end
  end.

(** ** [float(s)]

    White space is dropped; a sign may be followed by [inf], [infinity]
    or [nan] in any case, or by a decimal numeral with an optional
    fraction and exponent, digits being separable by single underscores.
    The result is the float nearest to the numeral; a numeral beyond the
    range reads as an infinity, one below it as a zero. *)

Definition lower (c : ascii) : ascii :=
  let n := nat_of_ascii c in
  if (65 <=? Z.of_nat n) && (Z.of_nat n <=? 90) then ascii_of_nat (n + 32) else c.

Fixpoint lowercase (s : string) : string :=
  match s with
  | EmptyString => EmptyString
  | String c r => String (lower c) (lowercase r)
  end.

(** Reads a run of digits; returns its value, its number of digits and
    the rest of the string. *)
Fixpoint read_digits (s : string) (acc n : Z) (prev : bool)
  : option (Z * Z * string) :=
  match s with
  | EmptyString => Some (acc, n, s)
  | String c r =>
      match digit_of c with
      | Some d => read_digits r (10 * acc + d) (n + 1) true
      | None =>
          if Ascii.eqb c "_"%char then
            match r with
            | String c' _ =>
                match digit_of c' with
                | Some _ => if prev then read_digits r acc n false else None
                | None => None
                end
            | EmptyString => None
            end
          else Some (acc, n, s)
      end
  end.

Definition read_exponent (s : string) : option Z :=
  match s with
  | EmptyString => Some 0
  | String c r =>
      if Ascii.eqb (lower c) "e"%char then
        let '(neg, digits) :=
          match r with
          | String "-"%char r' => (true, r')
          | String "+"%char r' => (false, r')
          | _ => (false, r)
          end in
        match read_digits digits 0 0 false with
        | Some (v, n, EmptyString) =>
            if 0 <? n then Some (if neg then - v else v) else None
        | _ => None
        end
      else None
  end.

(** The float nearest to [m * 10^k] for [m >= 0] written with [d]
    digits. *)
Definition float_of_decimal (m d k : Z) : float :=
  if m =? 0 then S754_zero false
  else if 400 <? k then S754_infinity false
  else if k + d <? - 400 then S754_zero false
  else dec m k.

Definition float_magnitude (s : string) : option float :=
  let t := lowercase s in
  if String.eqb t "inf" || String.eqb t "infinity" then Some (S754_infinity false)
  else if String.eqb t "nan" then Some S754_nan
  else
    match read_digits s 0 0 false with
    | None => None
    | Some (i, ni, rest) =>
        let after_fraction :=
          match rest with
          | String "."%char r =>
              match read_digits r 0 0 false with
              | Some (f, nf, rest') => Some (f, nf, rest')
              | None => None
              end
          | _ => Some (0, 0, rest)
          end in
        match after_fraction with
        | None => None
        | Some (f, nf, rest') =>
            if 0 <? ni + nf then
              match read_exponent rest' with
              | Some e => Some (float_of_decimal (i * 10 ^ nf + f) (ni + nf) (e - nf))
              | None => None
              end
            else None
        end
    end.

Definition float_of_string (s : string) : result float :=
  let body (neg : bool) (t : string) :=
    match float_magnitude t with
    | Some f => Ok (if neg then SFopp f else f)
    | None => Raise ValueError
    end in
  match strip s with
  | String "-"%char r => body true r
  | String "+"%char r => body false r
  | t => body false t
  end.

(** [float(x)] where [x] may be [None]. *)
Definition float_of_optional_string (x : option string) : result float :=
  match x with
  | None => Raise TypeError
  | Some s => float_of_string s
  end.

(** ** Text *)

Definition str_of_Z (z : Z) : string := NilZero.string_of_int (Z.to_int z).

(** Left padding with zeros to width [w]. *)
Fixpoint zfill_aux (fuel w : nat) (s : string) : string :=
  match fuel with
  | O => s
  | S fuel' =>
      if Nat.ltb (String.length s) w
      then zfill_aux fuel' w (String "0"%char s) else s
  end.

Definition zfill (w : nat) (s : string) : string := zfill_aux w w s.

(** ['%f' % x]. *)
Definition format_f (x : float) : string :=
  let digits (n : Z) :=
    let unit := 10 ^ db_round_decimals in
    str_of_Z (n / unit) ++ "." ++ zfill 6 (str_of_Z (n mod unit)) in
  match x with
  | S754_nan => "nan"
  | S754_infinity s => if s then "-inf" else "inf"
  | S754_zero s => (if s then "-" else EmptyString) ++ digits 0
  | S754_finite s m e => (if s then "-" else EmptyString) ++ digits (round_scaled m e)
  end.

(** [sep.join(l)]. *)
Fixpoint join (sep : string) (l : list string) : string :=
  match l with
  | [] => EmptyString
  | [x] => x
  | x :: r => x ++ sep ++ join sep r
  end.

(** The double-quote character. *)
Definition dq : string := String (ascii_of_nat 34) EmptyString.

(** ** [time.gmtime] and [time.strftime] (C locale) *)

Record struct_time : Type := {
  tm_year : Z; tm_mon : Z; tm_mday : Z;
  tm_hour : Z; tm_min : Z; tm_sec : Z
}.

Definition gmtime (ts : Z) : struct_time :=
  let days := ts / 86400 in
  let secs := ts mod 86400 in
  let z := days + 719468 in
  let era := z / 146097 in
  let doe := z - era * 146097 in
  let yoe := (doe - doe / 1460 + doe / 36524 - doe / 146096) / 365 in
  let doy := doe - (365 * yoe + yoe / 4 - yoe / 100) in
  let mp := (5 * doy + 2) / 153 in
  let d := doy - (153 * mp + 2) / 5 + 1 in
  let m := if mp <? 10 then mp + 3 else mp - 9 in
  let y := yoe + era * 400 + (if m <=? 2 then 1 else 0) in
  {| tm_year := y; tm_mon := m; tm_mday := d;
     tm_hour := secs / 3600; tm_min := (secs mod 3600) / 60; tm_sec := secs mod 60 |}.

Definition month_abbr (m : Z) : string :=
  nth (Z.to_nat (m - 1))
      ["Jan"; "Feb"; "Mar"; "Apr"; "May"; "Jun";
       "Jul"; "Aug"; "Sep"; "Oct"; "Nov"; "Dec"] EmptyString.

Definition two (z : Z) : string := zfill 2 (str_of_Z z).

(** [time.strftime('%Y-%m-%dT%H:%M:%SZ', t)]. *)
Definition strftime_iso (t : struct_time) : string :=
  str_of_Z (tm_year t) ++ "-" ++ two (tm_mon t) ++ "-" ++ two (tm_mday t)
  ++ "T" ++ two (tm_hour t) ++ ":" ++ two (tm_min t) ++ ":" ++ two (tm_sec t) ++ "Z".

(** [time.strftime('%d %b', t)]. *)
Definition strftime_day_month (t : struct_time) : string :=
  two (tm_mday t) ++ " " ++ month_abbr (tm_mon t).

(** [time.strftime('%b %Y', t)]. *)
Definition strftime_month_year (t : struct_time) : string :=
  month_abbr (tm_mon t) ++ " " ++ str_of_Z (tm_year t).

End Py.

Import Py.

Notation "x <- c ;; k" := (rbind c (fun x => k))
  (at level 61, c at next level, right associativity).


(** ** [dict]

    Python dictionaries keep their keys in insertion order, and an
    assignment to an existing key keeps its position. *)

Class KeyEq (K : Type) : Type := { key_eqb : K -> K -> bool }.

#[export] Instance string_KeyEq : KeyEq string := {| key_eqb := String.eqb |}.

Module Dict.
Section Dict.
Context {K : Type} `{KeyEq K}.
Variable V : Type.

Definition t : Type := list (K * V).

Fixpoint get (d : t) (k : K) : option V :=
  match d with
  | [] => None
  | (k', v) :: r => if key_eqb k k' then Some v else get r k
  end.

(** [d[k] = v]. *)
Fixpoint set (d : t) (k : K) (v : V) : t :=
  match d with
  | [] => [(k, v)]
  | (k', v') :: r =>
      if key_eqb k k' then (k', v) :: r else (k', v') :: set r k v
  end.

(** [d[k]]. *)
Definition getitem (d : t) (k : K) : result V :=
  match get d k with
  | Some v => Ok v
  | None => Raise KeyError
  end.

(** [d[k]] on a [defaultdict] whose factory returns [dflt]. *)
Definition get_default (d : t) (k : K) (dflt : V) : V :=
  match get d k with
  | Some v => v
  | None => dflt
  end.

(** [k in d]. *)
Definition mem (d : t) (k : K) : bool :=
  match get d k with Some _ => true | None => false end.

Definition keys (d : t) : list K := map fst d.
Definition values (d : t) : list V := map snd d.
Definition items (d : t) : list (K * V) := d.
End Dict.
Arguments t K V : clear implicits.
End Dict.

(* ===================================================================== *)
(** * The backend *)
(* ===================================================================== *)

Module Backend.

(** ** Listings returned by the cluster API

    The items of a [json.loads(data)['items']] listing, with the fields
    the extractors read.  [None] for a whole listing is a failed fetch. *)

Record Condition : Type := {
  cond_type : string;
  cond_status : string;
  cond_message : string
}.

Record NamespaceItem : Type := { ns_name : string }.

Record NodeItem : Type := {
  ni_name : string;
  ni_uid : string;
  ni_capacity_cpu : string;
  ni_capacity_memory : string;
  ni_allocatable_cpu : string;
  ni_allocatable_memory : string;
  ni_containerRuntimeVersion : string;
  ni_conditions : list Condition
}.

Record NodeMetricsItem : Type := {
  nm_name : string;
  nm_usage_cpu : string;
  nm_usage_memory : string
}.

Record PodItem : Type := {
  pi_name : string;
  pi_namespace : string;
  pi_uid : string;
  pi_phase : string;
  pi_conditions : option (list Condition);   (* 'conditions' in item['status'] *)
  pi_nodeName : option string                (* item['spec']['nodeName'], if any *)
}.

Record ContainerMetrics : Type := {
  cm_usage_cpu : string;
  cm_usage_memory : string
}.

Record PodMetricsItem : Type := {
  pm_name : string;
  pm_namespace : string;
  pm_containers : list ContainerMetrics
}.

(** ** Snapshot objects *)

(** [class Pod]; [cpuUsage] and [memUsage] are attributes that exist only
    once [extract_pod_metrics] has set them. *)
Record Pod : Type := {
  pod_name : string;
  pod_namespace : string;
  pod_id : string;
  pod_nodeName : option string;      (* [None] is Python's [None] *)
  pod_phase : string;
  pod_state : string;
  pod_cpuUsage : option float;
  pod_memUsage : option float
}.

(** [class Node]. *)
Record Node : Type := {
  node_id : string;
  node_name : string;
  node_state : string;
  node_message : string;
  node_cpuCapacity : num;
  node_cpuAllocatable : num;
  node_cpuUsage : num;
  node_memCapacity : num;
  node_memAllocatable : num;
  node_memUsage : num;
  node_containerRuntime : string;
  node_podsRunning : list Pod;
  node_podsNotRunning : list Pod
}.

(** [class ResourceUsage]. *)
Record ResourceUsage : Type := {
  cpuUsage : float;
  memUsage : float
}.

(** [class K8sUsage] (the two HTML strings are never read and are left
    out). *)
Record K8sUsage : Type := {
  nodes : Dict.t string Node;
  pods : Dict.t string Pod;
  nsResUsage : Dict.t string ResourceUsage;
  cpuUsedByPods : float;
  memUsedByPods : float;
  cpuCapacity : float;
  memCapacity : float;
  cpuAllocatable : float;
  memAllocatable : float
}.

(** [K8sUsage()]. *)
Definition K8sUsage_init : K8sUsage := {|
  nodes := [];
  pods := [];
  nsResUsage := [];
  cpuUsedByPods := f0;
  memUsedByPods := f0;
  cpuCapacity := f0;
  memCapacity := f0;
  cpuAllocatable := f0;
  memAllocatable := f0
|}.

(** ** Methods run in a state-and-exception monad

    A method mutates [self] and may raise; what it had written before the
    exception stays written. *)

Definition M (A : Type) : Type := K8sUsage -> K8sUsage * result A.

Definition ret {A} (a : A) : M A := fun s => (s, Ok a).

Definition bind {A B} (c : M A) (k : A -> M B) : M B :=
  fun s =>
    match c s with
    | (s', Ok a) => k a s'
    | (s', Raise e) => (s', Raise e)
    end.

Definition lift {A} (r : result A) : M A := fun s => (s, r).

Definition gets {A} (f : K8sUsage -> A) : M A := fun s => (s, Ok (f s)).

Definition modify (f : K8sUsage -> K8sUsage) : M unit := fun s => (f s, Ok tt).

Notation "x <~ c ;; k" := (bind c (fun x => k))
  (at level 61, c at next level, right associativity).
Notation "c ;;; k" := (bind c (fun _ => k))
  (at level 61, right associativity).

(** [for x in l: body(x)]. *)
Fixpoint for_each {X} (l : list X) (body : X -> M unit) : M unit :=
  match l with
  | [] => ret tt
  | x :: r => body x ;;; for_each r body
  end.

Definition set_nodes (d : Dict.t string Node) (s : K8sUsage) : K8sUsage :=
  {| nodes := d; pods := pods s; nsResUsage := nsResUsage s;
     cpuUsedByPods := cpuUsedByPods s; memUsedByPods := memUsedByPods s;
     cpuCapacity := cpuCapacity s; memCapacity := memCapacity s;
     cpuAllocatable := cpuAllocatable s; memAllocatable := memAllocatable s |}.

Definition set_pods (d : Dict.t string Pod) (s : K8sUsage) : K8sUsage :=
  {| nodes := nodes s; pods := d; nsResUsage := nsResUsage s;
     cpuUsedByPods := cpuUsedByPods s; memUsedByPods := memUsedByPods s;
     cpuCapacity := cpuCapacity s; memCapacity := memCapacity s;
     cpuAllocatable := cpuAllocatable s; memAllocatable := memAllocatable s |}.

Definition set_nsResUsage (d : Dict.t string ResourceUsage) (s : K8sUsage) : K8sUsage :=
  {| nodes := nodes s; pods := pods s; nsResUsage := d;
     cpuUsedByPods := cpuUsedByPods s; memUsedByPods := memUsedByPods s;
     cpuCapacity := cpuCapacity s; memCapacity := memCapacity s;
     cpuAllocatable := cpuAllocatable s; memAllocatable := memAllocatable s |}.

Definition set_cpuUsedByPods (x : float) (s : K8sUsage) : K8sUsage :=
  {| nodes := nodes s; pods := pods s; nsResUsage := nsResUsage s;
     cpuUsedByPods := x; memUsedByPods := memUsedByPods s;
     cpuCapacity := cpuCapacity s; memCapacity := memCapacity s;
     cpuAllocatable := cpuAllocatable s; memAllocatable := memAllocatable s |}.

Definition set_memUsedByPods (x : float) (s : K8sUsage) : K8sUsage :=
  {| nodes := nodes s; pods := pods s; nsResUsage := nsResUsage s;
     cpuUsedByPods := cpuUsedByPods s; memUsedByPods := x;
     cpuCapacity := cpuCapacity s; memCapacity := memCapacity s;
     cpuAllocatable := cpuAllocatable s; memAllocatable := memAllocatable s |}.

Definition set_cpuCapacity (x : float) (s : K8sUsage) : K8sUsage :=
  {| nodes := nodes s; pods := pods s; nsResUsage := nsResUsage s;
     cpuUsedByPods := cpuUsedByPods s; memUsedByPods := memUsedByPods s;
     cpuCapacity := x; memCapacity := memCapacity s;
     cpuAllocatable := cpuAllocatable s; memAllocatable := memAllocatable s |}.

Definition set_memCapacity (x : float) (s : K8sUsage) : K8sUsage :=
  {| nodes := nodes s; pods := pods s; nsResUsage := nsResUsage s;
     cpuUsedByPods := cpuUsedByPods s; memUsedByPods := memUsedByPods s;
     cpuCapacity := cpuCapacity s; memCapacity := x;
     cpuAllocatable := cpuAllocatable s; memAllocatable := memAllocatable s |}.

Definition set_cpuAllocatable (x : float) (s : K8sUsage) : K8sUsage :=
  {| nodes := nodes s; pods := pods s; nsResUsage := nsResUsage s;
     cpuUsedByPods := cpuUsedByPods s; memUsedByPods := memUsedByPods s;
     cpuCapacity := cpuCapacity s; memCapacity := memCapacity s;
     cpuAllocatable := x; memAllocatable := memAllocatable s |}.

Definition set_memAllocatable (x : float) (s : K8sUsage) : K8sUsage :=
  {| nodes := nodes s; pods := pods s; nsResUsage := nsResUsage s;
     cpuUsedByPods := cpuUsedByPods s; memUsedByPods := memUsedByPods s;
     cpuCapacity := cpuCapacity s; memCapacity := memCapacity s;
     cpuAllocatable := cpuAllocatable s; memAllocatable := x |}.

(** ** Quantity decoders *)

Definition decode_memory_capacity (cap_input : string) : result num :=
  let data_length := len cap_input in
  let '(cap_unit, cap_value) :=
    if endswith_char cap_input "i"
    then (slice_from cap_input (data_length - 2), slice cap_input 0 (data_length - 2))
    else (EmptyString, cap_input) in
  if String.eqb cap_unit EmptyString then v <- int cap_value ;; Ok (PInt v)
  else if String.eqb cap_unit "Ki" then v <- int cap_value ;; mul (PFloat (dec 1 3)) (PInt v)
  else if String.eqb cap_unit "Mi" then v <- int cap_value ;; mul (PFloat (dec 1 6)) (PInt v)
  else if String.eqb cap_unit "Gi" then v <- int cap_value ;; mul (PFloat (dec 1 9)) (PInt v)
  else if String.eqb cap_unit "Ti" then v <- int cap_value ;; mul (PFloat (dec 1 12)) (PInt v)
  else if String.eqb cap_unit "Pi" then v <- int cap_value ;; mul (PFloat (dec 1 15)) (PInt v)
  else if String.eqb cap_unit "Ei" then v <- int cap_value ;; mul (PFloat (dec 1 18)) (PInt v)
  else Ok (PInt 0).

Definition decode_cpu_capacity (cap_input : string) : result num :=
  let data_length := len cap_input in
  let cap_unit := slice_from cap_input (data_length - 1) in
  let cap_value := slice cap_input 0 (data_length - 1) in
  if String.eqb cap_unit "n" then v <- int cap_value ;; mul (PFloat (dec 1 (-9))) (PInt v)
  else if String.eqb cap_unit "u" then v <- int cap_value ;; mul (PFloat (dec 1 (-6))) (PInt v)
  else if String.eqb cap_unit "m" then v <- int cap_value ;; mul (PFloat (dec 1 (-3))) (PInt v)
  else v <- int cap_input ;; Ok (PInt v).

(** ** Extraction steps *)

Definition extract_namespaces_and_initialize_usage
    (data : option (list NamespaceItem)) : M unit :=
  match data with
  | None => ret tt
  | Some items =>
      for_each items (fun item =>
        modify (fun s =>
          set_nsResUsage
            (Dict.set (nsResUsage s) (ns_name item)
                      {| cpuUsage := f0; memUsage := f0 |}) s))
  end.

Definition cond_is (cond : Condition) (ty : string) : bool :=
  String.eqb (cond_type cond) ty && String.eqb (cond_status cond) "True".

(** The [for ... in item['status']['conditions']] loop of [extract_nodes]:
    every visited condition overwrites [node.message], and the first
    visited condition that is one of the six known types with status
    ["True"] sets [node.state] and leaves the loop. *)
Fixpoint scan_node_conditions (conds : list Condition) (state message : string)
  : string * string :=
  match conds with
  | [] => (state, message)
  | cond :: rest =>
      let message := cond_message cond in
      if cond_is cond "Ready" then ("Ready", message)
      else if cond_is cond "KernelDeadlock" then ("KernelDeadlock", message)
      else if cond_is cond "NetworkUnavailable" then ("NetworkUnavailable", message)
      else if cond_is cond "OutOfDisk" then ("OutOfDisk", message)
      else if cond_is cond "MemoryPressure" then ("MemoryPressure", message)
      else if cond_is cond "DiskPressure" then ("DiskPressure", message)
      else scan_node_conditions rest state message
  end.

Definition extract_node (item : NodeItem) : M unit :=
  cpuCap <~ lift (decode_cpu_capacity (ni_capacity_cpu item)) ;;
  cpuAlloc <~ lift (decode_cpu_capacity (ni_allocatable_cpu item)) ;;
  memCap <~ lift (decode_memory_capacity (ni_capacity_memory item)) ;;
  memAlloc <~ lift (decode_memory_capacity (ni_allocatable_memory item)) ;;
  let '(state, message) :=
    scan_node_conditions (ni_conditions item) EmptyString EmptyString in
  let node := {|
    node_id := ni_uid item;
    node_name := ni_name item;
    node_state := state;
    node_message := message;
    node_cpuCapacity := cpuCap;
    node_cpuAllocatable := cpuAlloc;
    node_cpuUsage := PFloat f0;
    node_memCapacity := memCap;
    node_memAllocatable := memAlloc;
    node_memUsage := PFloat f0;
    node_containerRuntime := ni_containerRuntimeVersion item;
    node_podsRunning := [];
    node_podsNotRunning := [] |} in
  modify (fun s => set_nodes (Dict.set (nodes s) (node_name node) node) s).

Definition extract_nodes (data : option (list NodeItem)) : M unit :=
  match data with
  | None => ret tt
  | Some items => for_each items extract_node
  end.

Definition with_node_cpuUsage (x : num) (n : Node) : Node :=
  {| node_id := node_id n; node_name := node_name n; node_state := node_state n;
     node_message := node_message n; node_cpuCapacity := node_cpuCapacity n;
     node_cpuAllocatable := node_cpuAllocatable n; node_cpuUsage := x;
     node_memCapacity := node_memCapacity n;
     node_memAllocatable := node_memAllocatable n; node_memUsage := node_memUsage n;
     node_containerRuntime := node_containerRuntime n;
     node_podsRunning := node_podsRunning n;
     node_podsNotRunning := node_podsNotRunning n |}.

Definition with_node_memUsage (x : num) (n : Node) : Node :=
  {| node_id := node_id n; node_name := node_name n; node_state := node_state n;
     node_message := node_message n; node_cpuCapacity := node_cpuCapacity n;
     node_cpuAllocatable := node_cpuAllocatable n; node_cpuUsage := node_cpuUsage n;
     node_memCapacity := node_memCapacity n;
     node_memAllocatable := node_memAllocatable n; node_memUsage := x;
     node_containerRuntime := node_containerRuntime n;
     node_podsRunning := node_podsRunning n;
     node_podsNotRunning := node_podsNotRunning n |}.

Definition with_node_podsRunning (l : list Pod) (n : Node) : Node :=
  {| node_id := node_id n; node_name := node_name n; node_state := node_state n;
     node_message := node_message n; node_cpuCapacity := node_cpuCapacity n;
     node_cpuAllocatable := node_cpuAllocatable n; node_cpuUsage := node_cpuUsage n;
     node_memCapacity := node_memCapacity n;
     node_memAllocatable := node_memAllocatable n; node_memUsage := node_memUsage n;
     node_containerRuntime := node_containerRuntime n;
     node_podsRunning := l;
     node_podsNotRunning := node_podsNotRunning n |}.

(** An attribute assignment on the node object stored under [k]: the
    object is shared with the dictionary, so the dictionary sees it at
    once. *)
Definition update_node (k : string) (f : Node -> Node) : M unit :=
  modify (fun s =>
    match Dict.get (nodes s) k with
    | Some n => set_nodes (Dict.set (nodes s) k (f n)) s
    | None => s
    end).

Definition extract_node_metrics (data : option (list NodeMetricsItem)) : M unit :=
  match data with
  | None => ret tt
  | Some items =>
      for_each items (fun item =>
        node <~ gets (fun s => Dict.get (nodes s) (nm_name item)) ;;
        match node with
        | None => ret tt
        | Some n =>
            c <~ lift (decode_cpu_capacity (nm_usage_cpu item)) ;;
            update_node (nm_name item) (with_node_cpuUsage c) ;;;
            m <~ lift (decode_memory_capacity (nm_usage_memory item)) ;;
            update_node (nm_name item) (with_node_memUsage m)
        end)
  end.

(** The condition loop of [extract_pods]. *)
Fixpoint scan_pod_conditions (conds : list Condition) (state : string) : string :=
  match conds with
  | [] => state
  | cond :: rest =>
      if cond_is cond "Ready" then "Ready"
      else if cond_is cond "ContainersReady" then "ContainersReady"
      else if cond_is cond "PodScheduled" then "PodScheduled"
      else if cond_is cond "Initialized" then "Initialized"
      else scan_pod_conditions rest state
  end.

Definition extract_pod (item : PodItem) : M unit :=
  let namespace := pi_namespace item in
  let name := pi_name item ++ "." ++ namespace in
  let state :=
    match pi_conditions item with
    | None => "PodNotScheduled"
    | Some conds => scan_pod_conditions conds "PodNotScheduled"
    end in
  nodeName <~ lift (if negb (String.eqb state "PodNotScheduled")
                    then match pi_nodeName item with
                         | Some n => Ok (Some n)
                         | None => Raise KeyError
                         end
                    else Ok None) ;;
  let pod := {|
    pod_name := name;
    pod_namespace := namespace;
    pod_id := pi_uid item;
    pod_nodeName := nodeName;
    pod_phase := pi_phase item;
    pod_state := state;
    pod_cpuUsage := None;
    pod_memUsage := None |} in
  modify (fun s => set_pods (Dict.set (pods s) (pod_name pod) pod) s).

Definition extract_pods (data : option (list PodItem)) : M unit :=
  match data with
  | None => ret tt
  | Some items => for_each items extract_pod
  end.

Definition with_pod_cpuUsage (x : float) (p : Pod) : Pod :=
  {| pod_name := pod_name p; pod_namespace := pod_namespace p; pod_id := pod_id p;
     pod_nodeName := pod_nodeName p; pod_phase := pod_phase p;
     pod_state := pod_state p; pod_cpuUsage := Some x;
     pod_memUsage := pod_memUsage p |}.

Definition with_pod_memUsage (x : float) (p : Pod) : Pod :=
  {| pod_name := pod_name p; pod_namespace := pod_namespace p; pod_id := pod_id p;
     pod_nodeName := pod_nodeName p; pod_phase := pod_phase p;
     pod_state := pod_state p; pod_cpuUsage := pod_cpuUsage p;
     pod_memUsage := Some x |}.

Definition update_pod (k : string) (f : Pod -> Pod) : M unit :=
  modify (fun s =>
    match Dict.get (pods s) k with
    | Some p => set_pods (Dict.set (pods s) k (f p)) s
    | None => s
    end).

(** [pod.cpuUsage += decode(...)] on the pod stored under [k]: the
    attribute is read, the quantity decoded, and the float sum stored. *)
Definition add_pod_usage (k : string)
    (field : Pod -> option float) (store : float -> Pod -> Pod)
    (decoded : result num) : M unit :=
  p <~ gets (fun s => Dict.get (pods s) k) ;;
  match p with
  | Some p =>
      match field p with
      | Some cur =>
          x <~ lift (decoded) ;;
          y <~ lift (to_float x) ;;
          update_pod k (store (fadd cur y))
      | None => ret tt
      end
  | None => ret tt
  end.

Definition extract_pod_metrics (data : option (list PodMetricsItem)) : M unit :=
  match data with
  | None => ret tt
  | Some items =>
      for_each items (fun item =>
        let podName := pm_name item ++ "." ++ pm_namespace item in
        pod <~ gets (fun s => Dict.get (pods s) podName) ;;
        match pod with
        | None => ret tt
        | Some _ =>
            update_pod podName (with_pod_cpuUsage f0) ;;;
            update_pod podName (with_pod_memUsage f0) ;;;
            for_each (pm_containers item) (fun container =>
              add_pod_usage podName pod_cpuUsage with_pod_cpuUsage
                (decode_cpu_capacity (cm_usage_cpu container)) ;;;
              add_pod_usage podName pod_memUsage with_pod_memUsage
                (decode_memory_capacity (cm_usage_memory container)))
        end)
  end.

(** ** Consolidation *)

(** [self.nsResUsage[ns].cpuUsage += x]. *)
Definition add_ns_cpuUsage (ns : string) (x : float) : M unit :=
  u <~ (fun s => (s, Dict.getitem (nsResUsage s) ns)) ;;
  modify (fun s =>
    set_nsResUsage
      (Dict.set (nsResUsage s) ns
                {| cpuUsage := fadd (cpuUsage u) x; memUsage := memUsage u |}) s).

(** [self.nsResUsage[ns].memUsage += x]. *)
Definition add_ns_memUsage (ns : string) (x : float) : M unit :=
  u <~ (fun s => (s, Dict.getitem (nsResUsage s) ns)) ;;
  modify (fun s =>
    set_nsResUsage
      (Dict.set (nsResUsage s) ns
                {| cpuUsage := cpuUsage u; memUsage := fadd (memUsage u) x |}) s).

(** [self.nodes[nodeName].podsRunning.append(pod)]; no key is [None]. *)
Definition append_podsRunning (nodeName : option string) (pod : Pod) : M unit :=
  match nodeName with
  | None => lift (Raise KeyError)
  | Some k =>
      n <~ (fun s => (s, Dict.getitem (nodes s) k)) ;;
      modify (fun s =>
        set_nodes
          (Dict.set (nodes s) k
                    (with_node_podsRunning (node_podsRunning n ++ [pod]) n)) s)
  end.

(** The body of the loop over [self.pods.values()]. *)
Definition consolidate_pod (pod : Pod) : M unit :=
  match pod_cpuUsage pod, pod_memUsage pod with
  | Some c, Some m =>
      modify (fun s => set_cpuUsedByPods (fadd (cpuUsedByPods s) c) s) ;;;
      add_ns_cpuUsage (pod_namespace pod) c ;;;
      add_ns_memUsage (pod_namespace pod) m ;;;
      modify (fun s => set_memUsedByPods (fadd (memUsedByPods s) m) s) ;;;
      append_podsRunning (pod_nodeName pod) pod
  | _, _ => ret tt
  end.

(** [self.x += node.y] for a float total and an [int] or [float] field. *)
Definition accumulate (get : K8sUsage -> float) (put : float -> K8sUsage -> K8sUsage)
    (x : num) : M unit :=
  y <~ lift (to_float x) ;;
  modify (fun s => put (fadd (get s) y) s).

Definition consolidate_ns_usage : M unit :=
  modify (set_cpuUsedByPods f0) ;;;
  modify (set_memUsedByPods f0) ;;;
  ps <~ gets (fun s => Dict.values (pods s)) ;;
  for_each ps consolidate_pod ;;;
  modify (fun s => set_cpuCapacity (fadd (cpuCapacity s) f0) s) ;;;
  modify (fun s => set_memCapacity (fadd (memCapacity s) f0) s) ;;;
  ns <~ gets (fun s => Dict.values (nodes s)) ;;
  for_each ns (fun node =>
    accumulate cpuCapacity set_cpuCapacity (node_cpuCapacity node) ;;;
    accumulate memCapacity set_memCapacity (node_memCapacity node)) ;;;
  modify (fun s => set_cpuAllocatable (fadd (cpuAllocatable s) f0) s) ;;;
  modify (fun s => set_memAllocatable (fadd (memAllocatable s) f0) s) ;;;
  ns <~ gets (fun s => Dict.values (nodes s)) ;;
  for_each ns (fun node =>
    accumulate cpuAllocatable set_cpuAllocatable (node_cpuAllocatable node) ;;;
    accumulate memAllocatable set_memAllocatable (node_memAllocatable node)).

(** ** Configuration *)

Record Config : Type := {
  cost_model : string;
  billing_hourly_rate : float;
  enable_debug : bool
}.

Definition db_non_allocatable : string := "non-allocatable".
Definition db_billing_hourly_rate : string := ".billing-hourly-rate".

(** [Config.__init__], for the environment variables [KOA_COST_MODEL],
    [KOA_BILLING_HOURLY_RATE] and [KOA_ENABLE_DEBUG]: a rate that is
    absent or does not parse is replaced by [-1.0]. *)
Definition Config_init (env_cost_model env_billing_hourly_rate env_enable_debug : option string)
  : Config :=
  {| cost_model :=
       match env_cost_model with Some v => v | None => "CUMULATIVE_RATIO" end;
     billing_hourly_rate :=
       match float_of_optional_string env_billing_hourly_rate with
       | Ok f => f
       | Raise _ => SFopp (dec 1 0)
       end;
     enable_debug :=
       match env_enable_debug with
       | Some v => let l := lowercase v in String.eqb l "yes" || String.eqb l "true"
       | None => false
       end |}.

(** The module-level validation and the start of the two threads. *)
Inductive Startup : Type :=
| Exit (code : Z)                       (* sys.exit(code) *)
| Started (threads : list string).      (* the targets of the started threads *)

Definition startup (KOA_CONFIG : Config) : Startup :=
  if String.eqb (cost_model KOA_CONFIG) "CHARGE_BACK"
     && fleb (billing_hourly_rate KOA_CONFIG) f0
  then Exit 1
  else Started ["create_metrics_puller"; "dump_analytics"].

(** ** Sampler *)

Definition compute_usage_percent_ratio (value total : float) : result float :=
  q <- fdiv (fmul (dec 100 0) value) total ;;
  Ok (round6 q).

(** What [rrdtool.update] is given for one database. *)
Record Sample : Type := {
  sample_db : string;
  sample_ts : Z;
  sample_cpu : float;
  sample_mem : float
}.

(** [Rrd(dbname=db).add_sample(timestamp_epoch, cpu_usage, mem_usage)]:
    the update handed to the store.  A failure of the store is caught and
    logged there. *)
Definition add_sample (db : string) (timestamp_epoch : Z) (cpu_usage mem_usage : float)
  : Sample :=
  {| sample_db := db; sample_ts := timestamp_epoch;
     sample_cpu := round6 cpu_usage; sample_mem := round6 mem_usage |}.

Record Listings : Type := {
  api_namespaces : option (list NamespaceItem);
  api_nodes : option (list NodeItem);
  api_node_metrics : option (list NodeMetricsItem);
  api_pods : option (list PodItem);
  api_pod_metrics : option (list PodMetricsItem)
}.

(** The five extraction steps and the consolidation of one cycle. *)
Definition collect (api : Listings) : M unit :=
  extract_namespaces_and_initialize_usage (api_namespaces api) ;;;
  extract_nodes (api_nodes api) ;;;
  extract_node_metrics (api_node_metrics api) ;;;
  extract_pods (api_pods api) ;;;
  extract_pod_metrics (api_pod_metrics api) ;;;
  consolidate_ns_usage.

Fixpoint namespace_samples (now_epoch : Z) (k8s_usage : K8sUsage)
    (l : list (string * ResourceUsage)) : result (list Sample) :=
  match l with
  | [] => Ok []
  | (ns, nsUsage) :: r =>
      cpu_usage <- compute_usage_percent_ratio (cpuUsage nsUsage) (cpuCapacity k8s_usage) ;;
      mem_usage <- compute_usage_percent_ratio (memUsage nsUsage) (memCapacity k8s_usage) ;;
      rest <- namespace_samples now_epoch k8s_usage r ;;
      Ok (add_sample ns now_epoch cpu_usage mem_usage :: rest)
  end.

(** The part of a cycle that follows [dump_nodes]: the samples appended
    to the series store. *)
Definition append_samples (KOA_CONFIG : Config) (now_epoch : Z) (k8s_usage : K8sUsage)
  : result (list Sample) :=
  if fgtb (cpuCapacity k8s_usage) f0 && fgtb (memCapacity k8s_usage) f0 then
    cpu_usage <- compute_usage_percent_ratio
                   (fsub (cpuCapacity k8s_usage) (cpuAllocatable k8s_usage))
                   (cpuCapacity k8s_usage) ;;
    mem_usage <- compute_usage_percent_ratio
                   (fsub (memCapacity k8s_usage) (memAllocatable k8s_usage))
                   (memCapacity k8s_usage) ;;
    let non_allocatable := add_sample db_non_allocatable now_epoch cpu_usage mem_usage in
    cpu_usage <- compute_usage_percent_ratio
                   (fsub (cpuCapacity k8s_usage) (cpuAllocatable k8s_usage))
                   (cpuCapacity k8s_usage) ;;
    mem_usage <- compute_usage_percent_ratio
                   (fsub (memCapacity k8s_usage) (memAllocatable k8s_usage))
                   (memCapacity k8s_usage) ;;
    let billing := add_sample db_billing_hourly_rate now_epoch
                     (billing_hourly_rate KOA_CONFIG) (billing_hourly_rate KOA_CONFIG) in
    rest <- namespace_samples now_epoch k8s_usage (Dict.items (nsResUsage k8s_usage)) ;;
    Ok (non_allocatable :: billing :: rest)
  else Ok [].

(** One turn of the [while True] loop of [create_metrics_puller]: the
    node snapshot written by [dump_nodes] and the samples appended.  An
    exception leaves the loop. *)
Definition create_metrics_puller_cycle (KOA_CONFIG : Config) (api : Listings)
    (now_epoch : Z) : result (Dict.t string Node * list Sample) :=
  match collect api K8sUsage_init with
  | (_, Raise e) => Raise e
  | (k8s_usage, Ok _) =>
      samples <- append_samples KOA_CONFIG now_epoch k8s_usage ;;
      Ok (nodes k8s_usage, samples)
  end.

(** ** Analytics *)

Inductive ResUsageType : Type := CPU | MEMORY.

Definition ResUsageType_eqb (a b : ResUsageType) : bool :=
  match a, b with
  | CPU, CPU | MEMORY, MEMORY => true
  | _, _ => false
  end.

#[export] Instance ResUsageType_KeyEq : KeyEq ResUsageType :=
  {| key_eqb := ResUsageType_eqb |}.

Definition ResUsageType_name (r : ResUsageType) : string :=
  match r with CPU => "CPU" | MEMORY => "MEMORY" end.

(** [class RrdPeriod]. *)
Definition PERIOD_5_MINS_SEC : Z := 300.
Definition PERIOD_1_HOUR_SEC : Z := 3600.
Definition PERIOD_1_DAY_SEC : Z := 86400.
Definition PERIOD_7_DAYS_SEC : Z := 604800.
Definition PERIOD_14_DAYS_SEC : Z := 1209600.
Definition PERIOD_YEAR_SEC : Z := 31968000.

(** The value of [rrdtool.fetch]: [((start, end, step), names, rows)]; a
    cell of a row is a float or [None]. *)
Record FetchResult : Type := {
  fr_start : Z;
  fr_end : Z;
  fr_step : Z;
  fr_rows : list (list (option float))
}.

(** What the analytics do to the outside: queries to the store and
    updates of the Prometheus gauges. *)
Inductive Event : Type :=
| Fetched (db : string) (step start stop : Z)
| HourlyGauge (db resource : string) (value : float)
| PeriodicGauge (period : Z) (db resource : string) (value : float).

(** Effects are logged in order; an exception keeps what was logged. *)
Definition W (A : Type) : Type := list Event * result A.

Definition wret {A} (a : A) : W A := ([], Ok a).

Definition wbind {A B} (c : W A) (k : A -> W B) : W B :=
  match c with
  | (ev, Ok a) => let '(ev', r) := k a in ((ev ++ ev')%list, r)
  | (ev, Raise e) => (ev, Raise e)
  end.

Definition wlift {A} (r : result A) : W A := ([], r).

Definition emit (e : Event) : W unit := ([e], Ok tt).

Notation "x <=~ c ;; k" := (wbind c (fun x => k))
  (at level 61, c at next level, right associativity).

(** One exported record of a cost histogram: the arguments of the format
    ['{"stack":"%s","usage":%f,"date":"%s"}']. *)
Record HistogramEntry : Type := {
  he_stack : string;
  he_usage : float;
  he_date : string
}.

Section Rrd.
Variable KOA_CONFIG : Config.

(** [rrdtool.fetch(rrd_location, 'AVERAGE', '-r', step, '-s', start,
    '-e', end)] for the database [db]. *)
Variable rrdtool_fetch : string -> Z -> Z -> Z -> result FetchResult.

(** [calendar.timegm(time.gmtime())]; one call of a dump reads the clock
    within one second. *)
Variable now : Z.

Definition get_date_group (timeUTC : struct_time) (period : Z) : string :=
  if period =? PERIOD_YEAR_SEC then strftime_month_year timeUTC
  else strftime_day_month timeUTC.

(** [round(100*float(x), 6)/100]. *)
Definition sample_usage (x : float) : float :=
  fdiv_ieee (round6 (fmul (dec 100 0) x)) (dec 100 0).

(** The query common to both dumps: [rrd_result] for the window that
    ends now. *)
Definition fetch_window (dbname : string) (period step : Z) : W FetchResult :=
  q <=~ wlift (truediv (now * step) step) ;;
  rrd_end_ts <=~ wlift (trunc q) ;;
  let rrd_start_ts := rrd_end_ts - period in
  _ <=~ emit (Fetched dbname step rrd_start_ts rrd_end_ts) ;;
  wlift (rrdtool_fetch dbname step rrd_start_ts rrd_end_ts).

Definition trend_json (dbname : string) (ts : Z) (usage : float) : string :=
  "{" ++ dq ++ "name" ++ dq ++ ":" ++ dq ++ dbname ++ dq ++ ","
  ++ dq ++ "dateUTC" ++ dq ++ ":" ++ dq ++ strftime_iso (gmtime ts) ++ dq ++ ","
  ++ dq ++ "usage" ++ dq ++ ":" ++ format_f usage ++ "}".

Record TrendAcc : Type := {
  res_usage_cpu : list string;
  res_usage_mem : list string;
  sum_res_usage_cpu : float;
  sum_res_usage_mem : float
}.

(** The top of the current hour, [int(int(now / 3600) * 3600)]. *)
Definition current_hour : result Z :=
  q <- truediv now PERIOD_1_HOUR_SEC ;;
  h <- trunc q ;;
  Ok (h * PERIOD_1_HOUR_SEC).

(** The body of the loop over the rows of a trend query.  A row that is
    not a pair of floats raises inside the [try] before anything is
    appended, and is passed over. *)
Fixpoint trend_rows (dbname : string) (rows : list (list (option float)))
    (rrd_current_ts step : Z) (acc : TrendAcc) : list Event * TrendAcc :=
  match rows with
  | [] => ([], acc)
  | cdp :: rest =>
      let rrd_current_ts := rrd_current_ts + step in
      let '(ev, acc') :=
        match cdp with
        | [Some c; Some m] =>
            let current_cpu_usage := sample_usage c in
            let current_mem_usage := sample_usage m in
            let acc' := {|
              res_usage_cpu := (res_usage_cpu acc ++ [trend_json dbname rrd_current_ts current_cpu_usage])%list;
              res_usage_mem := (res_usage_mem acc ++ [trend_json dbname rrd_current_ts current_mem_usage])%list;
              sum_res_usage_cpu := fadd (sum_res_usage_cpu acc) current_cpu_usage;
              sum_res_usage_mem := fadd (sum_res_usage_mem acc) current_mem_usage |} in
            match current_hour with
            | Ok h =>
                if rrd_current_ts =? h
                then ([HourlyGauge dbname (ResUsageType_name CPU) current_cpu_usage;
                       HourlyGauge dbname (ResUsageType_name MEMORY) current_mem_usage], acc')
                else ([], acc')
            | Raise _ => ([], acc')
            end
        | _ => ([], acc)
        end in
      let '(ev', acc'') := trend_rows dbname rest rrd_current_ts step acc' in
      ((ev ++ ev')%list, acc'')
  end.

(** One query of [dump_trend_data] and its loop: [Some] of the two
    joined series when both sums are positive. *)
Definition trend_query (dbname : string) (period step : Z)
  : W (option (string * string)) :=
  rrd_result <=~ fetch_window dbname period step ;;
  let '(ev, acc) :=
    trend_rows dbname (fr_rows rrd_result) (fr_start rrd_result) (fr_step rrd_result)
      {| res_usage_cpu := []; res_usage_mem := [];
         sum_res_usage_cpu := f0; sum_res_usage_mem := f0 |} in
  (ev,
   Ok (if fgtb (sum_res_usage_cpu acc) f0 && fgtb (sum_res_usage_mem acc) f0
       then Some (join "," (res_usage_cpu acc), join "," (res_usage_mem acc))
       else None)).

(** [Rrd(dbname).dump_trend_data(period, step_in)].  The call that the
    method makes to itself passes a [step_in] that is not [None], so it
    is written out in place. *)
Definition dump_trend_data (dbname : string) (period : Z) (step_in : option Z)
  : W (string * string) :=
  let step := match step_in with Some s => s | None => PERIOD_1_HOUR_SEC end in
  r <=~ trend_query dbname period step ;;
  match r with
  | Some out => wret out
  | None =>
      match step_in with
      | None =>
          r' <=~ trend_query dbname period PERIOD_5_MINS_SEC ;;
          match r' with
          | Some out => wret out
          | None => wret (EmptyString, EmptyString)
          end
      | Some _ => wret (EmptyString, EmptyString)
      end
  end.

(** [defaultdict(lambda: 0.0)]: [d[k] += x]. *)
Definition add_to (d : Dict.t string float) (k : string) (x : float)
  : Dict.t string float :=
  Dict.set d k (fadd (Dict.get_default d k f0) x).

Fixpoint histogram_rows (period : Z) (rows : list (list (option float)))
    (rrd_current_ts step : Z) (acc : Dict.t string float * Dict.t string float)
  : Dict.t string float * Dict.t string float :=
  match rows with
  | [] => acc
  | cdp :: rest =>
      let rrd_current_ts := rrd_current_ts + step in
      let acc' :=
        match cdp with
        | [Some c; Some m] =>
            let date_group := get_date_group (gmtime rrd_current_ts) period in
            (add_to (fst acc) date_group (sample_usage c),
             add_to (snd acc) date_group (sample_usage m))
        | _ => acc
        end in
      histogram_rows period rest rrd_current_ts step acc'
  end.

(** [Rrd(dbname).dump_histogram_data(period)]. *)
Definition dump_histogram_data (dbname : string) (period : Z)
  : W (Dict.t string float * Dict.t string float) :=
  rrd_result <=~ fetch_window dbname period PERIOD_1_HOUR_SEC ;;
  wret (histogram_rows period (fr_rows rrd_result) (fr_start rrd_result)
          (fr_step rrd_result) ([], [])).

(** The two tables built by the first loop of
    [dump_histogram_analytics]. *)
Record UsageTables : Type := {
  usage_per_type_date : Dict.t ResUsageType (Dict.t string (Dict.t string float));
  sum_usage_per_type_date : Dict.t ResUsageType (Dict.t string float)
}.

(** The body of the innermost loop of the first pass. *)
Definition record_usage (db : string) (res : ResUsageType)
    (date_key : string) (usage_value : float) (t : UsageTables) : UsageTables :=
  if fgtb usage_value f0 then
    let bundle := Dict.get_default (usage_per_type_date t) res [] in
    let item := Dict.get_default bundle date_key [] in
    let usage' :=
      Dict.set (usage_per_type_date t) res
               (Dict.set bundle date_key (Dict.set item db usage_value)) in
    let sum' :=
      if negb (String.eqb db db_billing_hourly_rate) then
        let sums := Dict.get_default (sum_usage_per_type_date t) res [] in
        Dict.set (sum_usage_per_type_date t) res (add_to sums date_key usage_value)
      else sum_usage_per_type_date t in
    {| usage_per_type_date := usage'; sum_usage_per_type_date := sum' |}
  else t.

Definition record_periodic_usage (db : string)
    (current_periodic_usage : Dict.t string float * Dict.t string float)
    (t : UsageTables) : UsageTables :=
  let t := fold_left (fun t kv => record_usage db CPU (fst kv) (snd kv) t)
                     (Dict.items (fst current_periodic_usage)) t in
  fold_left (fun t kv => record_usage db MEMORY (fst kv) (snd kv) t)
            (Dict.items (snd current_periodic_usage)) t.

Fixpoint collect_usage (dbfiles : list string) (period : Z) (t : UsageTables)
  : W UsageTables :=
  match dbfiles with
  | [] => wret t
  | db :: rest =>
      current_periodic_usage <=~ dump_histogram_data db period ;;
      collect_usage rest period (record_periodic_usage db current_periodic_usage t)
  end.

(** [PROMETHEUS_PERIODIC_USAGE_EXPORTERS[period]]. *)
Definition periodic_exporter (period : Z) : result Z :=
  if (period =? PERIOD_14_DAYS_SEC) || (period =? PERIOD_YEAR_SEC)
  then Ok period else Raise KeyError.

(** The cost published for one entity and one date. *)
Definition usage_cost_of (res : ResUsageType) (date_key : string)
    (db_usage_item : Dict.t string float) (usage_value : float)
    (t : UsageTables) : result float :=
  if String.eqb (cost_model KOA_CONFIG) "RATIO"
     || String.eqb (cost_model KOA_CONFIG) "CHARGE_BACK" then
    sums <- Dict.getitem (sum_usage_per_type_date t) res ;;
    usage_ratio <- fdiv usage_value (Dict.get_default sums date_key f0) ;;
    if String.eqb (cost_model KOA_CONFIG) "CHARGE_BACK" then
      rate <- Dict.getitem db_usage_item db_billing_hourly_rate ;;
      Ok (round6 (fmul usage_ratio rate))
    else Ok (round6 (fmul (dec 100 0) usage_ratio))
  else Ok (round6 usage_value).

(** The body of the innermost loop of the second pass. *)
Definition export_entry (period : Z) (res : ResUsageType) (date_key : string)
    (db_usage_item : Dict.t string float) (t : UsageTables)
    (db : string) (usage_value : float) : W (list HistogramEntry) :=
  if negb (String.eqb db db_billing_hourly_rate) then
    usage_cost <=~ wlift (usage_cost_of res date_key db_usage_item usage_value t) ;;
    let entry := {| he_stack := db; he_usage := usage_cost; he_date := date_key |} in
    if String.eqb (get_date_group (gmtime now) period) date_key then
      p <=~ wlift (periodic_exporter period) ;;
      _ <=~ emit (PeriodicGauge p db (ResUsageType_name res) usage_cost) ;;
      wret [entry]
    else wret [entry]
  else wret [].

(** [for x in l: out += body(x)]. *)
Fixpoint wconcat {X Y} (l : list X) (body : X -> W (list Y)) : W (list Y) :=
  match l with
  | [] => wret []
  | x :: r =>
      a <=~ body x ;;
      b <=~ wconcat r body ;;
      wret (a ++ b)%list
  end.

(** The second pass: the exported records, tagged by resource. *)
Definition export_costs (period : Z) (t : UsageTables)
  : W (list (ResUsageType * HistogramEntry)) :=
  wconcat (Dict.items (usage_per_type_date t)) (fun '(res, usage_data_bundle) =>
    wconcat (Dict.items usage_data_bundle) (fun '(date_key, db_usage_item) =>
      wconcat (Dict.items db_usage_item) (fun '(db, usage_value) =>
        l <=~ export_entry period res date_key db_usage_item t db usage_value ;;
        wret (map (fun e => (res, e)) l)))).

(** [usage_export[res]]. *)
Definition usage_export (res : ResUsageType)
    (l : list (ResUsageType * HistogramEntry)) : list HistogramEntry :=
  map snd (filter (fun x => ResUsageType_eqb (fst x) res) l).

Definition histogram_json (e : HistogramEntry) : string :=
  "{" ++ dq ++ "stack" ++ dq ++ ":" ++ dq ++ he_stack e ++ dq ++ ","
  ++ dq ++ "usage" ++ dq ++ ":" ++ format_f (he_usage e) ++ ","
  ++ dq ++ "date" ++ dq ++ ":" ++ dq ++ he_date e ++ dq ++ "}".

(** The records of [Rrd.dump_histogram_analytics(dbfiles, period)]. *)
Definition histogram_records (dbfiles : list string) (period : Z)
  : W (list (ResUsageType * HistogramEntry)) :=
  t <=~ collect_usage dbfiles period
          {| usage_per_type_date := []; sum_usage_per_type_date := [] |} ;;
  export_costs period t.

(** [Rrd.dump_histogram_analytics(dbfiles, period)]: the contents of the
    cpu and of the memory file. *)
Definition dump_histogram_analytics (dbfiles : list string) (period : Z)
  : W (string * string) :=
  l <=~ histogram_records dbfiles period ;;
  wret ("[" ++ join "," (map histogram_json (usage_export CPU l)) ++ "]",
        "[" ++ join "," (map histogram_json (usage_export MEMORY l)) ++ "]").

(** [Rrd.dump_trend_analytics(dbfiles)]. *)
Fixpoint trend_series (dbfiles : list string) : W (list string * list string) :=
  match dbfiles with
  | [] => wret ([], [])
  | db :: rest =>
      if String.eqb db db_billing_hourly_rate && negb (enable_debug KOA_CONFIG)
      then trend_series rest
      else
        current_trend_data <=~ dump_trend_data db PERIOD_7_DAYS_SEC None ;;
        r <=~ trend_series rest ;;
        let keep (x : string) (l : list string) :=
          if String.eqb x EmptyString then l else x :: l in
        wret (keep (fst current_trend_data) (fst r),
              keep (snd current_trend_data) (snd r))
  end.

Definition dump_trend_analytics (dbfiles : list string) : W (string * string) :=
  r <=~ trend_series dbfiles ;;
  wret ("[" ++ join "," (fst r) ++ "]", "[" ++ join "," (snd r) ++ "]").

End Rrd.

End Backend.
Import Backend.

(* ===================================================================== *)
(** * Vocabulary of the statements *)
(* ===================================================================== *)

Unset Implicit Arguments.

(** [r == x] for the value of a call that may raise. *)
Definition py_equal (r : result num) (x : num) : bool :=
  match r with
  | Ok v => Py.eqb v x
  | Raise _ => false
  end.

(** The decimal exponent that goes with the first letter of a memory
    unit. *)
Definition memory_scale (c : ascii) : option Z :=
  if Ascii.eqb c "K" then Some 3
  else if Ascii.eqb c "M" then Some 6
  else if Ascii.eqb c "G" then Some 9
  else if Ascii.eqb c "T" then Some 12
  else if Ascii.eqb c "P" then Some 15
  else if Ascii.eqb c "E" then Some 18
  else None.

(** The decimal exponent that goes with a cpu unit. *)
Definition cpu_scale (c : ascii) : option Z :=
  if Ascii.eqb c "n" then Some (-9)
  else if Ascii.eqb c "u" then Some (-6)
  else if Ascii.eqb c "m" then Some (-3)
  else None.

(** The digits that [decode_cpu_capacity] hands to [int]: the input
    without its unit, or the whole input when it ends in no unit. *)
Definition cpu_payload (s : string) : string :=
  match last_char s with
  | Some c =>
      match cpu_scale c with
      | Some _ => slice s 0 (len s - 1)
      | None => s
      end
  | None => s
  end.

(** A condition of one of the six types that [extract_nodes] knows, with
    status ["True"]. *)
Definition recognized_true (c : Condition) : bool :=
  String.eqb (cond_status c) "True"
  && (String.eqb (cond_type c) "Ready"
      || String.eqb (cond_type c) "KernelDeadlock"
      || String.eqb (cond_type c) "NetworkUnavailable"
      || String.eqb (cond_type c) "OutOfDisk"
      || String.eqb (cond_type c) "MemoryPressure"
      || String.eqb (cond_type c) "DiskPressure").

(** The type of the first such condition in the order of the list, or the
    empty state that [Node()] starts with. *)
Definition health_of (conds : list Condition) : string :=
  match find recognized_true conds with
  | Some c => cond_type c
  | None => EmptyString
  end.

(** [100 * value / total] rounded to six decimals, as a plain float. *)
Definition percent_ratio (value total : float) : float :=
  round6 (fdiv_ieee (fmul (dec 100 0) value) total).

(** [100 * value / total] as it reaches the store: rounded to six
    decimals when it is computed, and once more when it is stored. *)
Definition stored_ratio (value total : float) : float :=
  round6 (round6 (fdiv_ieee (fmul (dec 100 0) value) total)).

(** Keys compared by [key_eqb] are equal exactly when it says so. *)
Class KeyEqLaws (K : Type) `{KeyEq K} : Prop :=
  key_eqb_eq : forall a b : K, key_eqb a b = true <-> a = b.


(** A pod that [extract_pod_metrics] has given both usage attributes. *)
Definition carries_usage (p : Pod) : bool :=
  match pod_cpuUsage p, pod_memUsage p with
  | Some _, Some _ => true
  | _, _ => false
  end.

(** [pod.nodeName in self.nodes]. *)
Definition node_known (s : K8sUsage) (p : Pod) : bool :=
  match pod_nodeName p with
  | Some k => Dict.mem (nodes s) k
  | None => false
  end.

(** [pod.namespace in self.nsResUsage]. *)
Definition namespace_known (s : K8sUsage) (p : Pod) : bool :=
  Dict.mem (nsResUsage s) (pod_namespace p).

(** A pod on which the body of the consolidation loop raises. *)
Definition offending (s : K8sUsage) (p : Pod) : bool :=
  carries_usage p && negb (namespace_known s p && node_known s p).

(** The cpu (memory) usages of the pods of [l] that carry usage, in the
    order of [l]. *)
Definition cpu_usages (l : list Pod) : list float :=
  flat_map (fun p => match pod_cpuUsage p, pod_memUsage p with
                     | Some c, Some _ => [c]
                     | _, _ => []
                     end) l.

Definition mem_usages (l : list Pod) : list float :=
  flat_map (fun p => match pod_cpuUsage p, pod_memUsage p with
                     | Some _, Some m => [m]
                     | _, _ => []
                     end) l.

(** The pods of [l] owned by the namespace [ns]. *)
Definition owned_by (ns : string) (l : list Pod) : list Pod :=
  filter (fun p => String.eqb (pod_namespace p) ns) l.

(** [x += y] for each [y] of [l], from the left. *)
Definition fsum (l : list float) (x : float) : float := fold_left fadd l x.

(** The totals that the two node loops of the consolidation fill. *)
Definition node_totals (s : K8sUsage) : float * float * float * float :=
  (cpuCapacity s, memCapacity s, cpuAllocatable s, memAllocatable s).

(** The state in which the loop over the pods starts. *)
Definition usage_reset (s : K8sUsage) : K8sUsage :=
  set_memUsedByPods f0 (set_cpuUsedByPods f0 s).

(** The snapshot after the five extraction steps, before the
    consolidation. *)
Definition extracted (api : Listings) : K8sUsage :=
  fst ((extract_namespaces_and_initialize_usage (api_namespaces api) ;;;
        extract_nodes (api_nodes api) ;;;
        extract_node_metrics (api_node_metrics api) ;;;
        extract_pods (api_pods api) ;;;
        extract_pod_metrics (api_pod_metrics api)) K8sUsage_init).

(** ** Sample inputs *)

Definition ready_condition : Condition :=
  {| cond_type := "Ready"; cond_status := "True"; cond_message := "kubelet is ready" |}.

Definition example_pod (name namespace uid node : string) : PodItem :=
  {| pi_name := name; pi_namespace := namespace; pi_uid := uid;
     pi_phase := "Running"; pi_conditions := Some [ready_condition];
     pi_nodeName := Some node |}.

Definition example_pod_metrics (name namespace cpu memory : string) : PodMetricsItem :=
  {| pm_name := name; pm_namespace := namespace;
     pm_containers := [ {| cm_usage_cpu := cpu; cm_usage_memory := memory |} ] |}.

(** Two namespaces, one node, and the pod [web] placed on [web_node]. *)
Definition listings_with_web_on (web_node : string) : Listings := {|
  api_namespaces := Some [ {| ns_name := "team-a" |}; {| ns_name := "team-b" |} ];
  api_nodes := Some [ {| ni_name := "node-1"; ni_uid := "u1";
                         ni_capacity_cpu := "4"; ni_capacity_memory := "8Gi";
                         ni_allocatable_cpu := "3500m"; ni_allocatable_memory := "7Gi";
                         ni_containerRuntimeVersion := "containerd";
                         ni_conditions := [ready_condition] |} ];
  api_node_metrics := Some [ {| nm_name := "node-1"; nm_usage_cpu := "900m";
                                nm_usage_memory := "2Gi" |} ];
  api_pods := Some [ example_pod "web" "team-a" "p1" web_node;
                     example_pod "db" "team-b" "p2" "node-1" ];
  api_pod_metrics := Some [ example_pod_metrics "web" "team-a" "250m" "512Mi";
                            example_pod_metrics "db" "team-b" "500m" "1Gi" ]
|}.

Definition example_listings : Listings := listings_with_web_on "node-1".

Definition listings_with_unlisted_node : Listings := listings_with_web_on "node-2".

Definition example_config : Config :=
  {| cost_model := "RATIO"; billing_hourly_rate := dec 12 0; enable_debug := false |}.

(** The part of the consolidation that follows the loop over the pods. *)
Definition node_loops : M unit :=
  modify (fun s => set_cpuCapacity (fadd (cpuCapacity s) f0) s) ;;;
  modify (fun s => set_memCapacity (fadd (memCapacity s) f0) s) ;;;
  ns <~ gets (fun s => Dict.values (nodes s)) ;;
  for_each ns (fun node =>
    accumulate cpuCapacity set_cpuCapacity (node_cpuCapacity node) ;;;
    accumulate memCapacity set_memCapacity (node_memCapacity node)) ;;;
  modify (fun s => set_cpuAllocatable (fadd (cpuAllocatable s) f0) s) ;;;
  modify (fun s => set_memAllocatable (fadd (memAllocatable s) f0) s) ;;;
  ns <~ gets (fun s => Dict.values (nodes s)) ;;
  for_each ns (fun node =>
    accumulate cpuAllocatable set_cpuAllocatable (node_cpuAllocatable node) ;;;
    accumulate memAllocatable set_memAllocatable (node_memAllocatable node)).

(** Computations that leave the namespace table alone. *)
Definition keeps_namespaces {A} (c : M A) : Prop :=
  forall s, nsResUsage (fst (c s)) = nsResUsage s.

(** The store queries among the effects of a dump: database and step. *)
Definition queries (ev : list Event) : list (string * Z) :=
  flat_map (fun e => match e with
                     | Fetched db step _ _ => [(db, step)]
                     | _ => []
                     end) ev.

(** What the loop of [dump_trend_data] collects from a query result. *)
Definition trend_acc (now : Z) (dbname : string) (r : FetchResult) : TrendAcc :=
  snd (trend_rows now dbname (fr_rows r) (fr_start r) (fr_step r)
         {| res_usage_cpu := []; res_usage_mem := [];
            sum_res_usage_cpu := f0; sum_res_usage_mem := f0 |}).

(** [sum_res_usage[CPU] > 0.0 and sum_res_usage[MEMORY] > 0.0]. *)
Definition both_positive (acc : TrendAcc) : bool :=
  fgtb (sum_res_usage_cpu acc) f0 && fgtb (sum_res_usage_mem acc) f0.

(** The two joined series of an accumulator. *)
Definition joined (acc : TrendAcc) : string * string :=
  (join "," (res_usage_cpu acc), join "," (res_usage_mem acc)).

(** A store whose one-hour rows hold cpu usage [1.5] and memory usage
    [0.0], and which has no five-minute rows. *)
Definition store_with_idle_memory (db : string) (step start stop : Z)
  : result FetchResult :=
  Ok {| fr_start := start; fr_end := stop; fr_step := step;
        fr_rows := if step =? PERIOD_1_HOUR_SEC
                   then [[Some (dec 15 (-1)); Some f0]] else [] |}.

(** A store whose one-hour rows are all zero and whose five-minute rows
    hold a cpu usage of [0.25] and a memory usage of [0.5]. *)
Definition store_with_recent_usage (db : string) (step start stop : Z)
  : result FetchResult :=
  Ok {| fr_start := start; fr_end := stop; fr_step := step;
        fr_rows := if step =? PERIOD_1_HOUR_SEC
                   then [[Some f0; Some f0]; [None; None]]
                   else [[Some (dec 25 (-2)); Some (dec 5 (-1))]] |}.

(** Either nothing has been collected and the sums are still zero, or
    both series start with a record. *)
Definition collected (acc : TrendAcc) : Prop :=
  (sum_res_usage_cpu acc = f0 /\ sum_res_usage_mem acc = f0)
  \/ (exists x l, res_usage_cpu acc = x :: l /\ x <> EmptyString)
     /\ (exists x l, res_usage_mem acc = x :: l /\ x <> EmptyString).

(** A store in which every namespace database holds one row, with cpu
    usage [0.25] and memory usage [0.5], and in which the billing-rate
    database holds a row without values. *)
Definition store_without_billing_sample (db : string) (step start stop : Z)
  : result FetchResult :=
  Ok {| fr_start := start; fr_end := stop; fr_step := step;
        fr_rows := if String.eqb db db_billing_hourly_rate
                   then [[None; None]]
                   else [[Some (dec 25 (-2)); Some (dec 5 (-1))]] |}.

(** A store in which [team-a] uses [0.25] and [0.5], [team-b] uses
    [0.5] and [0.5], and the billing rate is [12]. *)
Definition store_with_two_teams (db : string) (step start stop : Z)
  : result FetchResult :=
  Ok {| fr_start := start; fr_end := stop; fr_step := step;
        fr_rows := if String.eqb db db_billing_hourly_rate
                   then [[Some (dec 12 0); Some (dec 12 0)]]
                   else if String.eqb db "team-a"
                        then [[Some (dec 25 (-2)); Some (dec 5 (-1))]]
                        else [[Some (dec 5 (-1)); Some (dec 5 (-1))]] |}.



Definition charge_back_config : Config :=
  {| cost_model := "CHARGE_BACK"; billing_hourly_rate := dec 12 0; enable_debug := false |}.

(** ** Cost histograms *)

(** The cpu or the memory half of a pair. *)
Definition channel {A} (res : ResUsageType) (x : A * A) : A :=
  match res with CPU => fst x | MEMORY => snd x end.

(** The usage of entity [db] for the date [date], as
    [dump_histogram_data] reports it in [data db]. *)
Definition usage_of (data : string -> Dict.t string float * Dict.t string float)
    (res : ResUsageType) (date db : string) : option float :=
  Dict.get (channel res (data db)) date.

(** The entities of [dbfiles] whose usage for the date is strictly
    positive, in the order of [dbfiles], with that usage. *)
Definition contributors (data : string -> Dict.t string float * Dict.t string float)
    (res : ResUsageType) (date : string) (dbfiles : list string)
  : list (string * float) :=
  flat_map (fun db => match usage_of data res date db with
                      | Some u => if fgtb u f0 then [(db, u)] else []
                      | None => []
                      end) dbfiles.

(** An entity other than the billing-rate entity. *)
Definition pays (x : string * float) : bool :=
  negb (String.eqb (fst x) db_billing_hourly_rate).

(** The contributors without the billing-rate entity. *)
Definition payers (data : string -> Dict.t string float * Dict.t string float)
    (res : ResUsageType) (date : string) (dbfiles : list string)
  : list (string * float) :=
  filter pays (contributors data res date dbfiles).

(** The usage summed over the payers, as the first pass sums it. *)
Definition summed_usage (data : string -> Dict.t string float * Dict.t string float)
    (res : ResUsageType) (date : string) (dbfiles : list string) : float :=
  fsum (map snd (payers data res date dbfiles)) f0.

(** [round(100 * (usage / total), 6)]. *)
Definition ratio_cost (usage total : float) : float :=
  round6 (fmul (dec 100 0) (fdiv_ieee usage total)).

(** The entries of the two tables for one resource and one date. *)
Definition bundle_at (t : UsageTables) (res : ResUsageType) (date : string)
  : Dict.t string float :=
  Dict.get_default (Dict.get_default (usage_per_type_date t) res []) date [].

Definition sum_at (t : UsageTables) (res : ResUsageType) (date : string) : float :=
  Dict.get_default (Dict.get_default (sum_usage_per_type_date t) res []) date f0.

(** The tables that the first pass builds from the reports [data]. *)
Definition tables_of (data : string -> Dict.t string float * Dict.t string float)
    (dbfiles : list string) (t : UsageTables) : UsageTables :=
  fold_left (fun t db => record_periodic_usage db (data db) t) dbfiles t.

Definition no_tables : UsageTables :=
  {| usage_per_type_date := []; sum_usage_per_type_date := [] |}.

(** The records of one resource that bear one date. *)
Definition records_at (res : ResUsageType) (date : string)
    (l : list (ResUsageType * HistogramEntry)) : list HistogramEntry :=
  filter (fun e => String.eqb (he_date e) date) (usage_export res l).

(** Keys are distinct in both levels of the usage table; every payer
    recorded in it has its resource in the table of sums. *)
Definition tables_wf (t : UsageTables) : Prop :=
  NoDup (Dict.keys (usage_per_type_date t))
  /\ (forall res bundle, Dict.get (usage_per_type_date t) res = Some bundle ->
        NoDup (Dict.keys bundle))
  /\ (forall res date db u,
        In (db, u) (bundle_at t res date) ->
        db <> db_billing_hourly_rate ->
        Dict.mem (sum_usage_per_type_date t) res = true).

(** The record that the second pass exports under the Ratio model for an
    entry of the usage table. *)
Definition ratio_entry (t : UsageTables) (res : ResUsageType) (date : string)
    (x : string * float) : HistogramEntry :=
  {| he_stack := fst x;
     he_usage := ratio_cost (snd x) (sum_at t res date);
     he_date := date |}.

(** The records of the second pass under the Ratio model. *)
Definition ratio_records (t : UsageTables) : list (ResUsageType * HistogramEntry) :=
  flat_map (fun rb =>
    flat_map (fun di =>
      flat_map (fun x =>
        if pays x then [(fst rb, ratio_entry t (fst rb) (fst di) x)] else [])
        (snd di))
      (snd rb))
    (usage_per_type_date t).

(** Every payer of the usage table has a strictly positive sum. *)
Definition sums_positive (t : UsageTables) : Prop :=
  forall res date db u,
    In (db, u) (bundle_at t res date) ->
    db <> db_billing_hourly_rate ->
    fgtb (sum_at t res date) f0 = true.

(** One report, one resource: the fold over the items of a dictionary. *)
Definition record_items (db : string) (res' : ResUsageType)
    (items : Dict.t string float) (t : UsageTables) : UsageTables :=
  fold_left (fun t kv => record_usage db res' (fst kv) (snd kv) t) items t.

(** What an entity with usage [o] for a date adds to the entries and to
    the sum of that date. *)
Definition add_entry (db : string) (o : option float) (b : Dict.t string float)
  : Dict.t string float :=
  match o with
  | Some v => if fgtb v f0 then Dict.set b db v else b
  | None => b
  end.

Definition add_usage (db : string) (o : option float) (s : float) : float :=
  match o with
  | Some v =>
      if fgtb v f0 && negb (String.eqb db db_billing_hourly_rate) then fadd s v else s
  | None => s
  end.

(** ** Snapshot extraction *)

(** A computation that leaves a part of the snapshot as it was, however
    it ends. *)
Definition preserves {A B} (proj : K8sUsage -> B) (c : M A) : Prop :=
  forall s, proj (fst (c s)) = proj s.

(** What [extract_namespaces_and_initialize_usage] stores for a
    namespace. *)
Definition zero_usage : ResourceUsage := {| cpuUsage := f0; memUsage := f0 |}.

(** The two totals that the loop over the pods of the consolidation
    fills; with [node_totals] they are the six totals of a snapshot. *)
Definition pod_totals (s : K8sUsage) : float * float :=
  (cpuUsedByPods s, memUsedByPods s).

(** The message left on a node by the loop over its conditions: that of
    the condition that decides the state, or of the last condition when
    none does. *)
Definition deciding_message (conds : list Condition) : string :=
  match find recognized_true conds with
  | Some c => cond_message c
  | None => last (map cond_message conds) EmptyString
  end.

(** A condition of one of the four types that [extract_pods] knows, with
    status ["True"]. *)
Definition recognized_pod_condition (c : Condition) : bool :=
  String.eqb (cond_status c) "True"
  && (String.eqb (cond_type c) "Ready"
      || String.eqb (cond_type c) "ContainersReady"
      || String.eqb (cond_type c) "PodScheduled"
      || String.eqb (cond_type c) "Initialized").

(** The type of the first such condition in the order of the list, or
    the state that [Pod()] starts with. *)
Definition pod_state_of (conds : option (list Condition)) : string :=
  match conds with
  | Some l =>
      match find recognized_pod_condition l with
      | Some c => cond_type c
      | None => "PodNotScheduled"
      end
  | None => "PodNotScheduled"
  end.

(** The key of a pod in [self.pods]. *)
Definition pod_key (name namespace : string) : string := name ++ "." ++ namespace.

(** The usage of one container, as a float. *)
Definition container_cpu (c : ContainerMetrics) : result float :=
  x <- decode_cpu_capacity (cm_usage_cpu c) ;; to_float x.

Definition container_mem (c : ContainerMetrics) : result float :=
  x <- decode_memory_capacity (cm_usage_memory c) ;; to_float x.

(** Two pod objects that differ at most in their usage attributes. *)
Definition same_pod (p p' : Pod) : Prop :=
  pod_name p' = pod_name p /\ pod_namespace p' = pod_namespace p
  /\ pod_id p' = pod_id p /\ pod_nodeName p' = pod_nodeName p
  /\ pod_phase p' = pod_phase p /\ pod_state p' = pod_state p.

(** ** Trend dump *)

(** [round(100*float(x), 6)/100]: the usage that a dump reads from a
    stored value. *)
Definition read_usage (x : float) : float :=
  fdiv_ieee (round6 (fmul (dec 100 0) x)) (dec 100 0).

(** The rows of a query result that hold two values, each with its time
    stamp: the rows are [step] apart and the first one is stamped
    [ts + step], whether it holds values or not. *)
Fixpoint stamped_rows (ts step : Z) (rows : list (list (option float)))
  : list (Z * (float * float)) :=
  match rows with
  | [] => []
  | [Some c; Some m] :: rest => (ts + step, (c, m)) :: stamped_rows (ts + step) step rest
  | _ :: rest => stamped_rows (ts + step) step rest
  end.

Definition complete_rows (r : FetchResult) : list (Z * (float * float)) :=
  stamped_rows (fr_start r) (fr_step r) (fr_rows r).

(** The cpu and the memory usage summed over the complete rows, from
    the left and from [0.0]. *)
Definition cpu_sum (r : FetchResult) : float :=
  fsum (map (fun x => read_usage (fst (snd x))) (complete_rows r)) f0.

Definition mem_sum (r : FetchResult) : float :=
  fsum (map (fun x => read_usage (snd (snd x))) (complete_rows r)) f0.

(** Both sums are strictly positive. *)
Definition usage_positive (r : FetchResult) : bool :=
  fgtb (cpu_sum r) f0 && fgtb (mem_sum r) f0.

(** The two series of a query result: one record for every complete
    row, joined by commas. *)
Definition series (dbname : string) (r : FetchResult) : string * string :=
  (join "," (map (fun x => trend_json dbname (fst x) (read_usage (fst (snd x))))
                 (complete_rows r)),
   join "," (map (fun x => trend_json dbname (fst x) (read_usage (snd (snd x))))
                 (complete_rows r))).

(** ** Decimal numerals *)

(** The ten decimal digits. *)
Definition is_digit (c : ascii) : bool :=
  existsb (Ascii.eqb c) ["0"; "1"; "2"; "3"; "4"; "5"; "6"; "7"; "8"; "9"]%char.

(** The characters that may surround a numeral: the space, the five
    controls [\t \n \v \f \r], U+0085 and U+00A0. *)
Definition is_blank (c : ascii) : bool :=
  existsb (Ascii.eqb c)
    [" "%char; ascii_of_nat 9; ascii_of_nat 10; ascii_of_nat 11; ascii_of_nat 12;
     ascii_of_nat 13; ascii_of_nat 133; ascii_of_nat 160].

Fixpoint all_blank (s : string) : bool :=
  match s with
  | EmptyString => true
  | String c r => is_blank c && all_blank r
  end.

(** Digits, between two of which a single underscore may stand. *)
Inductive digit_run : string -> Prop :=
| run_end (c : ascii) :
    is_digit c = true -> digit_run (String c EmptyString)
| run_digit (c : ascii) (r : string) :
    is_digit c = true -> digit_run r -> digit_run (String c r)
| run_underscore (c : ascii) (r : string) :
    is_digit c = true -> digit_run r -> digit_run (String c (String "_" r)).

(** A decimal numeral: blanks, an optional sign, a run of digits,
    blanks. *)
Definition numeral (s : string) : Prop :=
  exists lead sign body trail,
    s = lead ++ sign ++ body ++ trail
    /\ all_blank lead = true /\ all_blank trail = true
    /\ (sign = EmptyString \/ sign = "+" \/ sign = "-")
    /\ digit_run body.

(** Some character of the string is a digit. *)
Fixpoint has_digit (s : string) : bool :=
  match s with
  | EmptyString => false
  | String c r => is_digit c || has_digit r
  end.

(** The characters that a numeral can hold. *)
Definition numeral_char (c : ascii) : bool :=
  is_blank c || is_digit c || existsb (Ascii.eqb c) ["+"; "-"; "_"]%char.

Fixpoint numeral_chars (s : string) : bool :=
  match s with
  | EmptyString => true
  | String c r => numeral_char c && numeral_chars r
  end.

(** The digits that [decode_memory_capacity] hands to [int]: the input
    without its unit when it ends in one of [Ki Mi Gi Ti Pi Ei], the
    whole input when it does not end in [i], and nothing when it ends in
    [i] behind anything else. *)
Definition memory_payload (s : string) : option string :=
  if endswith_char s "i" then
    if existsb (String.eqb (slice_from s (len s - 2))) ["Ki"; "Mi"; "Gi"; "Ti"; "Pi"; "Ei"]
    then Some (slice s 0 (len s - 2))
    else None
  else Some s.

(** The exception of the first call of a sequence that raises. *)
Fixpoint first_failure {A} (l : list (result A)) : option exn :=
  match l with
  | [] => None
  | Ok _ :: r => first_failure r
  | Raise e :: _ => Some e
  end.

(** The quantities that the extraction steps decode for one item, in the
    order in which they decode them. *)
Definition node_decodes (item : NodeItem) : list (result num) :=
  [ decode_cpu_capacity (ni_capacity_cpu item);
    decode_cpu_capacity (ni_allocatable_cpu item);
    decode_memory_capacity (ni_capacity_memory item);
    decode_memory_capacity (ni_allocatable_memory item) ].

Definition node_metrics_decodes (item : NodeMetricsItem) : list (result num) :=
  [ decode_cpu_capacity (nm_usage_cpu item);
    decode_memory_capacity (nm_usage_memory item) ].

(** ** Consolidated snapshot *)

(** [pod.nodeName == k]. *)
Definition on_node (k : string) (p : Pod) : bool :=
  match pod_nodeName p with
  | Some n => String.eqb n k
  | None => false
  end.

(** The pods of [l] that carry usage and are placed on the node [k], in
    the order of [l]. *)
Definition placed_on (k : string) (l : list Pod) : list Pod :=
  filter (fun p => carries_usage p && on_node k p) l.

(** The floats that the node loops add up: one field of every node, in
    the order of the table; [None] when an integer quantity is too large
    for a float. *)
Definition node_quantities (field : Node -> num) (d : Dict.t string Node)
  : list (result float) :=
  map (fun n => to_float (field n)) (Dict.values d).

(** Every node of the table has two empty pod lists. *)
Definition no_pods_listed (s : K8sUsage) : Prop :=
  forall k n, Dict.get (nodes s) k = Some n ->
    node_podsRunning n = [] /\ node_podsNotRunning n = [].

(** A computation that keeps a condition on the snapshot, however it
    ends. *)
Definition maintains {A} (I : K8sUsage -> Prop) (c : M A) : Prop :=
  forall s, I s -> I (fst (c s)).

(** The keys of the node table are distinct. *)
Definition nodes_distinct (s : K8sUsage) : Prop := NoDup (Dict.keys (nodes s)).

(* ===================================================================== *)
(** * Strings and slices *)
(* ===================================================================== *)

Section StringFacts.

Lemma length_app (a b : string) :
  String.length (a ++ b) = (String.length a + String.length b)%nat.
Proof. induction a as [|c a IH]; simpl; [reflexivity | now rewrite IH]. Qed.

Lemma substring_app_l (a b : string) :
  String.substring 0 (String.length a) (a ++ b) = a.
Proof. induction a as [|c a IH]; simpl; [now destruct b | now rewrite IH]. Qed.

Lemma substring_app_r (a b : string) :
  String.substring (String.length a) (String.length b) (a ++ b) = b.
Proof.
  induction a as [|c a IH]; simpl; [|exact IH].
  induction b as [|d b IHb]; simpl; [reflexivity | now rewrite IHb].
Qed.

Lemma last_char_app (a : string) (c : ascii) (b : string) :
  last_char (a ++ String c b) = last_char (String c b).
Proof.
  induction a as [|d a IH]; [reflexivity|].
  change (String d a ++ String c b) with (String d (a ++ String c b)).
  cbn [last_char]. rewrite IH.
  destruct a; reflexivity.
Qed.

(** The two slices that cut a suffix [u] off [v ++ u]. *)
Lemma clamp_index_inside (n i : Z) : 0 <= i <= n -> clamp_index n i = i.
Proof.
  intros Hi. unfold clamp_index.
  destruct (i <? 0) eqn:E; [apply Z.ltb_lt in E; lia | lia].
Qed.

Lemma slice_suffix (v u : string) :
  u <> EmptyString ->
  slice_from (v ++ u) (len (v ++ u) - len u) = u /\
  slice (v ++ u) 0 (len (v ++ u) - len u) = v.
Proof.
  intros Hu. unfold slice_from, slice, len.
  rewrite length_app.
  replace (Z.of_nat (String.length v + String.length u) - Z.of_nat (String.length u))
    with (Z.of_nat (String.length v)) by lia.
  rewrite !clamp_index_inside by lia.
  replace (Z.to_nat (Z.of_nat (String.length v + String.length u) - Z.of_nat (String.length v)))
    with (String.length u) by lia.
  rewrite Z.sub_0_r, !Nat2Z.id. change (Z.to_nat 0) with 0%nat.
  split; [apply substring_app_r | apply substring_app_l].
Qed.

End StringFacts.

(* ===================================================================== *)
(** * Quantity decoders *)
(* ===================================================================== *)

Section Decoders.

(** A memory quantity that ends in a letter followed by [i]. *)
Lemma decode_memory_unit (v : string) (c : ascii) :
  decode_memory_capacity (v ++ String c "i") =
  match memory_scale c with
  | Some k => n <- int v ;; mul (PFloat (dec 1 k)) (PInt n)
  | None => Ok (PInt 0)
  end.
Proof.
  unfold decode_memory_capacity, endswith_char.
  rewrite last_char_app. cbn [last_char Ascii.eqb Bool.eqb].
  destruct (slice_suffix v (String c "i")) as [H1 H2]; [discriminate|].
  change (len (String c "i")) with 2 in H1, H2.
  rewrite H1, H2. cbn [String.eqb].
  unfold memory_scale. rewrite !Ascii.eqb_refl.
  repeat match goal with
         | |- context [Ascii.eqb c ?k] => destruct (Ascii.eqb c k); [reflexivity|]
         end.
  reflexivity.
Qed.

(** A cpu quantity, by its last character. *)
Lemma decode_cpu_unit (v : string) (c : ascii) :
  decode_cpu_capacity (v ++ String c EmptyString) =
  match cpu_scale c with
  | Some k => n <- int v ;; mul (PFloat (dec 1 k)) (PInt n)
  | None => n <- int (v ++ String c EmptyString) ;; Ok (PInt n)
  end.
Proof.
  unfold decode_cpu_capacity.
  destruct (slice_suffix v (String c EmptyString)) as [H1 H2]; [discriminate|].
  change (len (String c EmptyString)) with 1 in H1, H2.
  rewrite H1, H2. cbn [String.eqb].
  unfold cpu_scale.
  repeat match goal with
         | |- context [Ascii.eqb c ?k] => destruct (Ascii.eqb c k); [reflexivity|]
         end.
  reflexivity.
Qed.

End Decoders.

(** C4, as stated, fails on its fourth equality: [decodeCpu("250n") ==
    2.5e-7] is false, the product [1e-9 * 250] being the float next above
    the literal [2.5e-7]. *)
Lemma decode_cpu_250n_differs_from_literal :
  py_equal (decode_cpu_capacity "250n") (PFloat (dec 25 (-8))) = false.
Proof. vm_compute. reflexivity. Qed.

(** C4 (amended).  [decodeMemory("128Mi") == 128000000] and
    [decodeMemory("1Ki") == 1000] (not 1024): a memory quantity ending in
    Ki, Mi, Gi, Ti, Pi or Ei is the float product of 1e3 .. 1e18 and the
    integer before the unit, and any other two-character ending in [i], as
    well as the bare ["i"], gives 0.  [decodeCpu("500m") == 0.5] and
    [decodeCpu("2") == 2]: a cpu quantity ending in n, u or m is the float
    product of 1e-9, 1e-6 or 1e-3 and the integer before the unit, and any
    other input is read whole as an integer.  [decodeCpu("250n")] is that
    product, 2.5000000000000004e-07, which is one unit in the last place
    above the literal 2.5e-7. *)
Theorem decoders_scale_by_decimal_constants :
  py_equal (decode_memory_capacity "128Mi") (PInt 128000000) = true /\
  py_equal (decode_memory_capacity "1Ki") (PInt 1000) = true /\
  py_equal (decode_memory_capacity "1Ki") (PInt 1024) = false /\
  (forall (v : string) (c : ascii),
      decode_memory_capacity (v ++ String c "i") =
      match memory_scale c with
      | Some k => n <- int v ;; mul (PFloat (dec 1 k)) (PInt n)
      | None => Ok (PInt 0)
      end) /\
  decode_memory_capacity "i" = Ok (PInt 0) /\
  py_equal (decode_cpu_capacity "500m") (PFloat (dec 5 (-1))) = true /\
  py_equal (decode_cpu_capacity "2") (PInt 2) = true /\
  (forall (v : string) (c : ascii),
      decode_cpu_capacity (v ++ String c EmptyString) =
      match cpu_scale c with
      | Some k => n <- int v ;; mul (PFloat (dec 1 k)) (PInt n)
      | None => n <- int (v ++ String c EmptyString) ;; Ok (PInt n)
      end) /\
  decode_cpu_capacity "250n" = Ok (PFloat (fmul (dec 1 (-9)) (dec 250 0))) /\
  fmul (dec 1 (-9)) (dec 250 0) = S754_finite false 4722366482869646 (-74) /\
  dec 25 (-8) = S754_finite false 4722366482869645 (-74).
Proof.
  repeat split;
    try (intros; first [apply decode_memory_unit | apply decode_cpu_unit]);
    vm_compute; reflexivity.
Qed.

(* ===================================================================== *)
(** * Loops and dictionaries *)
(* ===================================================================== *)

Section Loops.

Lemma for_each_cons {X} (x : X) (r : list X) (body : X -> M unit) (s : K8sUsage) :
  for_each (x :: r) body s =
  match body x s with
  | (s', Ok _) => for_each r body s'
  | (s', Raise e) => (s', Raise e)
  end.
Proof. cbn [for_each]. unfold bind. now destruct (body x s) as [s1 [[]|e]]. Qed.

Lemma for_each_app {X} (a b : list X) (body : X -> M unit) (s : K8sUsage) :
  for_each (a ++ b) body s =
  match for_each a body s with
  | (s', Ok _) => for_each b body s'
  | (s', Raise e) => (s', Raise e)
  end.
Proof.
  revert s. induction a as [|x a IH]; intros s; [reflexivity|].
  change ((x :: a) ++ b)%list with (x :: (a ++ b))%list.
  rewrite !for_each_cons.
  destruct (body x s) as [s1 [[]|e]]; [apply IH | reflexivity].
Qed.

End Loops.

Section DictFacts.
Context {K : Type} `{KeyEqLaws K} {V : Type}.

Lemma key_eqb_refl (k : K) : key_eqb k k = true.
Proof. now apply key_eqb_eq. Qed.

Lemma key_eqb_neq (a b : K) : a <> b -> key_eqb a b = false.
Proof.
  intros Hn. destruct (key_eqb a b) eqn:E; [|reflexivity].
  apply key_eqb_eq in E. contradiction.
Qed.

Lemma lookup_set_same (d : Dict.t K V) (k : K) (v : V) :
  Dict.get (Dict.set d k v) k = Some v.
Proof.
  induction d as [|[k' v'] d IH]; cbn [Dict.set Dict.get].
  - now rewrite key_eqb_refl.
  - destruct (key_eqb k k') eqn:E; cbn [Dict.get]; rewrite E; [reflexivity | exact IH].
Qed.

Lemma lookup_set_other (d : Dict.t K V) (k k' : K) (v : V) :
  k <> k' -> Dict.get (Dict.set d k v) k' = Dict.get d k'.
Proof.
  intros Hn. induction d as [|[k0 v0] d IH]; cbn [Dict.set Dict.get].
  - now rewrite key_eqb_neq by congruence.
  - destruct (key_eqb k k0) eqn:E; cbn [Dict.get].
    + apply key_eqb_eq in E. subst k0.
      now rewrite key_eqb_neq by congruence.
    + now rewrite IH.
Qed.

Lemma keys_set_present (d : Dict.t K V) (k : K) (v : V) :
  Dict.mem d k = true -> Dict.keys (Dict.set d k v) = Dict.keys d.
Proof.
  unfold Dict.mem, Dict.keys.
  induction d as [|[k0 v0] d IH]; cbn [Dict.set Dict.get map fst]; [discriminate|].
  destruct (key_eqb k k0) eqn:E; cbn [map fst]; [reflexivity|].
  intros Hm. now rewrite IH.
Qed.

Lemma mem_keys (d d' : Dict.t K V) (k : K) :
  Dict.keys d = Dict.keys d' -> Dict.mem d k = Dict.mem d' k.
Proof.
  unfold Dict.mem, Dict.keys. revert d'.
  induction d as [|[k0 v0] d IH]; intros [|[k1 v1] d']; cbn [map fst Dict.get];
    try discriminate; [reflexivity|].
  intros Hk. injection Hk as -> Hk.
  destruct (key_eqb k k1); [reflexivity | now apply IH].
Qed.

End DictFacts.

#[export] Instance string_KeyEqLaws : KeyEqLaws string := String.eqb_eq.

#[export] Instance ResUsageType_KeyEqLaws : KeyEqLaws ResUsageType.
Proof. intros [] []; cbn; split; congruence. Qed.

(* ===================================================================== *)
(** * Snapshot builder: malformed quantities and node health *)
(* ===================================================================== *)

Section Extraction.

Lemma string_snoc (s : string) :
  s <> EmptyString -> exists v c, s = v ++ String c EmptyString.
Proof.
  induction s as [|a s IH]; [congruence|]. intros _.
  destruct s as [|b s].
  - now exists EmptyString, a.
  - destruct IH as (v & c & E); [discriminate|].
    exists (String a v), c. cbn [append]. now rewrite <- E.
Qed.

Lemma decode_cpu_non_numeric (s : string) :
  int (cpu_payload s) = Raise ValueError ->
  decode_cpu_capacity s = Raise ValueError.
Proof.
  destruct s as [|a s0] eqn:Es; [intros _; reflexivity|]. rewrite <- Es.
  destruct (string_snoc s) as (v & c & E); [subst; discriminate|].
  rewrite E. unfold cpu_payload. rewrite last_char_app. cbn [last_char].
  rewrite decode_cpu_unit.
  destruct (slice_suffix v (String c EmptyString)) as [_ H2]; [discriminate|].
  change (len (String c EmptyString)) with 1 in H2. rewrite H2.
  destruct (cpu_scale c); intros ->; reflexivity.
Qed.

Lemma scan_node_conditions_state (conds : list Condition) (message : string) :
  fst (scan_node_conditions conds EmptyString message) = health_of conds.
Proof.
  revert message. unfold health_of.
  induction conds as [|c conds IH]; intros message; [reflexivity|].
  cbn [scan_node_conditions find]. unfold recognized_true, cond_is.
  destruct (String.eqb (cond_status c) "True"); cbn [andb].
  - rewrite !andb_true_r.
    repeat match goal with
           | |- context [String.eqb (cond_type c) ?k] =>
               let E := fresh "E" in
               destruct (String.eqb (cond_type c) k) eqn:E;
               [apply String.eqb_eq in E; cbn [orb fst]; now rewrite E |]
           end.
    cbn [orb]. apply IH.
  - rewrite !andb_false_r. apply IH.
Qed.

End Extraction.

(** C6, as stated, fails: with the conditions [MemoryPressure: True] then
    [Ready: True], the recorded state is [MemoryPressure], not [Ready]. *)
Lemma memory_pressure_listed_first_wins :
  let item := {| ni_name := "n1"; ni_uid := "u1";
                 ni_capacity_cpu := "4"; ni_capacity_memory := "8Gi";
                 ni_allocatable_cpu := "2"; ni_allocatable_memory := "7Gi";
                 ni_containerRuntimeVersion := "containerd";
                 ni_conditions :=
                   [ {| cond_type := "MemoryPressure"; cond_status := "True";
                        cond_message := "low memory" |};
                     {| cond_type := "Ready"; cond_status := "True";
                        cond_message := "kubelet is ready" |} ] |} in
  option_map node_state
    (Dict.get (nodes (fst (extract_nodes (Some [item]) K8sUsage_init))) "n1")
  = Some "MemoryPressure".
Proof. vm_compute. reflexivity. Qed.

(** C6 (amended).  The health state recorded for a node is the type of the
    first condition, in the order of the node's condition list, whose
    status is [True] and whose type is one of Ready, KernelDeadlock,
    NetworkUnavailable, OutOfDisk, MemoryPressure, DiskPressure; the six
    types have no priority among themselves.  So
    [KernelDeadlock: True, Ready: True] resolves to KernelDeadlock,
    [NetworkUnavailable: False, Ready: True] to Ready,
    [MemoryPressure: True, Ready: True] to MemoryPressure, and a node with
    no such condition keeps the empty state of a fresh node. *)
Theorem node_state_is_first_true_condition_in_list_order
    (item : NodeItem) (s s' : K8sUsage) :
  extract_node item s = (s', Ok tt) ->
  (exists n, Dict.get (nodes s') (ni_name item) = Some n
             /\ node_state n = health_of (ni_conditions item))
  /\ (forall conds, find recognized_true conds = None -> health_of conds = EmptyString)
  /\ (forall m1 m2,
        health_of [ {| cond_type := "KernelDeadlock"; cond_status := "True"; cond_message := m1 |};
                    {| cond_type := "Ready"; cond_status := "True"; cond_message := m2 |} ]
        = "KernelDeadlock")
  /\ (forall m1 m2,
        health_of [ {| cond_type := "NetworkUnavailable"; cond_status := "False"; cond_message := m1 |};
                    {| cond_type := "Ready"; cond_status := "True"; cond_message := m2 |} ]
        = "Ready")
  /\ (forall m1 m2,
        health_of [ {| cond_type := "MemoryPressure"; cond_status := "True"; cond_message := m1 |};
                    {| cond_type := "Ready"; cond_status := "True"; cond_message := m2 |} ]
        = "MemoryPressure").
Proof.
  intros Hrun. split; [|repeat split; try reflexivity].
  - unfold extract_node, bind, lift in Hrun.
    destruct (decode_cpu_capacity (ni_capacity_cpu item)); [|discriminate].
    destruct (decode_cpu_capacity (ni_allocatable_cpu item)); [|discriminate].
    destruct (decode_memory_capacity (ni_capacity_memory item)); [|discriminate].
    destruct (decode_memory_capacity (ni_allocatable_memory item)); [|discriminate].
    pose proof (scan_node_conditions_state (ni_conditions item) EmptyString) as Hst.
    destruct (scan_node_conditions (ni_conditions item) EmptyString EmptyString)
      as [state message].
    cbn [fst] in Hst. unfold modify in Hrun. injection Hrun as <-.
    eexists. split; [cbn [nodes set_nodes node_name]; apply lookup_set_same|].
    exact Hst.
  - intros conds Hnone. unfold health_of. now rewrite Hnone.
Qed.

Lemma node_state_is_first_true_condition_in_list_order_witness :
  let item := {| ni_name := "n1"; ni_uid := "u1";
                 ni_capacity_cpu := "4"; ni_capacity_memory := "8Gi";
                 ni_allocatable_cpu := "3500m"; ni_allocatable_memory := "7Gi";
                 ni_containerRuntimeVersion := "containerd";
                 ni_conditions :=
                   [ {| cond_type := "DiskPressure"; cond_status := "False";
                        cond_message := "enough disk" |};
                     {| cond_type := "OutOfDisk"; cond_status := "True";
                        cond_message := "disk is full" |};
                     {| cond_type := "Ready"; cond_status := "True";
                        cond_message := "kubelet is ready" |} ] |} in
  exists n, Dict.get (nodes (fst (extract_node item K8sUsage_init))) "n1" = Some n
            /\ node_state n = "OutOfDisk".
Proof.
  intros item.
  apply (node_state_is_first_true_condition_in_list_order
           item K8sUsage_init (fst (extract_node item K8sUsage_init))).
  vm_compute. reflexivity.
Defined.

(* ===================================================================== *)
(** * Consolidation *)
(* ===================================================================== *)

Section Consolidation.

Lemma offending_keys (s s' : K8sUsage) (p : Pod) :
  Dict.keys (nsResUsage s') = Dict.keys (nsResUsage s) ->
  Dict.keys (nodes s') = Dict.keys (nodes s) ->
  offending s' p = offending s p.
Proof.
  intros Hns Hnodes. unfold offending, namespace_known, node_known.
  rewrite (mem_keys _ _ _ Hns).
  destruct (pod_nodeName p); [now rewrite (mem_keys _ _ _ Hnodes) | reflexivity].
Qed.

Lemma mem_get {V} (d : Dict.t string V) (k : string) :
  Dict.mem d k = true -> exists v, Dict.get d k = Some v.
Proof. unfold Dict.mem. destruct (Dict.get d k); [eauto | discriminate]. Qed.

Lemma mem_set {V} (d : Dict.t string V) (k : string) (v : V) :
  Dict.mem (Dict.set d k v) k = true.
Proof. unfold Dict.mem. now rewrite lookup_set_same. Qed.

(** What one turn of the loop does to a pod that does not offend. *)
Lemma consolidate_pod_ok (p : Pod) (s : K8sUsage) :
  offending s p = false ->
  exists s',
    consolidate_pod p s = (s', Ok tt) /\
    Dict.keys (nsResUsage s') = Dict.keys (nsResUsage s) /\
    Dict.keys (nodes s') = Dict.keys (nodes s) /\
    node_totals s' = node_totals s /\
    cpuUsedByPods s' = fsum (cpu_usages [p]) (cpuUsedByPods s) /\
    memUsedByPods s' = fsum (mem_usages [p]) (memUsedByPods s).
Proof.
  unfold offending, carries_usage, namespace_known, node_known, consolidate_pod,
    cpu_usages, mem_usages, fsum.
  cbn [flat_map app].
  destruct (pod_cpuUsage p) as [c|]; [|intros _; exists s; repeat split; reflexivity].
  destruct (pod_memUsage p) as [m|]; [|intros _; exists s; repeat split; reflexivity].
  cbn [andb fold_left]. intros Hk. apply negb_false_iff, andb_true_iff in Hk.
  destruct Hk as [Hns Hnode].
  destruct (pod_nodeName p) as [k|]; [|discriminate].
  destruct (mem_get _ _ Hns) as [u Hu]. destruct (mem_get _ _ Hnode) as [n Hn].
  unfold bind, modify, add_ns_cpuUsage, add_ns_memUsage, append_podsRunning, bind,
    modify, Dict.getitem.
  cbn [nsResUsage set_cpuUsedByPods]. rewrite Hu.
  cbn [nsResUsage set_nsResUsage]. rewrite lookup_set_same.
  cbn [nodes set_nsResUsage set_memUsedByPods set_cpuUsedByPods]. rewrite Hn.
  eexists. split; [reflexivity|].
  cbn [nsResUsage nodes set_nodes set_nsResUsage set_memUsedByPods set_cpuUsedByPods
       node_totals cpuCapacity memCapacity cpuAllocatable memAllocatable
       cpuUsedByPods memUsedByPods].
  repeat split.
  - rewrite !keys_set_present; [reflexivity | exact Hns | apply mem_set].
  - now rewrite keys_set_present.
Qed.

(** ... and to the usage of each namespace. *)
Lemma consolidate_pod_namespace (p : Pod) (s s' : K8sUsage) (ns : string) (u : ResourceUsage) :
  consolidate_pod p s = (s', Ok tt) ->
  Dict.get (nsResUsage s) ns = Some u ->
  exists u',
    Dict.get (nsResUsage s') ns = Some u' /\
    cpuUsage u' = fsum (cpu_usages (owned_by ns [p])) (cpuUsage u) /\
    memUsage u' = fsum (mem_usages (owned_by ns [p])) (memUsage u).
Proof.
  unfold consolidate_pod, cpu_usages, mem_usages, fsum, owned_by. cbn [filter].
  destruct (pod_cpuUsage p) as [c|] eqn:Ec;
    [|intros [= <-] Hu; exists u; destruct (String.eqb _ _); cbn; rewrite ?Ec; auto].
  destruct (pod_memUsage p) as [m|] eqn:Em;
    [|intros [= <-] Hu; exists u; destruct (String.eqb _ _); cbn; rewrite ?Ec, ?Em; auto].
  unfold bind, modify, add_ns_cpuUsage, add_ns_memUsage, append_podsRunning, bind,
    modify, Dict.getitem, lift.
  cbn [nsResUsage set_cpuUsedByPods].
  destruct (Dict.get (nsResUsage s) (pod_namespace p)) as [v|] eqn:Ev; [|discriminate].
  cbn [nsResUsage set_nsResUsage]. rewrite lookup_set_same.
  destruct (pod_nodeName p) as [k|]; [|discriminate].
  cbn [nodes set_nsResUsage set_memUsedByPods set_cpuUsedByPods].
  destruct (Dict.get (nodes s) k) as [n|]; [|discriminate].
  intros [= <-] Hu.
  cbn [nsResUsage set_nodes set_nsResUsage set_memUsedByPods set_cpuUsedByPods].
  destruct (String.eqb_spec (pod_namespace p) ns) as [E|E].
  - rewrite E in *. rewrite lookup_set_same. eexists. split; [reflexivity|].
    assert (v = u) as -> by congruence.
    cbn [flat_map app fold_left cpuUsage memUsage]. rewrite Ec, Em. cbn. auto.
  - rewrite !lookup_set_other by exact E. exists u. cbn. auto.
Qed.

(** A pod that offends: the loop raises [KeyError] on it, and the node
    totals are as they were. *)
Lemma consolidate_pod_raises (p : Pod) (s : K8sUsage) :
  offending s p = true ->
  exists s',
    consolidate_pod p s = (s', Raise KeyError) /\
    node_totals s' = node_totals s /\
    cpuUsedByPods s' = fsum (cpu_usages [p]) (cpuUsedByPods s).
Proof.
  unfold offending, carries_usage, namespace_known, node_known, consolidate_pod,
    cpu_usages, fsum, Dict.mem.
  cbn [flat_map app].
  destruct (pod_cpuUsage p) as [c|]; [|discriminate].
  destruct (pod_memUsage p) as [m|]; [|discriminate].
  cbn [andb fold_left]. intros Hk. apply negb_true_iff in Hk.
  unfold bind, modify, add_ns_cpuUsage, add_ns_memUsage, append_podsRunning, bind,
    modify, Dict.getitem, lift.
  cbn [nsResUsage set_cpuUsedByPods].
  destruct (Dict.get (nsResUsage s) (pod_namespace p)) as [u|];
    [|eexists; split; [reflexivity | split; reflexivity]].
  cbn [nsResUsage set_nsResUsage]. rewrite lookup_set_same.
  destruct (pod_nodeName p) as [k|];
    [|eexists; split; [reflexivity | split; reflexivity]].
  cbn [nodes set_nsResUsage set_memUsedByPods set_cpuUsedByPods].
  destruct (Dict.get (nodes s) k) as [n|]; [discriminate|].
  eexists; split; [reflexivity | split; reflexivity].
Qed.

Lemma cpu_usages_app (a b : list Pod) : cpu_usages (a ++ b) = (cpu_usages a ++ cpu_usages b)%list.
Proof. apply flat_map_app. Qed.

Lemma mem_usages_app (a b : list Pod) : mem_usages (a ++ b) = (mem_usages a ++ mem_usages b)%list.
Proof. apply flat_map_app. Qed.

Lemma fsum_app (a b : list float) (x : float) : fsum (a ++ b) x = fsum b (fsum a x).
Proof. apply fold_left_app. Qed.

(** The loop over pods of which none offends. *)
Lemma consolidate_pods_ok (l : list Pod) (s : K8sUsage) :
  (forall p, In p l -> offending s p = false) ->
  exists s',
    for_each l consolidate_pod s = (s', Ok tt) /\
    Dict.keys (nsResUsage s') = Dict.keys (nsResUsage s) /\
    Dict.keys (nodes s') = Dict.keys (nodes s) /\
    node_totals s' = node_totals s /\
    cpuUsedByPods s' = fsum (cpu_usages l) (cpuUsedByPods s) /\
    memUsedByPods s' = fsum (mem_usages l) (memUsedByPods s).
Proof.
  revert s. induction l as [|p l IH]; intros s Hl.
  - exists s. repeat split; reflexivity.
  - destruct (consolidate_pod_ok p s) as (s1 & Hrun & Hns & Hnodes & Htot & Hc & Hm);
      [apply Hl; now left|].
    destruct (IH s1) as (s2 & Hrun2 & Hns2 & Hnodes2 & Htot2 & Hc2 & Hm2).
    { intros q Hq. rewrite (offending_keys _ _ _ Hns Hnodes). apply Hl. now right. }
    exists s2. rewrite for_each_cons, Hrun.
    split; [exact Hrun2|]. repeat split; try congruence.
    + change (p :: l) with ([p] ++ l)%list. rewrite cpu_usages_app, fsum_app. congruence.
    + change (p :: l) with ([p] ++ l)%list. rewrite mem_usages_app, fsum_app. congruence.
Qed.

(** The loop over pods of which one offends stops at the first such
    pod. *)
Lemma consolidate_pods_raise (l : list Pod) (s : K8sUsage) :
  (exists p, In p l /\ offending s p = true) ->
  exists pre p0 post s1 s',
    l = (pre ++ p0 :: post)%list /\
    (forall q, In q pre -> offending s q = false) /\
    offending s p0 = true /\
    for_each pre consolidate_pod s = (s1, Ok tt) /\
    consolidate_pod p0 s1 = (s', Raise KeyError) /\
    for_each l consolidate_pod s = (s', Raise KeyError) /\
    node_totals s' = node_totals s /\
    cpuUsedByPods s' = fsum (cpu_usages (pre ++ [p0])) (cpuUsedByPods s).
Proof.
  revert s. induction l as [|p l IH]; intros s (q & Hin & Hq); [destruct Hin|].
  destruct (offending s p) eqn:Ep.
  - destruct (consolidate_pod_raises p s Ep) as (s' & Hrun & Htot & Hc).
    exists [], p, l, s, s'. cbn [app]. rewrite for_each_cons, Hrun.
    repeat split; auto. intros ? [].
  - destruct Hin as [-> | Hin]; [congruence|].
    destruct (consolidate_pod_ok p s Ep) as (s1 & Hrun & Hns & Hnodes & Htot & Hc & _).
    destruct (IH s1) as (pre & p0 & post & s2 & s' & El & Hpre & Hp0 & Hrun1 & Hrun2 & Hrun3 & Htot2 & Hc2).
    { exists q. split; [exact Hin|]. now rewrite (offending_keys _ _ _ Hns Hnodes). }
    exists (p :: pre), p0, post, s2, s'.
    rewrite !for_each_cons, Hrun.
    split; [cbn [app]; congruence|].
    split; [intros r [<- | Hr]; [exact Ep|];
            rewrite <- (offending_keys _ _ _ Hns Hnodes); now apply Hpre|].
    split; [now rewrite <- (offending_keys _ _ _ Hns Hnodes)|].
    split; [exact Hrun1|]. split; [exact Hrun2|]. split; [exact Hrun3|].
    split; [congruence|].
    replace ((p :: pre) ++ [p0])%list with ([p] ++ (pre ++ [p0]))%list by reflexivity.
    rewrite cpu_usages_app, fsum_app. congruence.
Qed.

End Consolidation.

Section ConsolidationResult.

Lemma keeps_bind {A B} (c : M A) (k : A -> M B) :
  keeps_namespaces c -> (forall a, keeps_namespaces (k a)) -> keeps_namespaces (bind c k).
Proof.
  intros Hc Hk s. unfold bind. specialize (Hc s).
  destruct (c s) as [s1 [a|e]]; cbn [fst] in *; [now rewrite Hk | exact Hc].
Qed.

Lemma keeps_modify (f : K8sUsage -> K8sUsage) :
  (forall s, nsResUsage (f s) = nsResUsage s) -> keeps_namespaces (modify f).
Proof. intros Hf s. apply Hf. Qed.

Lemma keeps_gets {A} (f : K8sUsage -> A) : keeps_namespaces (gets f).
Proof. intros s. reflexivity. Qed.

Lemma keeps_lift {A} (r : result A) : keeps_namespaces (lift r).
Proof. intros s. reflexivity. Qed.

Lemma keeps_for_each {X} (l : list X) (body : X -> M unit) :
  (forall x, keeps_namespaces (body x)) -> keeps_namespaces (for_each l body).
Proof.
  intros Hb. induction l as [|x l IH]; [intros s; reflexivity|].
  cbn [for_each]. apply keeps_bind; [apply Hb | intros _; exact IH].
Qed.

Lemma keeps_accumulate (get : K8sUsage -> float)
    (put : float -> K8sUsage -> K8sUsage) (x : num) :
  (forall y t, nsResUsage (put y t) = nsResUsage t) ->
  keeps_namespaces (accumulate get put x).
Proof.
  intros Hput. unfold accumulate.
  apply keeps_bind; [apply keeps_lift | intros y; apply keeps_modify; intros; apply Hput].
Qed.

Lemma node_loops_keep_namespaces : keeps_namespaces node_loops.
Proof.
  unfold node_loops.
  repeat first
    [ apply keeps_bind; [|intros ?]
    | apply keeps_modify; intros; reflexivity
    | apply keeps_gets
    | apply keeps_for_each; intros ?
    | apply keeps_accumulate; intros; reflexivity ].
Qed.

Lemma consolidate_ns_usage_unfold (s : K8sUsage) :
  consolidate_ns_usage s =
  match for_each (Dict.values (pods s)) consolidate_pod (usage_reset s) with
  | (s1, Raise e) => (s1, Raise e)
  | (s1, Ok _) => node_loops s1
  end.
Proof.
  unfold consolidate_ns_usage at 1. unfold bind at 1 2 3 4. unfold modify at 1 2, gets at 1.
  cbn [pods set_memUsedByPods set_cpuUsedByPods]. unfold usage_reset.
  destruct (for_each _ _ _) as [s1 [[]|e]]; reflexivity.
Qed.

Lemma owned_by_app (ns : string) (a b : list Pod) :
  owned_by ns (a ++ b) = (owned_by ns a ++ owned_by ns b)%list.
Proof. apply filter_app. Qed.

Lemma consolidate_pods_namespace (l : list Pod) (s s' : K8sUsage)
    (ns : string) (u : ResourceUsage) :
  for_each l consolidate_pod s = (s', Ok tt) ->
  Dict.get (nsResUsage s) ns = Some u ->
  exists u',
    Dict.get (nsResUsage s') ns = Some u' /\
    cpuUsage u' = fsum (cpu_usages (owned_by ns l)) (cpuUsage u) /\
    memUsage u' = fsum (mem_usages (owned_by ns l)) (memUsage u).
Proof.
  revert s u. induction l as [|p l IH]; intros s u Hrun Hu.
  - injection Hrun as <-. exists u. auto.
  - rewrite for_each_cons in Hrun.
    destruct (consolidate_pod p s) as [s1 [[]|e]] eqn:Hp; [|discriminate].
    destruct (consolidate_pod_namespace p s s1 ns u Hp Hu) as (u1 & Hu1 & Hc1 & Hm1).
    destruct (IH s1 u1 Hrun Hu1) as (u2 & Hu2 & Hc2 & Hm2).
    exists u2. split; [exact Hu2|].
    change (p :: l) with ([p] ++ l)%list.
    rewrite owned_by_app, cpu_usages_app, mem_usages_app, !fsum_app. split; congruence.
Qed.

(** When the consolidation returns, the usage accumulated for each
    namespace is the sum, in the order of [self.pods], of the usage of the
    pods of that namespace that carry usage, added to what the entry held
    before (zero, as seeded). *)
Lemma consolidate_ns_usage_sums (s s' : K8sUsage) (ns : string) (u : ResourceUsage) :
  consolidate_ns_usage s = (s', Ok tt) ->
  Dict.get (nsResUsage s) ns = Some u ->
  exists u',
    Dict.get (nsResUsage s') ns = Some u' /\
    cpuUsage u' = fsum (cpu_usages (owned_by ns (Dict.values (pods s)))) (cpuUsage u) /\
    memUsage u' = fsum (mem_usages (owned_by ns (Dict.values (pods s)))) (memUsage u).
Proof.
  rewrite consolidate_ns_usage_unfold. intros Hrun Hu.
  destruct (for_each (Dict.values (pods s)) consolidate_pod (usage_reset s))
    as [s1 [[]|e]] eqn:Hpods; [|discriminate].
  destruct (consolidate_pods_namespace _ _ _ ns u Hpods Hu) as (u' & Hu' & Hc & Hm).
  exists u'. split; [|auto].
  pose proof (node_loops_keep_namespaces s1) as E. rewrite Hrun in E. cbn [fst] in E.
  now rewrite E.
Qed.

End ConsolidationResult.

(** C10.  When some pod of [self.pods] carries usage and its namespace is
    not a key of [self.nsResUsage], or its [nodeName] is [None] or not a
    key of [self.nodes], [consolidate_ns_usage] raises [KeyError].  It
    does so on the first such pod [p0] in the order of [self.pods]: the
    pods after it are never visited, the cluster cpu total counts the pods
    up to [p0] only, and the four capacity and allocatable totals are what
    they were before the call. *)
Theorem consolidation_raises_on_unknown_namespace_or_node (s : K8sUsage) (p : Pod) :
  In p (Dict.values (pods s)) ->
  carries_usage p = true ->
  namespace_known s p = false \/ node_known s p = false ->
  exists pre p0 post s1 s',
    Dict.values (pods s) = (pre ++ p0 :: post)%list /\
    (forall q, In q pre -> offending s q = false) /\
    offending s p0 = true /\
    for_each pre consolidate_pod (usage_reset s) = (s1, Ok tt) /\
    consolidate_pod p0 s1 = (s', Raise KeyError) /\
    consolidate_ns_usage s = (s', Raise KeyError) /\
    node_totals s' = node_totals s /\
    cpuUsedByPods s' = fsum (cpu_usages (pre ++ [p0])) f0.
Proof.
  intros Hin Hc Hk.
  destruct (consolidate_pods_raise (Dict.values (pods s)) (usage_reset s))
    as (pre & p0 & post & s1 & s' & El & Hpre & Hp0 & Hrun1 & Hrun2 & Hrun3 & Htot & Hsum).
  { exists p. split; [exact Hin|]. unfold offending.
    change (namespace_known (usage_reset s) p) with (namespace_known s p).
    change (node_known (usage_reset s) p) with (node_known s p).
    rewrite Hc. destruct Hk as [-> | ->]; [reflexivity | now rewrite andb_false_r]. }
  exists pre, p0, post, s1, s'.
  rewrite consolidate_ns_usage_unfold, Hrun3.
  repeat split; assumption.
Qed.

(* ===================================================================== *)
(** * Sampler and start-up *)
(* ===================================================================== *)

Section Sampler.

Lemma fdiv_positive_total (x total : float) :
  fgtb total f0 = true -> fdiv x total = Ok (fdiv_ieee x total).
Proof. destruct total as [[]| | |]; try discriminate; reflexivity. Qed.

Lemma compute_usage_percent_ratio_positive (value total : float) :
  fgtb total f0 = true ->
  compute_usage_percent_ratio value total = Ok (percent_ratio value total).
Proof.
  intros Ht. unfold compute_usage_percent_ratio, percent_ratio.
  now rewrite fdiv_positive_total.
Qed.

Lemma namespace_samples_positive (now_epoch : Z) (k : K8sUsage)
    (l : list (string * ResourceUsage)) :
  fgtb (cpuCapacity k) f0 = true ->
  fgtb (memCapacity k) f0 = true ->
  namespace_samples now_epoch k l =
  Ok (map (fun x => add_sample (fst x) now_epoch
                      (percent_ratio (cpuUsage (snd x)) (cpuCapacity k))
                      (percent_ratio (memUsage (snd x)) (memCapacity k))) l).
Proof.
  intros Hc Hm. induction l as [|[ns u] l IH]; [reflexivity|].
  cbn [namespace_samples map fst snd].
  rewrite !compute_usage_percent_ratio_positive, IH by assumption. reflexivity.
Qed.

End Sampler.

(** C8, as stated, fails where it says that the configured hourly rate
    is what is appended for the billing-rate entity.  With
    [KOA_BILLING_HOURLY_RATE=0.1234565] (a rate that passes the start-up
    validation under Charge-Back) both channels of the appended sample
    are [0.123456]: [add_sample] rounds what it stores to six decimals. *)
Lemma billing_rate_is_rounded_before_it_is_stored :
  let KOA_CONFIG := Config_init (Some "CHARGE_BACK") (Some "0.1234565") None in
  startup KOA_CONFIG = Started ["create_metrics_puller"; "dump_analytics"]
  /\ billing_hourly_rate KOA_CONFIG = dec 1234565 (-7)
  /\ match create_metrics_puller_cycle KOA_CONFIG example_listings 1700000000 with
     | Ok (_, [_; billing; _; _]) =>
         billing = {| sample_db := ".billing-hourly-rate"; sample_ts := 1700000000;
                      sample_cpu := dec 123456 (-6); sample_mem := dec 123456 (-6) |}
         /\ feqb (sample_cpu billing) (billing_hourly_rate KOA_CONFIG) = false
         /\ feqb (sample_mem billing) (billing_hourly_rate KOA_CONFIG) = false
     | _ => False
     end.
Proof. vm_compute. repeat split; reflexivity. Qed.

(** C8 (amended).  In a sampling cycle whose collection step returns the
    snapshot [k] at the clock reading [now_epoch]: when both the cpu and
    the memory capacity total of [k] are strictly positive, the cycle
    hands to the store, in this order and all stamped [now_epoch]: under
    ["non-allocatable"], [100*(capacity-allocatable)/capacity] for cpu
    and for memory; under [".billing-hourly-rate"], the configured hourly
    rate rounded to six decimals, as the cpu and as the memory channel;
    and, for every namespace in the order of the namespace table, under
    the name of the namespace, [100*usage/clusterCapacity] for cpu and
    for memory.  Every ratio is rounded to six decimals when it is
    computed and once more when it is stored.  When a capacity total is
    not strictly positive nothing is handed to the store. *)
Theorem sampler_appends_rounded_samples
    (KOA_CONFIG : Config) (api : Listings) (now_epoch : Z) (k : K8sUsage) :
  collect api K8sUsage_init = (k, Ok tt) ->
  create_metrics_puller_cycle KOA_CONFIG api now_epoch =
  Ok (nodes k,
      if fgtb (cpuCapacity k) f0 && fgtb (memCapacity k) f0 then
        {| sample_db := "non-allocatable";
           sample_ts := now_epoch;
           sample_cpu := stored_ratio (fsub (cpuCapacity k) (cpuAllocatable k)) (cpuCapacity k);
           sample_mem := stored_ratio (fsub (memCapacity k) (memAllocatable k)) (memCapacity k) |}
        :: {| sample_db := ".billing-hourly-rate";
              sample_ts := now_epoch;
              sample_cpu := round6 (billing_hourly_rate KOA_CONFIG);
              sample_mem := round6 (billing_hourly_rate KOA_CONFIG) |}
        :: map (fun x => {| sample_db := fst x;
                            sample_ts := now_epoch;
                            sample_cpu := stored_ratio (cpuUsage (snd x)) (cpuCapacity k);
                            sample_mem := stored_ratio (memUsage (snd x)) (memCapacity k) |})
               (Dict.items (nsResUsage k))
      else []).
Proof.
  intros Hk. unfold create_metrics_puller_cycle, append_samples. rewrite Hk.
  destruct (fgtb (cpuCapacity k) f0) eqn:Hc; [|reflexivity].
  destruct (fgtb (memCapacity k) f0) eqn:Hm; [|reflexivity].
  cbn [andb].
  rewrite !compute_usage_percent_ratio_positive, namespace_samples_positive by assumption.
  reflexivity.
Qed.

Lemma sampler_appends_rounded_samples_witness :
  create_metrics_puller_cycle example_config example_listings 1700000000
  = Ok (nodes (fst (collect example_listings K8sUsage_init)),
        [ {| sample_db := "non-allocatable"; sample_ts := 1700000000;
             sample_cpu := dec 125 (-1); sample_mem := dec 125 (-1) |};
          {| sample_db := ".billing-hourly-rate"; sample_ts := 1700000000;
             sample_cpu := dec 12 0; sample_mem := dec 12 0 |};
          {| sample_db := "team-a"; sample_ts := 1700000000;
             sample_cpu := dec 625 (-2); sample_mem := dec 64 (-1) |};
          {| sample_db := "team-b"; sample_ts := 1700000000;
             sample_cpu := dec 125 (-1); sample_mem := dec 125 (-1) |} ]).
Proof.
  rewrite (sampler_appends_rounded_samples example_config example_listings 1700000000
             (fst (collect example_listings K8sUsage_init)));
    vm_compute; reflexivity.
Defined.

Lemma consolidation_raises_on_unknown_namespace_or_node_witness :
  exists s',
    consolidate_ns_usage (extracted listings_with_unlisted_node) = (s', Raise KeyError)
    /\ node_totals s' = (f0, f0, f0, f0).
Proof.
  destruct (consolidation_raises_on_unknown_namespace_or_node
              (extracted listings_with_unlisted_node)
              {| pod_name := "web.team-a"; pod_namespace := "team-a"; pod_id := "p1";
                 pod_nodeName := Some "node-2"; pod_phase := "Running";
                 pod_state := "Ready";
                 pod_cpuUsage := Some (dec 25 (-2));
                 pod_memUsage := Some (dec 512 6) |})
    as (pre & p0 & post & s1 & s' & _ & _ & _ & _ & _ & Hrun & Htot & _).
  - vm_compute. left. reflexivity.
  - reflexivity.
  - right. vm_compute. reflexivity.
  - exists s'. split; [exact Hrun | exact Htot].
Defined.

(** C1 fails on the code where the claim says that a pod whose node is
    unknown is skipped.  Two namespaces, one listed node, and two pods
    that report metrics: [web] of team-a on a node that is not listed,
    then [db] of team-b on the listed node.  The consolidation raises
    [KeyError] at [web]; [db] is never reached, so team-b keeps a cpu usage
    of zero although its pod uses half a core, the node totals stay at
    zero, and the sampling cycle ends with that exception. *)
Theorem unknown_node_aborts_consolidation :
  let s' := fst (collect listings_with_unlisted_node K8sUsage_init) in
  snd (collect listings_with_unlisted_node K8sUsage_init) = Raise KeyError
  /\ cpu_usages (owned_by "team-b" (Dict.values (pods s'))) = [dec 5 (-1)]
  /\ option_map cpuUsage (Dict.get (nsResUsage s') "team-b") = Some f0
  /\ node_totals s' = (f0, f0, f0, f0)
  /\ create_metrics_puller_cycle example_config listings_with_unlisted_node 1700000000
     = Raise KeyError.
Proof. vm_compute. repeat split; reflexivity. Qed.

(** Outside the NaN case the validation does what C9 says: it exits
    exactly when the model is Charge-Back and the rate compares [<= 0.0];
    an absent or unreadable rate is read as [-1.0]. *)
Lemma startup_exit_iff (KOA_CONFIG : Config) :
  startup KOA_CONFIG = Exit 1 <->
  cost_model KOA_CONFIG = "CHARGE_BACK" /\ fleb (billing_hourly_rate KOA_CONFIG) f0 = true.
Proof.
  unfold startup.
  destruct (String.eqb_spec (cost_model KOA_CONFIG) "CHARGE_BACK") as [E|E];
    destruct (fleb (billing_hourly_rate KOA_CONFIG) f0); cbn [andb];
    split; try discriminate; try tauto; intros [? ?]; congruence.
Qed.

Lemma startup_absent_rate (model debug : option string) :
  startup (Config_init model None debug) =
  if String.eqb (cost_model (Config_init model None debug)) "CHARGE_BACK"
  then Exit 1 else Started ["create_metrics_puller"; "dump_analytics"].
Proof. unfold startup. cbn. now destruct (String.eqb _ _). Qed.

Lemma startup_positive_rate (KOA_CONFIG : Config) :
  fgtb (billing_hourly_rate KOA_CONFIG) f0 = true ->
  startup KOA_CONFIG = Started ["create_metrics_puller"; "dump_analytics"].
Proof.
  intros Hpos. unfold startup.
  replace (fleb (billing_hourly_rate KOA_CONFIG) f0) with false;
    [now rewrite andb_false_r|].
  destruct (billing_hourly_rate KOA_CONFIG) as [[]|[]| |[] m e]; try discriminate; reflexivity.
Qed.

(** C9 fails on the code for a rate that is not a number.  With
    [KOA_COST_MODEL=CHARGE_BACK] and [KOA_BILLING_HOURLY_RATE=nan] the
    rate parses to NaN, which is not strictly positive, yet [nan <= 0.0]
    is false: the validation does not exit and both loops are started. *)
Theorem nan_rate_passes_validation :
  let KOA_CONFIG := Config_init (Some "CHARGE_BACK") (Some "nan") None in
  is_nan (billing_hourly_rate KOA_CONFIG) = true
  /\ fgtb (billing_hourly_rate KOA_CONFIG) f0 = false
  /\ startup KOA_CONFIG = Started ["create_metrics_puller"; "dump_analytics"].
Proof. vm_compute. repeat split; reflexivity. Qed.

(* ===================================================================== *)
(** * Trend dump *)
(* ===================================================================== *)

Section Trend.

Variable rrdtool_fetch : string -> Z -> Z -> Z -> result FetchResult.
Variable now : Z.

(** A window query that returns has asked the store once, at its step. *)
Lemma fetch_window_queries (dbname : string) (period step : Z)
    (ev : list Event) (r : FetchResult) :
  fetch_window rrdtool_fetch now dbname period step = (ev, Ok r) ->
  queries ev = [(dbname, step)].
Proof.
  unfold fetch_window, wbind, wlift, emit.
  destruct (truediv (now * step) step) as [q|]; [|discriminate].
  destruct (trunc q) as [e|]; [|discriminate].
  cbn [app]. destruct (rrdtool_fetch _ _ _ _); [|discriminate].
  intros [= <- _]. reflexivity.
Qed.

(** The loop over the rows asks the store nothing. *)
Lemma trend_rows_queries (dbname : string) (rows : list (list (option float)))
    (ts step : Z) (acc : TrendAcc) :
  queries (fst (trend_rows now dbname rows ts step acc)) = [].
Proof.
  revert ts acc. induction rows as [|cdp rows IH]; intros ts acc; [reflexivity|].
  cbn [trend_rows].
  match goal with
  | |- context [let '(ev, acc') := ?x in _] =>
      assert (Hq : queries (fst x) = []);
      [| destruct x as [ev acc']]
  end.
  { destruct cdp as [|[c|] [|[m|] [|? ?]]]; try reflexivity.
    destruct (current_hour now); [|reflexivity].
    destruct (_ =? _); reflexivity. }
  specialize (IH (ts + step) acc').
  destruct (trend_rows now dbname rows (ts + step) step acc') as [ev' acc''].
  cbn [fst] in *. unfold queries in *. rewrite flat_map_app. now rewrite Hq, IH.
Qed.

(** A query of the trend dump, in terms of its accumulator. *)
Lemma trend_query_result (dbname : string) (period step : Z)
    (ev : list Event) (r : FetchResult) :
  fetch_window rrdtool_fetch now dbname period step = (ev, Ok r) ->
  exists ev',
    trend_query rrdtool_fetch now dbname period step =
    (ev', Ok (if both_positive (trend_acc now dbname r)
              then Some (joined (trend_acc now dbname r)) else None))
    /\ queries ev' = [(dbname, step)].
Proof.
  intros Hw. unfold trend_query, wbind. rewrite Hw.
  unfold trend_acc, both_positive, joined.
  pose proof (trend_rows_queries dbname (fr_rows r) (fr_start r) (fr_step r)
                {| res_usage_cpu := []; res_usage_mem := [];
                   sum_res_usage_cpu := f0; sum_res_usage_mem := f0 |}) as Hq.
  destruct (trend_rows _ _ _ _ _ _) as [ev1 acc]. cbn [fst snd] in *.
  eexists. split; [reflexivity|].
  unfold queries in *. rewrite flat_map_app.
  fold (queries ev). rewrite (fetch_window_queries _ _ _ _ _ Hw), Hq. reflexivity.
Qed.

Lemma trend_json_not_empty (dbname : string) (ts : Z) (usage : float) :
  trend_json dbname ts usage <> EmptyString.
Proof. unfold trend_json. cbn [append]. discriminate. Qed.

Lemma join_not_empty (sep x : string) (l : list string) :
  x <> EmptyString -> join sep (x :: l) <> EmptyString.
Proof.
  intros Hx. destruct x as [|c x]; [congruence|].
  cbn [join]. destruct l; cbn [append]; discriminate.
Qed.

Lemma snoc_head (l : list string) (y : string) :
  (l = [] \/ exists x r, l = x :: r /\ x <> EmptyString) ->
  y <> EmptyString ->
  exists x r, (l ++ [y])%list = x :: r /\ x <> EmptyString.
Proof.
  intros [-> | (x & r & -> & Hx)] Hy; [now exists y, [] | now exists x, (r ++ [y])%list].
Qed.

Lemma trend_rows_collected (dbname : string) (rows : list (list (option float)))
    (ts step : Z) (acc : TrendAcc) :
  (res_usage_cpu acc = [] \/ exists x r, res_usage_cpu acc = x :: r /\ x <> EmptyString) ->
  (res_usage_mem acc = [] \/ exists x r, res_usage_mem acc = x :: r /\ x <> EmptyString) ->
  collected acc ->
  collected (snd (trend_rows now dbname rows ts step acc)).
Proof.
  revert ts acc. induction rows as [|cdp rows IH]; intros ts acc Hc Hm Hacc; [exact Hacc|].
  cbn [trend_rows].
  match goal with
  | |- context [let '(ev, acc') := ?x in _] =>
      assert (Hstep :
        (res_usage_cpu (snd x) = [] \/
         exists a r, res_usage_cpu (snd x) = a :: r /\ a <> EmptyString) /\
        (res_usage_mem (snd x) = [] \/
         exists a r, res_usage_mem (snd x) = a :: r /\ a <> EmptyString) /\
        collected (snd x));
      [| destruct x as [ev acc']]
  end.
  { assert (Hnew : forall c m,
      let acc' := {|
        res_usage_cpu := (res_usage_cpu acc ++ [trend_json dbname (ts + step) (sample_usage c)])%list;
        res_usage_mem := (res_usage_mem acc ++ [trend_json dbname (ts + step) (sample_usage m)])%list;
        sum_res_usage_cpu := fadd (sum_res_usage_cpu acc) (sample_usage c);
        sum_res_usage_mem := fadd (sum_res_usage_mem acc) (sample_usage m) |} in
      (res_usage_cpu acc' = [] \/
         exists a r, res_usage_cpu acc' = a :: r /\ a <> EmptyString) /\
      (res_usage_mem acc' = [] \/
         exists a r, res_usage_mem acc' = a :: r /\ a <> EmptyString) /\
      collected acc').
    { intros c m acc'.
      pose proof (snoc_head _ _ Hc (trend_json_not_empty dbname (ts + step) (sample_usage c))) as H1.
      pose proof (snoc_head _ _ Hm (trend_json_not_empty dbname (ts + step) (sample_usage m))) as H2.
      split; [right; exact H1|]. split; [right; exact H2|]. right. split; assumption. }
    destruct cdp as [|[c|] [|[m|] [|? ?]]]; cbn [snd]; auto.
    specialize (Hnew c m).
    destruct (current_hour now); [destruct (_ =? _)|]; cbn [snd]; exact Hnew. }
  destruct Hstep as (Hc' & Hm' & Hacc').
  specialize (IH (ts + step) acc' Hc' Hm' Hacc').
  destruct (trend_rows now dbname rows (ts + step) step acc') as [ev' acc'']. exact IH.
Qed.

(** An accumulator with positive sums holds two series that are not
    empty. *)
Lemma positive_trend_is_not_empty (dbname : string) (r : FetchResult) :
  both_positive (trend_acc now dbname r) = true ->
  fst (joined (trend_acc now dbname r)) <> EmptyString /\
  snd (joined (trend_acc now dbname r)) <> EmptyString.
Proof.
  intros Hpos. unfold trend_acc in *.
  pose proof (trend_rows_collected dbname (fr_rows r) (fr_start r) (fr_step r)
                {| res_usage_cpu := []; res_usage_mem := [];
                   sum_res_usage_cpu := f0; sum_res_usage_mem := f0 |}
                (or_introl eq_refl) (or_introl eq_refl)
                (or_introl (conj eq_refl eq_refl))) as Hc.
  destruct (snd (trend_rows _ _ _ _ _ _)) as [lc lm sc sm].
  unfold both_positive, joined, collected in *. cbn [sum_res_usage_cpu sum_res_usage_mem
    res_usage_cpu res_usage_mem fst snd] in *.
  destruct Hc as [[-> ->] | [(x & l & -> & Hx) (y & l' & -> & Hy)]]; [discriminate|].
  split; now apply join_not_empty.
Qed.

End Trend.

Section TrendSums.

Variable rrdtool_fetch : string -> Z -> Z -> Z -> result FetchResult.
Variable now : Z.

(** The accumulator of the loop over the rows, in terms of the rows. *)
Lemma trend_rows_sums (dbname : string) (rows : list (list (option float)))
    (ts step : Z) (acc : TrendAcc) :
  snd (trend_rows now dbname rows ts step acc) =
  {| res_usage_cpu :=
       (res_usage_cpu acc
        ++ map (fun x => trend_json dbname (fst x) (read_usage (fst (snd x))))
               (stamped_rows ts step rows))%list;
     res_usage_mem :=
       (res_usage_mem acc
        ++ map (fun x => trend_json dbname (fst x) (read_usage (snd (snd x))))
               (stamped_rows ts step rows))%list;
     sum_res_usage_cpu :=
       fsum (map (fun x => read_usage (fst (snd x))) (stamped_rows ts step rows))
            (sum_res_usage_cpu acc);
     sum_res_usage_mem :=
       fsum (map (fun x => read_usage (snd (snd x))) (stamped_rows ts step rows))
            (sum_res_usage_mem acc) |}.
Proof.
  revert ts acc. induction rows as [|cdp rows IH]; intros ts acc.
  - cbn [trend_rows stamped_rows map fsum fold_left snd]. rewrite !app_nil_r. now destruct acc.
  - cbn [trend_rows].
    match goal with
    | |- context [let '(ev, acc') := ?x in _] =>
        assert (Hstep : snd x =
          match cdp with
          | [Some c; Some m] =>
              {| res_usage_cpu := (res_usage_cpu acc ++ [trend_json dbname (ts + step) (read_usage c)])%list;
                 res_usage_mem := (res_usage_mem acc ++ [trend_json dbname (ts + step) (read_usage m)])%list;
                 sum_res_usage_cpu := fadd (sum_res_usage_cpu acc) (read_usage c);
                 sum_res_usage_mem := fadd (sum_res_usage_mem acc) (read_usage m) |}
          | _ => acc
          end);
        [| destruct x as [ev acc']]
    end.
    { destruct cdp as [|[c|] [|[m|] [|? ?]]]; try reflexivity.
      destruct (current_hour now); [destruct (_ =? _)|]; reflexivity. }
    cbn [snd] in Hstep. specialize (IH (ts + step) acc').
    destruct (trend_rows now dbname rows (ts + step) step acc') as [ev' acc''].
    cbn [snd] in *. rewrite IH, Hstep.
    destruct cdp as [|[c|] [|[m|] [|? ?]]]; cbn [stamped_rows]; try reflexivity.
    cbn [res_usage_cpu res_usage_mem sum_res_usage_cpu sum_res_usage_mem map fst snd
         fsum fold_left].
    now rewrite <- !app_assoc.
Qed.

Lemma trend_acc_sums (dbname : string) (r : FetchResult) :
  both_positive (trend_acc now dbname r) = usage_positive r
  /\ joined (trend_acc now dbname r) = series dbname r.
Proof.
  unfold trend_acc, both_positive, joined, usage_positive, series, cpu_sum, mem_sum,
    complete_rows.
  rewrite trend_rows_sums. cbn [res_usage_cpu res_usage_mem sum_res_usage_cpu
    sum_res_usage_mem app]. split; reflexivity.
Qed.

End TrendSums.

(** C7, as stated, fails: a one-hour query whose summed cpu usage is 1.5
    (so not without non-zero usage) but whose summed memory usage is zero
    is followed by a second query, at five minutes. *)
Lemma idle_memory_alone_triggers_the_retry :
  let r := {| fr_start := 1699395200; fr_end := 1700000000; fr_step := 3600;
              fr_rows := [[Some (dec 15 (-1)); Some f0]] |} in
  store_with_idle_memory "team-a" 3600 1699395200 1700000000 = Ok r
  /\ cpu_sum r = dec 15 (-1)
  /\ mem_sum r = f0
  /\ queries (fst (dump_trend_data store_with_idle_memory 1700000000 "team-a"
                     PERIOD_7_DAYS_SEC None))
     = [("team-a", 3600); ("team-a", 300)].
Proof. vm_compute. repeat split; reflexivity. Qed.

(** C7 (amended).  For every tracked entity the trend dump first queries
    at one-hour resolution.  When the usage read from the rows of that
    query, summed for cpu and summed for memory, is strictly positive for
    both, the output is the one-hour series and the store is not queried
    again, whatever a five-minute query would give.  Otherwise (so also
    when only one of the two sums is zero) the same entity is queried
    once more, at five-minute resolution, and never a third time: when
    that query returns, the output is the five-minute series if both
    five-minute sums are strictly positive, and then neither series is
    empty, and two empty strings if not; when that query raises, the
    dump raises the same exception. *)
Theorem trend_retries_once_at_five_minutes
    (rrdtool_fetch : string -> Z -> Z -> Z -> result FetchResult) (now : Z)
    (dbname : string) (period : Z) (ev1 : list Event) (r1 : FetchResult) :
  fetch_window rrdtool_fetch now dbname period PERIOD_1_HOUR_SEC = (ev1, Ok r1) ->
  (usage_positive r1 = true ->
     exists ev,
       dump_trend_data rrdtool_fetch now dbname period None = (ev, Ok (series dbname r1))
       /\ queries ev = [(dbname, PERIOD_1_HOUR_SEC)])
  /\ (usage_positive r1 = false ->
      forall (ev2 : list Event) (r2 : FetchResult),
        fetch_window rrdtool_fetch now dbname period PERIOD_5_MINS_SEC = (ev2, Ok r2) ->
        exists ev,
          dump_trend_data rrdtool_fetch now dbname period None =
          (ev, Ok (if usage_positive r2 then series dbname r2
                   else (EmptyString, EmptyString)))
          /\ queries ev = [(dbname, PERIOD_1_HOUR_SEC); (dbname, PERIOD_5_MINS_SEC)]
          /\ (usage_positive r2 = true ->
              fst (series dbname r2) <> EmptyString
              /\ snd (series dbname r2) <> EmptyString))
  /\ (usage_positive r1 = false ->
      forall (ev2 : list Event) (e : exn),
        fetch_window rrdtool_fetch now dbname period PERIOD_5_MINS_SEC = (ev2, Raise e) ->
        exists ev,
          dump_trend_data rrdtool_fetch now dbname period None = ((ev ++ ev2)%list, Raise e)
          /\ queries ev = [(dbname, PERIOD_1_HOUR_SEC)]).
Proof.
  intros H1.
  destruct (trend_query_result rrdtool_fetch now dbname period _ ev1 r1 H1) as (e1 & Q1 & S1).
  destruct (trend_acc_sums now dbname r1) as [P1 J1]. rewrite P1, J1 in Q1.
  split; [|split].
  - intros Hpos. unfold dump_trend_data, wbind. rewrite Q1, Hpos.
    exists (e1 ++ [])%list. cbn [wret]. split; [reflexivity|].
    now rewrite app_nil_r.
  - intros Hneg ev2 r2 H2.
    destruct (trend_query_result rrdtool_fetch now dbname period _ ev2 r2 H2)
      as (e2 & Q2 & S2).
    destruct (trend_acc_sums now dbname r2) as [P2 J2].
    pose proof (positive_trend_is_not_empty now dbname r2) as Hne.
    rewrite P2, J2 in Q2, Hne.
    unfold dump_trend_data, wbind. rewrite Q1, Hneg, Q2.
    exists (e1 ++ (e2 ++ []))%list.
    split; [destruct (usage_positive r2); reflexivity|].
    split; [|exact Hne].
    unfold queries in *. rewrite !flat_map_app, S1, S2. reflexivity.
  - intros Hneg ev2 e H2.
    unfold dump_trend_data, wbind. rewrite Q1, Hneg.
    unfold trend_query at 1, wbind. rewrite H2.
    exists e1. split; [reflexivity | exact S1].
Qed.

Lemma trend_retries_once_at_five_minutes_witness :
  exists ev,
    dump_trend_data store_with_recent_usage 1700000000 "team-a" PERIOD_7_DAYS_SEC None
    = (ev,
       Ok ("{" ++ dq ++ "name" ++ dq ++ ":" ++ dq ++ "team-a" ++ dq ++ ","
           ++ dq ++ "dateUTC" ++ dq ++ ":" ++ dq ++ "2023-11-07T22:18:20Z" ++ dq ++ ","
           ++ dq ++ "usage" ++ dq ++ ":0.250000}",
           "{" ++ dq ++ "name" ++ dq ++ ":" ++ dq ++ "team-a" ++ dq ++ ","
           ++ dq ++ "dateUTC" ++ dq ++ ":" ++ dq ++ "2023-11-07T22:18:20Z" ++ dq ++ ","
           ++ dq ++ "usage" ++ dq ++ ":0.500000}"))
    /\ queries ev = [("team-a", 3600); ("team-a", 300)].
Proof.
  destruct (trend_retries_once_at_five_minutes
              store_with_recent_usage 1700000000 "team-a" PERIOD_7_DAYS_SEC
              [Fetched "team-a" 3600 1699395200 1700000000]
              {| fr_start := 1699395200; fr_end := 1700000000; fr_step := 3600;
                 fr_rows := [[Some f0; Some f0]; [None; None]] |})
    as (_ & Hretry & _); [vm_compute; reflexivity|].
  destruct (Hretry eq_refl
              [Fetched "team-a" 300 1699395200 1700000000]
              {| fr_start := 1699395200; fr_end := 1700000000; fr_step := 300;
                 fr_rows := [[Some (dec 25 (-2)); Some (dec 5 (-1))]] |})
    as (ev & Hrun & Hq & _); [vm_compute; reflexivity|].
  exists ev. split; [|exact Hq].
  rewrite Hrun. vm_compute. reflexivity.
Defined.

(* ===================================================================== *)
(** * Cost histograms *)
(* ===================================================================== *)

Section ChargeBack.

(** The Charge-Back cost of one entity and one date, when the table of
    sums has the resource and the sum for the date is positive: the value
    recorded under the billing-rate entity for that date multiplies the
    ratio, and its absence is a [KeyError]. *)
Lemma usage_cost_of_charge_back (KOA_CONFIG : Config) (res : ResUsageType)
    (date_key : string) (db_usage_item : Dict.t string float) (usage_value : float)
    (t : UsageTables) (sums : Dict.t string float) :
  cost_model KOA_CONFIG = "CHARGE_BACK" ->
  Dict.get (sum_usage_per_type_date t) res = Some sums ->
  fgtb (Dict.get_default sums date_key f0) f0 = true ->
  usage_cost_of KOA_CONFIG res date_key db_usage_item usage_value t =
  match Dict.get db_usage_item db_billing_hourly_rate with
  | Some rate =>
      Ok (round6 (fmul (fdiv_ieee usage_value (Dict.get_default sums date_key f0)) rate))
  | None => Raise KeyError
  end.
Proof.
  intros Hm Hs Hpos. unfold usage_cost_of, Dict.getitem. rewrite Hm, Hs.
  cbn [String.eqb Ascii.eqb Bool.eqb orb rbind].
  rewrite fdiv_positive_total by exact Hpos. cbn [rbind].
  destruct (Dict.get db_usage_item db_billing_hourly_rate); reflexivity.
Qed.

End ChargeBack.

(** C3 fails on the code where the claim says that a date without a
    billing-rate sample is skipped.  Under Charge-Back, with a namespace
    database that holds usage for a date and a billing-rate database that
    holds no value for it, the lookup of the billing rate raises
    [KeyError]: the dump ends there, after its two store queries, and
    writes no file.  (With a billing-rate value for the date, the cost is
    the ratio times that value: 0.25 / 0.75 * 12 = 4.) *)
Theorem missing_billing_sample_raises :
  dump_histogram_analytics charge_back_config store_without_billing_sample 1700000000
    ["team-a"; db_billing_hourly_rate] PERIOD_14_DAYS_SEC
  = ([Fetched "team-a" 3600 1698790400 1700000000;
      Fetched db_billing_hourly_rate 3600 1698790400 1700000000],
     Raise KeyError)
  /\ map (fun x => (he_stack (snd x), he_usage (snd x)))
         (match snd (histogram_records charge_back_config store_with_two_teams 1700000000
                       ["team-a"; db_billing_hourly_rate; "team-b"] PERIOD_14_DAYS_SEC) with
          | Ok l => filter (fun x => ResUsageType_eqb (fst x) CPU) l
          | Raise _ => []
          end)
     = [("team-a", dec 4 0); ("team-b", dec 8 0)].
Proof. vm_compute. split; reflexivity. Qed.

Section DictOrder.
Context {K : Type} `{KeyEqLaws K} {V : Type}.

Lemma get_default_set_same (d : Dict.t K V) (k : K) (v dflt : V) :
  Dict.get_default (Dict.set d k v) k dflt = v.
Proof. unfold Dict.get_default. now rewrite lookup_set_same. Qed.

Lemma get_default_set_other (d : Dict.t K V) (k k' : K) (v dflt : V) :
  k <> k' -> Dict.get_default (Dict.set d k v) k' dflt = Dict.get_default d k' dflt.
Proof. intros Hn. unfold Dict.get_default. now rewrite lookup_set_other. Qed.

Lemma get_none_keys (d : Dict.t K V) (k : K) :
  Dict.get d k = None <-> ~ In k (Dict.keys d).
Proof.
  unfold Dict.keys. induction d as [|[k0 v0] d IH]; cbn [Dict.get map fst In]; [tauto|].
  destruct (key_eqb k k0) eqn:E.
  - apply key_eqb_eq in E. subst. split; [discriminate | tauto].
  - rewrite IH. split; [|tauto].
    intros Hn [E' | Hin]; [|tauto]. subst. now rewrite key_eqb_refl in E.
Qed.

Lemma get_in (d : Dict.t K V) (k : K) (v : V) :
  Dict.get d k = Some v -> In (k, v) d.
Proof.
  induction d as [|[k0 v0] d IH]; cbn [Dict.get In]; [discriminate|].
  destruct (key_eqb k k0) eqn:E.
  - apply key_eqb_eq in E. intros [= ->]. subst. now left.
  - intros Hg. right. now apply IH.
Qed.

Lemma in_get (d : Dict.t K V) (k : K) (v : V) :
  NoDup (Dict.keys d) -> In (k, v) d -> Dict.get d k = Some v.
Proof.
  unfold Dict.keys. induction d as [|[k0 v0] d IH]; cbn [Dict.get map fst In]; [tauto|].
  intros Hnd [E | Hin].
  - injection E as -> ->. now rewrite key_eqb_refl.
  - inversion Hnd as [|? ? Hk Hnd']; subst.
    rewrite key_eqb_neq; [now apply IH|].
    intros ->. apply Hk. now apply (in_map fst) in Hin.
Qed.

Lemma set_fresh (d : Dict.t K V) (k : K) (v : V) :
  Dict.get d k = None -> Dict.set d k v = (d ++ [(k, v)])%list.
Proof.
  induction d as [|[k0 v0] d IH]; cbn [Dict.get Dict.set app]; [reflexivity|].
  destruct (key_eqb k k0); [discriminate|]. intros Hg. now rewrite IH.
Qed.

Lemma keys_set (d : Dict.t K V) (k k' : K) (v : V) :
  In k' (Dict.keys (Dict.set d k v)) <-> k' = k \/ In k' (Dict.keys d).
Proof.
  unfold Dict.keys. induction d as [|[k0 v0] d IH]; cbn [Dict.set map fst In].
  - intuition.
  - destruct (key_eqb k k0) eqn:E; cbn [map fst In].
    + apply key_eqb_eq in E. subst. intuition.
    + rewrite IH. intuition.
Qed.

Lemma nodup_keys_set (d : Dict.t K V) (k : K) (v : V) :
  NoDup (Dict.keys d) -> NoDup (Dict.keys (Dict.set d k v)).
Proof.
  induction d as [|[k0 v0] d IH]; cbn [Dict.set]; intros Hnd.
  - repeat constructor. intros [].
  - destruct (key_eqb k k0) eqn:E; [exact Hnd|].
    inversion Hnd as [|? ? Hk Hnd']; subst.
    change (NoDup (k0 :: Dict.keys (Dict.set d k v))). constructor; [|now apply IH].
    rewrite keys_set. intros [-> | Hin]; [|contradiction].
    now rewrite key_eqb_refl in E.
Qed.

(** Selecting the entries of one key. *)
Lemma flat_map_key {X} (d : Dict.t K V) (k : K) (g : V -> list X) :
  NoDup (Dict.keys d) ->
  flat_map (fun kv => if key_eqb k (fst kv) then g (snd kv) else []) d =
  match Dict.get d k with
  | Some v => g v
  | None => []
  end.
Proof.
  induction d as [|[k0 v0] d IH]; cbn [flat_map Dict.get fst snd]; [reflexivity|].
  intros Hnd. inversion Hnd as [|? ? Hk Hnd']; subst.
  destruct (key_eqb k k0) eqn:E.
  - apply key_eqb_eq in E. subst k0.
    apply get_none_keys in Hk. rewrite IH, Hk by assumption. apply app_nil_r.
  - now rewrite IH.
Qed.

Lemma in_set (d : Dict.t K V) (k k' : K) (v v' : V) :
  In (k', v') (Dict.set d k v) -> (k' = k /\ v' = v) \/ In (k', v') d.
Proof.
  induction d as [|[k0 v0] d IH]; cbn [Dict.set In].
  - intros [[= -> ->] | []]. now left.
  - destruct (key_eqb k k0) eqn:E; cbn [In].
    + apply key_eqb_eq in E. subst k0.
      intros [[= <- <-] | Hin]; [now left | right; now right].
    + intros [E' | Hin]; [right; now left|].
      destruct (IH Hin) as [Hs | Hs]; [now left | right; now right].
Qed.

Lemma mem_set_monotone (d : Dict.t K V) (k k' : K) (v : V) :
  Dict.mem d k' = true -> Dict.mem (Dict.set d k v) k' = true.
Proof.
  unfold Dict.mem. intros Hm.
  destruct (key_eqb k k') eqn:E.
  - apply key_eqb_eq in E. subst. now rewrite lookup_set_same.
  - rewrite lookup_set_other; [exact Hm|].
    intros ->. now rewrite key_eqb_refl in E.
Qed.

End DictOrder.
Section FirstPass.

Lemma res_eqb_eq (a b : ResUsageType) : ResUsageType_eqb a b = true <-> a = b.
Proof. destruct a, b; cbn; split; congruence. Qed.

(** What recording one usage does to the entries of a resource and a
    date. *)
Lemma record_usage_bundle_at (db : string) (res' res : ResUsageType)
    (date' date : string) (v : float) (t : UsageTables) :
  bundle_at (record_usage db res' date' v t) res date =
  if fgtb v f0 && ResUsageType_eqb res' res && String.eqb date' date
  then Dict.set (bundle_at t res date) db v
  else bundle_at t res date.
Proof.
  unfold record_usage, bundle_at.
  destruct (fgtb v f0); cbn [andb]; [|reflexivity].
  cbn [usage_per_type_date].
  destruct (ResUsageType_eqb res' res) eqn:Er; cbn [andb].
  - apply res_eqb_eq in Er. subst res'. rewrite get_default_set_same.
    destruct (String.eqb_spec date' date) as [->|Hd].
    + now rewrite get_default_set_same.
    + now rewrite get_default_set_other.
  - rewrite get_default_set_other; [reflexivity|].
    intros ->. destruct res; discriminate.
Qed.

Lemma record_usage_sum_at (db : string) (res' res : ResUsageType)
    (date' date : string) (v : float) (t : UsageTables) :
  sum_at (record_usage db res' date' v t) res date =
  if fgtb v f0 && ResUsageType_eqb res' res && String.eqb date' date
     && negb (String.eqb db db_billing_hourly_rate)
  then fadd (sum_at t res date) v
  else sum_at t res date.
Proof.
  unfold record_usage, sum_at.
  destruct (fgtb v f0); cbn [andb]; [|reflexivity].
  destruct (negb (String.eqb db db_billing_hourly_rate));
    cbn [sum_usage_per_type_date]; [|now rewrite !andb_false_r].
  rewrite andb_true_r.
  destruct (ResUsageType_eqb res' res) eqn:Er; cbn [andb].
  - apply res_eqb_eq in Er. subst res'. rewrite get_default_set_same.
    unfold add_to.
    destruct (String.eqb_spec date' date) as [->|Hd].
    + now rewrite get_default_set_same.
    + now rewrite get_default_set_other.
  - rewrite get_default_set_other; [reflexivity|].
    intros ->. destruct res; discriminate.
Qed.

Lemma record_items_at (db : string) (res' res : ResUsageType) (date : string)
    (items : Dict.t string float) (t : UsageTables) :
  NoDup (Dict.keys items) ->
  let o := if ResUsageType_eqb res' res then Dict.get items date else None in
  bundle_at (record_items db res' items t) res date = add_entry db o (bundle_at t res date)
  /\ sum_at (record_items db res' items t) res date = add_usage db o (sum_at t res date).
Proof.
  unfold record_items. revert t.
  induction items as [|[k v] items IH]; intros t Hnd; cbn [fold_left fst snd].
  - destruct (ResUsageType_eqb res' res); split; reflexivity.
  - inversion Hnd as [|? ? Hk Hnd']; subst.
    destruct (IH (record_usage db res' k v t) Hnd') as [Hb Hs].
    cbn zeta in Hb, Hs. rewrite Hb, Hs.
    rewrite record_usage_bundle_at, record_usage_sum_at.
    cbn [Dict.get]. change (key_eqb date k) with (String.eqb date k).
    destruct (ResUsageType_eqb res' res); cbn [andb];
      [|rewrite !andb_false_r; split; reflexivity].
    rewrite (String.eqb_sym k date).
    destruct (String.eqb_spec date k) as [->|Hd].
    + apply get_none_keys in Hk. rewrite Hk. cbn [add_entry add_usage].
      rewrite !andb_true_r.
      destruct (fgtb v f0); cbn [andb];
        [destruct (negb (String.eqb db db_billing_hourly_rate))|]; split; reflexivity.
    + rewrite !andb_false_r. cbn [andb]. split; reflexivity.
Qed.

Lemma record_periodic_usage_at (db : string)
    (cur : Dict.t string float * Dict.t string float)
    (res : ResUsageType) (date : string) (t : UsageTables) :
  NoDup (Dict.keys (fst cur)) -> NoDup (Dict.keys (snd cur)) ->
  bundle_at (record_periodic_usage db cur t) res date
  = add_entry db (Dict.get (channel res cur) date) (bundle_at t res date)
  /\ sum_at (record_periodic_usage db cur t) res date
     = add_usage db (Dict.get (channel res cur) date) (sum_at t res date).
Proof.
  intros H1 H2. unfold record_periodic_usage, Dict.items.
  fold (record_items db CPU (fst cur) t).
  fold (record_items db MEMORY (snd cur) (record_items db CPU (fst cur) t)).
  destruct (record_items_at db MEMORY res date (snd cur)
              (record_items db CPU (fst cur) t) H2) as [Hb2 Hs2].
  destruct (record_items_at db CPU res date (fst cur) t H1) as [Hb1 Hs1].
  cbn zeta in *. rewrite Hb2, Hs2, Hb1, Hs1.
  destruct res; cbn [ResUsageType_eqb channel add_entry add_usage]; split; reflexivity.
Qed.


Lemma tables_of_at (data : string -> Dict.t string float * Dict.t string float)
    (res : ResUsageType) (date : string) (dbfiles : list string) (t : UsageTables) :
  (forall db, In db dbfiles ->
     NoDup (Dict.keys (fst (data db))) /\ NoDup (Dict.keys (snd (data db)))) ->
  bundle_at (tables_of data dbfiles t) res date
  = fold_left (fun b db => add_entry db (usage_of data res date db) b) dbfiles
              (bundle_at t res date)
  /\ sum_at (tables_of data dbfiles t) res date
     = fold_left (fun s db => add_usage db (usage_of data res date db) s) dbfiles
                 (sum_at t res date).
Proof.
  unfold tables_of. revert t.
  induction dbfiles as [|db dbfiles IH]; intros t Hnd; cbn [fold_left]; [split; reflexivity|].
  destruct (Hnd db (or_introl eq_refl)) as [H1 H2].
  destruct (record_periodic_usage_at db (data db) res date t H1 H2) as [Hb Hs].
  destruct (IH (record_periodic_usage db (data db) t)) as [Hb' Hs'].
  { intros d Hd. apply Hnd. now right. }
  rewrite Hb', Hs', Hb, Hs. split; reflexivity.
Qed.

Lemma contributors_cons (data : string -> Dict.t string float * Dict.t string float)
    (res : ResUsageType) (date db : string) (dbfiles : list string) :
  contributors data res date (db :: dbfiles)
  = (add_entry db (usage_of data res date db) [] ++ contributors data res date dbfiles)%list.
Proof.
  unfold contributors. cbn [flat_map].
  destruct (usage_of data res date db) as [u|]; [|reflexivity].
  cbn [add_entry]. destruct (fgtb u f0); reflexivity.
Qed.

(** Entities are entered in the order of [dbfiles]. *)
Lemma fold_add_entry (data : string -> Dict.t string float * Dict.t string float)
    (res : ResUsageType) (date : string) (dbfiles : list string) (b : Dict.t string float) :
  NoDup dbfiles ->
  (forall db, In db dbfiles -> Dict.get b db = None) ->
  fold_left (fun b db => add_entry db (usage_of data res date db) b) dbfiles b
  = (b ++ contributors data res date dbfiles)%list.
Proof.
  revert b. induction dbfiles as [|db dbfiles IH]; intros b Hnd Hfresh; cbn [fold_left].
  - unfold contributors. cbn. now rewrite app_nil_r.
  - inversion Hnd as [|? ? Hdb Hnd']; subst.
    rewrite contributors_cons, app_assoc.
    assert (Hb : add_entry db (usage_of data res date db) b
                 = (b ++ add_entry db (usage_of data res date db) [])%list).
    { destruct (usage_of data res date db) as [u|]; cbn [add_entry];
        [|now rewrite app_nil_r].
      destruct (fgtb u f0); [|now rewrite app_nil_r].
      cbn [Dict.set]. apply set_fresh. apply Hfresh. now left. }
    rewrite <- Hb. apply IH; [exact Hnd'|].
    intros d Hd. rewrite Hb.
    assert (Hne : db <> d) by (intros ->; contradiction).
    destruct (usage_of data res date db) as [u|]; cbn [add_entry];
      [|rewrite app_nil_r; apply Hfresh; now right].
    destruct (fgtb u f0); [|rewrite app_nil_r; apply Hfresh; now right].
    cbn [Dict.set]. rewrite <- set_fresh by (apply Hfresh; now left).
    rewrite lookup_set_other by exact Hne. apply Hfresh. now right.
Qed.

Lemma fold_add_usage (data : string -> Dict.t string float * Dict.t string float)
    (res : ResUsageType) (date : string) (dbfiles : list string) (s : float) :
  fold_left (fun s db => add_usage db (usage_of data res date db) s) dbfiles s
  = fsum (map snd (payers data res date dbfiles)) s.
Proof.
  revert s. unfold payers, fsum.
  induction dbfiles as [|db dbfiles IH]; intros s; cbn [fold_left]; [reflexivity|].
  rewrite IH, contributors_cons, filter_app, map_app, fold_left_app. f_equal.
  destruct (usage_of data res date db) as [u|]; [|reflexivity].
  cbn [add_usage add_entry]. destruct (fgtb u f0); [|reflexivity].
  cbn [Dict.set filter andb]. unfold pays. cbn [fst].
  destruct (negb (String.eqb db db_billing_hourly_rate)); reflexivity.
Qed.

Lemma bundle_at_no_tables (res : ResUsageType) (date : string) :
  bundle_at no_tables res date = [] /\ sum_at no_tables res date = f0.
Proof. split; reflexivity. Qed.

(** The two tables, for one resource and one date, after the first
    pass. *)
Lemma tables_of_contents (data : string -> Dict.t string float * Dict.t string float)
    (res : ResUsageType) (date : string) (dbfiles : list string) :
  NoDup dbfiles ->
  (forall db, In db dbfiles ->
     NoDup (Dict.keys (fst (data db))) /\ NoDup (Dict.keys (snd (data db)))) ->
  bundle_at (tables_of data dbfiles no_tables) res date = contributors data res date dbfiles
  /\ sum_at (tables_of data dbfiles no_tables) res date = summed_usage data res date dbfiles.
Proof.
  intros Hnd Hkeys.
  destruct (tables_of_at data res date dbfiles no_tables Hkeys) as [Hb Hs].
  rewrite Hb, Hs. split.
  - rewrite fold_add_entry; [reflexivity | exact Hnd | reflexivity].
  - apply fold_add_usage.
Qed.

Lemma record_usage_wf (db : string) (res' : ResUsageType) (date' : string)
    (v : float) (t : UsageTables) :
  tables_wf t -> tables_wf (record_usage db res' date' v t).
Proof.
  intros (Hk & Hb & Hs). split; [|split].
  - unfold record_usage. destruct (fgtb v f0); [|exact Hk].
    cbn [usage_per_type_date]. now apply nodup_keys_set.
  - intros res bundle. unfold record_usage. destruct (fgtb v f0); [|apply Hb].
    cbn [usage_per_type_date].
    destruct (ResUsageType_eqb res' res) eqn:Er.
    + apply res_eqb_eq in Er. subst res'. rewrite lookup_set_same. intros [= <-].
      apply nodup_keys_set. unfold Dict.get_default.
      destruct (Dict.get (usage_per_type_date t) res) as [b0|] eqn:Eb;
        [now apply (Hb res) | constructor].
    + rewrite lookup_set_other; [apply Hb|].
      intros ->. destruct res; discriminate.
  - intros res date db0 u. rewrite record_usage_bundle_at.
    assert (Hold : Dict.mem (sum_usage_per_type_date t) res = true ->
                   Dict.mem (sum_usage_per_type_date (record_usage db res' date' v t)) res = true).
    { unfold record_usage. destruct (fgtb v f0); [|auto].
      destruct (negb (String.eqb db db_billing_hourly_rate)); cbn [sum_usage_per_type_date];
        [apply mem_set_monotone | auto]. }
    destruct (fgtb v f0 && ResUsageType_eqb res' res && String.eqb date' date) eqn:Ec.
    + apply andb_true_iff in Ec. destruct Ec as [Ec _].
      apply andb_true_iff in Ec. destruct Ec as [Ev Er].
      apply res_eqb_eq in Er. subst res'.
      intros Hin Hpay. apply in_set in Hin. destruct Hin as [[-> ->] | Hin].
      * unfold record_usage. rewrite Ev.
        apply String.eqb_neq in Hpay. rewrite Hpay. cbn [negb sum_usage_per_type_date].
        unfold Dict.mem. now rewrite lookup_set_same.
      * apply Hold. now apply (Hs res date db0 u).
    + intros Hg Hpay. apply Hold. now apply (Hs res date db0 u).
Qed.

Lemma tables_of_wf (data : string -> Dict.t string float * Dict.t string float)
    (dbfiles : list string) (t : UsageTables) :
  tables_wf t -> tables_wf (tables_of data dbfiles t).
Proof.
  unfold tables_of. revert t.
  induction dbfiles as [|db dbfiles IH]; intros t Ht; cbn [fold_left]; [exact Ht|].
  apply IH. unfold record_periodic_usage.
  assert (Hfold : forall res' items t0, tables_wf t0 ->
            tables_wf (fold_left (fun t kv => record_usage db res' (fst kv) (snd kv) t)
                                 items t0)).
  { intros res' items. induction items as [|kv items IHi]; intros t0 H0; cbn [fold_left];
      [exact H0 | apply IHi; now apply record_usage_wf]. }
  apply Hfold. apply Hfold. exact Ht.
Qed.

Lemma no_tables_wf : tables_wf no_tables.
Proof.
  split; [constructor|]. split; [intros res bundle; discriminate|].
  intros res date db u [].
Qed.

End FirstPass.
Section SecondPass.

Variable KOA_CONFIG : Config.
Variable rrdtool_fetch : string -> Z -> Z -> Z -> result FetchResult.
Variable now : Z.

Lemma wconcat_ok {X Y} (l : list X) (body : X -> W (list Y)) (f : X -> list Y) :
  (forall x, In x l -> exists ev, body x = (ev, Ok (f x))) ->
  exists ev, wconcat l body = (ev, Ok (flat_map f l)).
Proof.
  induction l as [|x l IH]; intros Hb; cbn [wconcat flat_map]; [now exists []|].
  destruct (Hb x (or_introl eq_refl)) as [e1 H1].
  destruct IH as [e2 H2]; [intros y Hy; apply Hb; now right|].
  unfold wbind. rewrite H1, H2. cbn [wret]. eexists. reflexivity.
Qed.

(** The first pass returns the tables of the reports. *)
Lemma collect_usage_tables (data : string -> Dict.t string float * Dict.t string float)
    (dbfiles : list string) (period : Z) (t : UsageTables) :
  (forall db, In db dbfiles ->
     exists ev, dump_histogram_data rrdtool_fetch now db period = (ev, Ok (data db))) ->
  exists ev,
    collect_usage rrdtool_fetch now dbfiles period t = (ev, Ok (tables_of data dbfiles t)).
Proof.
  revert t. induction dbfiles as [|db dbfiles IH]; intros t Hd; cbn [collect_usage].
  - now exists [].
  - destruct (Hd db (or_introl eq_refl)) as [e1 H1].
    destruct (IH (record_periodic_usage db (data db) t)) as [e2 H2];
      [intros d Hin; apply Hd; now right|].
    unfold wbind. rewrite H1, H2. eexists. reflexivity.
Qed.

Lemma histogram_rows_keys (period : Z) (rows : list (list (option float)))
    (ts step : Z) (acc : Dict.t string float * Dict.t string float) :
  NoDup (Dict.keys (fst acc)) -> NoDup (Dict.keys (snd acc)) ->
  NoDup (Dict.keys (fst (histogram_rows period rows ts step acc)))
  /\ NoDup (Dict.keys (snd (histogram_rows period rows ts step acc))).
Proof.
  revert ts acc. induction rows as [|cdp rows IH]; intros ts acc H1 H2; [now split|].
  cbn [histogram_rows]. apply IH.
  - destruct cdp as [|[c|] [|[m|] [|? ?]]]; try exact H1.
    cbn [fst]. unfold add_to. now apply nodup_keys_set.
  - destruct cdp as [|[c|] [|[m|] [|? ?]]]; try exact H2.
    cbn [snd]. unfold add_to. now apply nodup_keys_set.
Qed.

(** A report lists every date once. *)
Lemma dump_histogram_data_keys (db : string) (period : Z) (ev : list Event)
    (cur : Dict.t string float * Dict.t string float) :
  dump_histogram_data rrdtool_fetch now db period = (ev, Ok cur) ->
  NoDup (Dict.keys (fst cur)) /\ NoDup (Dict.keys (snd cur)).
Proof.
  unfold dump_histogram_data, wbind.
  destruct (fetch_window rrdtool_fetch now db period PERIOD_1_HOUR_SEC) as [e [r|]];
    [|discriminate].
  cbn [wret]. intros [= _ <-]. apply histogram_rows_keys; constructor.
Qed.

Hypothesis ratio_model : cost_model KOA_CONFIG = "RATIO".

Lemma export_entry_ratio (period : Z) (res : ResUsageType) (date_key : string)
    (db_usage_item : Dict.t string float) (t : UsageTables) (x : string * float) :
  periodic_exporter period = Ok period ->
  (pays x = true -> Dict.mem (sum_usage_per_type_date t) res = true) ->
  (pays x = true -> fgtb (sum_at t res date_key) f0 = true) ->
  exists ev,
    export_entry KOA_CONFIG now period res date_key db_usage_item t (fst x) (snd x)
    = (ev, Ok (if pays x then [ratio_entry t res date_key x] else [])).
Proof.
  intros Hp Hmem Hpos. unfold export_entry. fold (pays x).
  destruct (pays x); [|now exists []].
  specialize (Hmem eq_refl). specialize (Hpos eq_refl).
  unfold usage_cost_of, Dict.getitem. rewrite ratio_model.
  cbn [String.eqb Ascii.eqb Bool.eqb orb].
  unfold Dict.mem in Hmem.
  destruct (Dict.get (sum_usage_per_type_date t) res) as [sums|] eqn:Es; [|discriminate].
  assert (Hsum : sum_at t res date_key = Dict.get_default sums date_key f0).
  { unfold sum_at. unfold Dict.get_default at 2. now rewrite Es. }
  unfold ratio_entry, ratio_cost. rewrite Hsum in *.
  cbn [rbind]. rewrite fdiv_positive_total by exact Hpos. cbn [rbind].
  destruct (String.eqb _ date_key); cbv [wbind wlift emit wret]; [rewrite Hp|];
    eexists; reflexivity.
Qed.

(** Under the Ratio model, the second pass returns the Ratio records. *)
Lemma export_costs_ratio (period : Z) (t : UsageTables) :
  periodic_exporter period = Ok period ->
  tables_wf t -> sums_positive t ->
  exists ev, export_costs KOA_CONFIG now period t = (ev, Ok (ratio_records t)).
Proof.
  intros Hp (Hk & Hb & Hm) Hpos. unfold export_costs, ratio_records.
  apply wconcat_ok. intros [res bundle] Hin1.
  apply in_get in Hin1; [|exact Hk].
  cbn [fst snd]. apply wconcat_ok. intros [date item] Hin2.
  apply in_get in Hin2; [|now apply (Hb res)].
  assert (Hitem : bundle_at t res date = item).
  { unfold bundle_at, Dict.get_default. now rewrite Hin1, Hin2. }
  cbn [fst snd].
  apply (wconcat_ok item _
           (fun x => if pays x then [(res, ratio_entry t res date x)] else [])).
  intros [db u] Hin3.
  destruct (export_entry_ratio period res date item t (db, u) Hp) as [ev Hev].
  - intros Hpay. apply (Hm res date db u); [now rewrite Hitem|].
    unfold pays in Hpay. cbn [fst] in Hpay.
    now apply String.eqb_neq, negb_true_iff.
  - intros Hpay. apply (Hpos res date db u); [now rewrite Hitem|].
    unfold pays in Hpay. cbn [fst] in Hpay.
    now apply String.eqb_neq, negb_true_iff.
  - cbn [fst snd] in Hev. unfold wbind. rewrite Hev. cbn [wret].
    eexists. f_equal. f_equal. rewrite app_nil_r || idtac.
    destruct (pays (db, u)); reflexivity.
Qed.

Lemma records_at_app (res : ResUsageType) (date : string)
    (a b : list (ResUsageType * HistogramEntry)) :
  records_at res date (a ++ b) = (records_at res date a ++ records_at res date b)%list.
Proof. unfold records_at, usage_export. now rewrite filter_app, map_app, filter_app. Qed.

Lemma records_at_flat_map {X} (res : ResUsageType) (date : string)
    (f : X -> list (ResUsageType * HistogramEntry)) (l : list X) :
  records_at res date (flat_map f l) = flat_map (fun x => records_at res date (f x)) l.
Proof.
  induction l as [|x l IH]; [reflexivity|].
  cbn [flat_map]. now rewrite records_at_app, IH.
Qed.

Lemma flat_map_ext_in {X Y} (f g : X -> list Y) (l : list X) :
  (forall x, In x l -> f x = g x) -> flat_map f l = flat_map g l.
Proof.
  induction l as [|x l IH]; intros Hfg; [reflexivity|].
  cbn [flat_map]. rewrite (Hfg x (or_introl eq_refl)), IH; [reflexivity|].
  intros y Hy. apply Hfg. now right.
Qed.

Lemma records_at_item (t : UsageTables) (res0 res : ResUsageType) (date0 date : string)
    (item : list (string * float)) :
  records_at res0 date0
    (flat_map (fun x => if pays x then [(res, ratio_entry t res date x)] else []) item)
  = if ResUsageType_eqb res res0 && String.eqb date date0
    then map (ratio_entry t res date) (filter pays item)
    else [].
Proof.
  rewrite records_at_flat_map.
  assert (Hone : forall x,
            records_at res0 date0 [(res, ratio_entry t res date x)]
            = if ResUsageType_eqb res res0 && String.eqb date date0
              then [ratio_entry t res date x] else []).
  { intros x. unfold records_at, usage_export. cbn [filter fst].
    destruct (ResUsageType_eqb res res0); cbn [map snd filter andb]; [|reflexivity].
    cbn [ratio_entry he_date]. now destruct (String.eqb date date0). }
  induction item as [|x item IH]; cbn [flat_map filter map];
    [now destruct (_ && _)|].
  rewrite IH.
  destruct (pays x); [rewrite Hone|]; cbn [map];
    destruct (ResUsageType_eqb res res0 && String.eqb date date0); reflexivity.
Qed.

(** The Ratio records of one resource and one date come from the entries
    of the usage table for that resource and date. *)
Lemma ratio_records_at (t : UsageTables) (res : ResUsageType) (date : string) :
  tables_wf t ->
  records_at res date (ratio_records t)
  = map (ratio_entry t res date) (filter pays (bundle_at t res date)).
Proof.
  intros (Hk & Hb & _). unfold ratio_records.
  rewrite records_at_flat_map.
  set (g2 := fun item : Dict.t string float =>
               map (ratio_entry t res date) (filter pays item)).
  set (g1 := fun bundle : Dict.t string (Dict.t string float) =>
               match Dict.get bundle date with
               | Some item => g2 item
               | None => []
               end).
  assert (Hinner : forall res' bundle,
             In (res', bundle) (usage_per_type_date t) ->
             records_at res date
               (flat_map (fun di =>
                  flat_map (fun x =>
                    if pays x then [(res', ratio_entry t res' (fst di) x)] else [])
                    (snd di)) bundle)
             = if key_eqb res res' then g1 bundle else []).
  { intros res' bundle Hin. apply in_get in Hin; [|exact Hk].
    rewrite records_at_flat_map.
    rewrite (flat_map_ext _
               (fun di => if key_eqb date (fst di)
                          then (if key_eqb res res' then g2 (snd di) else [])
                          else [])).
    - rewrite (flat_map_key bundle date
                 (fun item => if key_eqb res res' then g2 item else []))
        by (now apply (Hb res')).
      unfold g1. destruct (Dict.get bundle date); now destruct (key_eqb res res').
    - intros [date' item]. cbn [fst snd]. rewrite records_at_item.
      change (key_eqb date date') with (String.eqb date date').
      change (key_eqb res res') with (ResUsageType_eqb res res').
      rewrite (String.eqb_sym date' date).
      destruct (ResUsageType_eqb res' res) eqn:Er.
      + apply res_eqb_eq in Er. subst res'.
        replace (ResUsageType_eqb res res) with true by (now destruct res).
        cbn [andb]. destruct (String.eqb_spec date date') as [<-|]; reflexivity.
      + replace (ResUsageType_eqb res res') with false by (now destruct res, res').
        cbn [andb]. now destruct (String.eqb date date'). }
  rewrite (flat_map_ext_in _ (fun rb => if key_eqb res (fst rb) then g1 (snd rb) else []) (usage_per_type_date t)).
  - rewrite (flat_map_key (usage_per_type_date t) res g1) by exact Hk.
    unfold bundle_at, Dict.get_default, g1, g2.
    destruct (Dict.get (usage_per_type_date t) res) as [bundle|]; [|reflexivity].
    destruct (Dict.get bundle date); reflexivity.
  - intros [res' bundle] Hin. cbn [fst snd]. now apply Hinner.
Qed.

End SecondPass.


(* ===================================================================== *)
(** * Snapshot builder: what each extraction step records *)
(* ===================================================================== *)

Section Frames.

Lemma bind_ok {A B} (c : M A) (k : A -> M B) (s s' : K8sUsage) (b : B) :
  bind c k s = (s', Ok b) ->
  exists s1 a, c s = (s1, Ok a) /\ k a s1 = (s', Ok b).
Proof.
  unfold bind. destruct (c s) as [s1 [a|e]]; [|discriminate].
  intros Hk. now exists s1, a.
Qed.

Lemma preserves_bind {A B C} (proj : K8sUsage -> C) (c : M A) (k : A -> M B) :
  preserves proj c -> (forall a, preserves proj (k a)) -> preserves proj (bind c k).
Proof.
  intros Hc Hk s. unfold bind. specialize (Hc s).
  destruct (c s) as [s1 [a|e]]; cbn [fst] in *; [now rewrite Hk | exact Hc].
Qed.

Lemma preserves_ret {A C} (proj : K8sUsage -> C) (a : A) : preserves proj (ret a).
Proof. intros s. reflexivity. Qed.

Lemma preserves_lift {A C} (proj : K8sUsage -> C) (r : result A) : preserves proj (lift r).
Proof. intros s. reflexivity. Qed.

Lemma preserves_gets {A C} (proj : K8sUsage -> C) (f : K8sUsage -> A) :
  preserves proj (gets f).
Proof. intros s. reflexivity. Qed.

Lemma preserves_modify {C} (proj : K8sUsage -> C) (f : K8sUsage -> K8sUsage) :
  (forall s, proj (f s) = proj s) -> preserves proj (modify f).
Proof. intros Hf s. apply Hf. Qed.

Lemma preserves_for_each {X C} (proj : K8sUsage -> C) (l : list X) (body : X -> M unit) :
  (forall x, preserves proj (body x)) -> preserves proj (for_each l body).
Proof.
  intros Hb. induction l as [|x l IH]; [intros s; reflexivity|].
  cbn [for_each]. apply preserves_bind; [apply Hb | intros _; exact IH].
Qed.

Lemma preserves_update_node {C} (proj : K8sUsage -> C) (k : string) (f : Node -> Node) :
  (forall d s, proj (set_nodes d s) = proj s) -> preserves proj (update_node k f).
Proof.
  intros Hp s. unfold update_node, modify. cbn [fst].
  destruct (Dict.get (nodes s) k); [apply Hp | reflexivity].
Qed.

Lemma preserves_update_pod {C} (proj : K8sUsage -> C) (k : string) (f : Pod -> Pod) :
  (forall d s, proj (set_pods d s) = proj s) -> preserves proj (update_pod k f).
Proof.
  intros Hp s. unfold update_pod, modify. cbn [fst].
  destruct (Dict.get (pods s) k); [apply Hp | reflexivity].
Qed.

(** An attribute assignment on a stored node keeps the keys of the
    table. *)
Lemma update_node_keys (k : string) (f : Node -> Node) :
  preserves (fun s => Dict.keys (nodes s)) (update_node k f).
Proof.
  intros s. unfold update_node, modify. cbn [fst].
  destruct (Dict.get (nodes s) k) eqn:E; [|reflexivity].
  cbn [set_nodes nodes]. apply keys_set_present. unfold Dict.mem. now rewrite E.
Qed.

Lemma update_pod_keys (k : string) (f : Pod -> Pod) :
  preserves (fun s => Dict.keys (pods s)) (update_pod k f).
Proof.
  intros s. unfold update_pod, modify. cbn [fst].
  destruct (Dict.get (pods s) k) eqn:E; [|reflexivity].
  cbn [set_pods pods]. apply keys_set_present. unfold Dict.mem. now rewrite E.
Qed.

End Frames.

Ltac frame :=
  repeat first
    [ apply preserves_bind; [|intros ?]
    | apply preserves_ret
    | apply preserves_lift
    | apply preserves_gets
    | apply preserves_modify; intros; reflexivity
    | apply preserves_for_each; intros ?
    | apply preserves_update_node; intros; reflexivity
    | apply preserves_update_pod; intros; reflexivity
    | match goal with
      | |- preserves _ (match ?x with _ => _ end) => destruct x
      | |- preserves _ (let '(_, _) := ?x in _) => destruct x
      end ].

Section Namespaces.

Lemma extract_namespaces_lookup (items : list NamespaceItem) (s : K8sUsage) :
  exists s',
    extract_namespaces_and_initialize_usage (Some items) s = (s', Ok tt)
    /\ forall ns,
         Dict.get (nsResUsage s') ns =
         if existsb (String.eqb ns) (map ns_name items)
         then Some zero_usage else Dict.get (nsResUsage s) ns.
Proof.
  cbn [extract_namespaces_and_initialize_usage].
  revert s. induction items as [|item items IH]; intros s.
  - exists s. split; [reflexivity | intros ns; reflexivity].
  - rewrite for_each_cons. unfold modify at 1.
    destruct (IH (set_nsResUsage
                    (Dict.set (nsResUsage s) (ns_name item)
                       {| cpuUsage := f0; memUsage := f0 |}) s)) as (s' & Hrun & Hget).
    exists s'. split; [exact Hrun|].
    intros ns. rewrite Hget. cbn [map existsb set_nsResUsage nsResUsage].
    destruct (existsb (String.eqb ns) (map ns_name items)); [now rewrite orb_true_r|].
    rewrite orb_false_r.
    destruct (String.eqb_spec ns (ns_name item)) as [->|Hn].
    + now rewrite lookup_set_same.
    + rewrite lookup_set_other; [reflexivity | congruence].
Qed.

End Namespaces.

(** X1. Every namespace of the listing is stored with zero usage, also one
    that was stored before with another usage; the other namespaces, the
    nodes, the pods and the six totals of the snapshot (capacity and
    allocatable for cpu and memory, cpu and memory used by pods) are left
    as they were; the step does not raise. *)
Theorem namespaces_start_with_zero_usage (items : list NamespaceItem) (s : K8sUsage) :
  let r := extract_namespaces_and_initialize_usage (Some items) s in
  snd r = Ok tt
  /\ (forall ns, In ns (map ns_name items) ->
        Dict.get (nsResUsage (fst r)) ns = Some zero_usage)
  /\ (forall ns, ~ In ns (map ns_name items) ->
        Dict.get (nsResUsage (fst r)) ns = Dict.get (nsResUsage s) ns)
  /\ nodes (fst r) = nodes s /\ pods (fst r) = pods s
  /\ node_totals (fst r) = node_totals s
  /\ pod_totals (fst r) = pod_totals s.
Proof.
  intros r. subst r.
  destruct (extract_namespaces_lookup items s) as (s' & Hrun & Hget).
  assert (Hu : preserves pod_totals (extract_namespaces_and_initialize_usage (Some items)))
    by (cbn [extract_namespaces_and_initialize_usage]; frame).
  specialize (Hu s).
  assert (Hn : preserves nodes (extract_namespaces_and_initialize_usage (Some items)))
    by (cbn [extract_namespaces_and_initialize_usage]; frame).
  assert (Hp : preserves pods (extract_namespaces_and_initialize_usage (Some items)))
    by (cbn [extract_namespaces_and_initialize_usage]; frame).
  assert (Ht : preserves node_totals (extract_namespaces_and_initialize_usage (Some items)))
    by (cbn [extract_namespaces_and_initialize_usage]; frame).
  specialize (Hn s). specialize (Hp s). specialize (Ht s).
  rewrite Hrun in *. cbn [fst snd] in *.
  split; [reflexivity|]. split; [|split; [|auto]].
  - intros ns Hin. rewrite Hget.
    replace (existsb (String.eqb ns) (map ns_name items)) with true; [reflexivity|].
    symmetry. apply existsb_exists. exists ns. split; [exact Hin | apply String.eqb_refl].
  - intros ns Hin. rewrite Hget.
    replace (existsb (String.eqb ns) (map ns_name items)) with false; [reflexivity|].
    symmetry. apply not_true_is_false. intros He.
    apply existsb_exists in He. destruct He as (x & Hx & E).
    apply String.eqb_eq in E. subst. contradiction.
Qed.

Section Nodes.

Lemma last_cons {X} (a : X) (l : list X) (d : X) : last (a :: l) d = last l a.
Proof.
  revert a d. induction l as [|b l IH]; intros a d; [reflexivity|].
  change (last (a :: b :: l) d) with (last (b :: l) d). now rewrite !IH.
Qed.

Lemma scan_node_conditions_message (conds : list Condition) (state message : string) :
  snd (scan_node_conditions conds state message) =
  match find recognized_true conds with
  | Some c => cond_message c
  | None => last (map cond_message conds) message
  end.
Proof.
  revert message.
  induction conds as [|c conds IH]; intros message; [reflexivity|].
  cbn [scan_node_conditions find map]. rewrite last_cons.
  unfold recognized_true, cond_is.
  destruct (String.eqb (cond_status c) "True"); cbn [andb].
  - rewrite !andb_true_r.
    repeat match goal with
           | |- context [String.eqb (cond_type c) ?k] =>
               destruct (String.eqb (cond_type c) k); [reflexivity|]
           end.
    cbn [orb]. apply IH.
  - rewrite !andb_false_r. apply IH.
Qed.

(** A successful [extract_node] has decoded the four quantities and
    stored a fresh node. *)
Lemma extract_node_ok (item : NodeItem) (s s' : K8sUsage) :
  extract_node item s = (s', Ok tt) ->
  exists cc ca mc ma,
    decode_cpu_capacity (ni_capacity_cpu item) = Ok cc
    /\ decode_cpu_capacity (ni_allocatable_cpu item) = Ok ca
    /\ decode_memory_capacity (ni_capacity_memory item) = Ok mc
    /\ decode_memory_capacity (ni_allocatable_memory item) = Ok ma
    /\ s' = set_nodes
              (Dict.set (nodes s) (ni_name item)
                 {| node_id := ni_uid item;
                    node_name := ni_name item;
                    node_state := fst (scan_node_conditions (ni_conditions item)
                                         EmptyString EmptyString);
                    node_message := snd (scan_node_conditions (ni_conditions item)
                                           EmptyString EmptyString);
                    node_cpuCapacity := cc;
                    node_cpuAllocatable := ca;
                    node_cpuUsage := PFloat f0;
                    node_memCapacity := mc;
                    node_memAllocatable := ma;
                    node_memUsage := PFloat f0;
                    node_containerRuntime := ni_containerRuntimeVersion item;
                    node_podsRunning := [];
                    node_podsNotRunning := [] |}) s.
Proof.
  unfold extract_node, bind, lift.
  destruct (decode_cpu_capacity (ni_capacity_cpu item)) as [cc|]; [|discriminate].
  destruct (decode_cpu_capacity (ni_allocatable_cpu item)) as [ca|]; [|discriminate].
  destruct (decode_memory_capacity (ni_capacity_memory item)) as [mc|]; [|discriminate].
  destruct (decode_memory_capacity (ni_allocatable_memory item)) as [ma|]; [|discriminate].
  destruct (scan_node_conditions _ _ _) as [state message].
  unfold modify. cbn [node_name fst snd]. intros [= <-].
  exists cc, ca, mc, ma. repeat split; reflexivity.
Qed.

Lemma set_set {V} (d : Dict.t string V) (k : string) (v v' : V) :
  Dict.set (Dict.set d k v) k v' = Dict.set d k v'.
Proof.
  induction d as [|[k0 v0] d IH]; cbn [Dict.set].
  - change (key_eqb k k) with (String.eqb k k). now rewrite String.eqb_refl.
  - destruct (key_eqb k k0) eqn:E; cbn [Dict.set]; rewrite E; [reflexivity | now rewrite IH].
Qed.

Lemma extract_node_metrics_keys (data : option (list NodeMetricsItem)) :
  preserves (fun s => Dict.keys (nodes s)) (extract_node_metrics data).
Proof.
  destruct data as [items|]; cbn [extract_node_metrics]; [|frame].
  apply preserves_for_each. intros item.
  apply preserves_bind; [apply preserves_gets|]. intros [n|]; [|apply preserves_ret].
  repeat first [ apply preserves_bind; [|intros ?]
               | apply preserves_lift
               | apply update_node_keys ].
Qed.

Lemma extract_node_metrics_unknown (items : list NodeMetricsItem) (s : K8sUsage) :
  (forall item, In item items -> Dict.mem (nodes s) (nm_name item) = false) ->
  extract_node_metrics (Some items) s = (s, Ok tt).
Proof.
  cbn [extract_node_metrics].
  induction items as [|item items IH]; intros Hu; [reflexivity|].
  rewrite for_each_cons. unfold bind at 1, gets at 1.
  pose proof (Hu item (or_introl eq_refl)) as Hi. unfold Dict.mem in Hi.
  destruct (Dict.get (nodes s) (nm_name item)); [discriminate|].
  cbn [ret]. apply IH. intros x Hx. apply Hu. now right.
Qed.

End Nodes.

(** X2. A node recorded by [extract_nodes] carries the message of the
    condition that decided its state (of the last listed condition when
    none decides, of none when the list is empty), its four decoded
    quantities, a zero usage and empty pod lists; the nodes stored under
    other names, the pods and the namespaces are left as they were. *)
Theorem recorded_node_is_fresh (item : NodeItem) (s s' : K8sUsage) :
  extract_node item s = (s', Ok tt) ->
  (exists n,
     Dict.get (nodes s') (ni_name item) = Some n
     /\ node_name n = ni_name item /\ node_id n = ni_uid item
     /\ node_containerRuntime n = ni_containerRuntimeVersion item
     /\ node_state n = health_of (ni_conditions item)
     /\ node_message n = deciding_message (ni_conditions item)
     /\ decode_cpu_capacity (ni_capacity_cpu item) = Ok (node_cpuCapacity n)
     /\ decode_cpu_capacity (ni_allocatable_cpu item) = Ok (node_cpuAllocatable n)
     /\ decode_memory_capacity (ni_capacity_memory item) = Ok (node_memCapacity n)
     /\ decode_memory_capacity (ni_allocatable_memory item) = Ok (node_memAllocatable n)
     /\ node_cpuUsage n = PFloat f0 /\ node_memUsage n = PFloat f0
     /\ node_podsRunning n = [] /\ node_podsNotRunning n = [])
  /\ (forall k, k <> ni_name item -> Dict.get (nodes s') k = Dict.get (nodes s) k)
  /\ pods s' = pods s /\ nsResUsage s' = nsResUsage s.
Proof.
  intros Hrun.
  destruct (extract_node_ok item s s' Hrun) as (cc & ca & mc & ma & Hcc & Hca & Hmc & Hma & ->).
  cbn [set_nodes nodes pods nsResUsage].
  split; [|split; [|split; reflexivity]].
  - eexists. split; [apply lookup_set_same|].
    cbn [node_name node_id node_containerRuntime node_state node_message
         node_cpuCapacity node_cpuAllocatable node_memCapacity node_memAllocatable
         node_cpuUsage node_memUsage node_podsRunning node_podsNotRunning].
    rewrite scan_node_conditions_state, scan_node_conditions_message.
    unfold deciding_message. repeat split; assumption.
  - intros k Hk. apply lookup_set_other. congruence.
Qed.

Lemma recorded_node_is_fresh_witness :
  let item := {| ni_name := "node-1"; ni_uid := "u1";
                 ni_capacity_cpu := "4"; ni_capacity_memory := "8Gi";
                 ni_allocatable_cpu := "3500m"; ni_allocatable_memory := "7Gi";
                 ni_containerRuntimeVersion := "containerd";
                 ni_conditions :=
                   [ {| cond_type := "MemoryPressure"; cond_status := "False";
                        cond_message := "kubelet has sufficient memory" |};
                     {| cond_type := "Ready"; cond_status := "Unknown";
                        cond_message := "kubelet stopped posting node status" |} ] |} in
  exists n,
    Dict.get (nodes (fst (extract_node item K8sUsage_init))) "node-1" = Some n
    /\ node_state n = EmptyString
    /\ node_message n = "kubelet stopped posting node status"
    /\ node_podsNotRunning n = [].
Proof.
  intros item.
  destruct (recorded_node_is_fresh item K8sUsage_init (fst (extract_node item K8sUsage_init)))
    as [(n & Hget & _ & _ & _ & Hst & Hmsg & _ & _ & _ & _ & _ & _ & _ & Hnot) _].
  - vm_compute. reflexivity.
  - exists n. repeat split; assumption.
Defined.

(** X3. [extract_node_metrics] never adds or removes a node and never
    touches the pods or the namespaces, whether it returns or raises; the
    metrics of nodes that are not in the table are passed over without
    being decoded, so a listing of unknown nodes changes nothing and
    cannot raise. *)
Theorem node_metrics_only_update_known_nodes
    (data : option (list NodeMetricsItem)) (s : K8sUsage) :
  let r := extract_node_metrics data s in
  Dict.keys (nodes (fst r)) = Dict.keys (nodes s)
  /\ pods (fst r) = pods s
  /\ nsResUsage (fst r) = nsResUsage s
  /\ (forall items, data = Some items ->
        (forall item, In item items -> Dict.mem (nodes s) (nm_name item) = false) ->
        r = (s, Ok tt)).
Proof.
  intros r. subst r. split; [apply (extract_node_metrics_keys data s)|].
  split; [|split].
  - assert (H : preserves pods (extract_node_metrics data))
      by (destruct data; cbn [extract_node_metrics]; frame).
    apply H.
  - assert (H : preserves nsResUsage (extract_node_metrics data))
      by (destruct data; cbn [extract_node_metrics]; frame).
    apply H.
  - intros items -> Hu. now apply extract_node_metrics_unknown.
Qed.

Section Pods.

Lemma scan_pod_conditions_state (conds : list Condition) :
  scan_pod_conditions conds "PodNotScheduled" = pod_state_of (Some conds).
Proof.
  cbn [pod_state_of].
  induction conds as [|c conds IH]; [reflexivity|].
  cbn [scan_pod_conditions find]. unfold recognized_pod_condition, cond_is.
  destruct (String.eqb (cond_status c) "True"); cbn [andb].
  - rewrite !andb_true_r.
    repeat match goal with
           | |- context [String.eqb (cond_type c) ?k] =>
               let E := fresh "E" in
               destruct (String.eqb (cond_type c) k) eqn:E;
               [apply String.eqb_eq in E; cbn [orb]; now rewrite E |]
           end.
    cbn [orb]. exact IH.
  - rewrite !andb_false_r. exact IH.
Qed.

Lemma extract_pod_state (item : PodItem) :
  match pi_conditions item with
  | None => "PodNotScheduled"
  | Some conds => scan_pod_conditions conds "PodNotScheduled"
  end = pod_state_of (pi_conditions item).
Proof. destruct (pi_conditions item); [apply scan_pod_conditions_state | reflexivity]. Qed.

(** The pod object that [extract_pod] stores. *)
Lemma extract_pod_run (item : PodItem) (s : K8sUsage) :
  let state := pod_state_of (pi_conditions item) in
  let stored (nodeName : option string) :=
    (set_pods
       (Dict.set (pods s) (pod_key (pi_name item) (pi_namespace item))
          {| pod_name := pod_key (pi_name item) (pi_namespace item);
             pod_namespace := pi_namespace item;
             pod_id := pi_uid item;
             pod_nodeName := nodeName;
             pod_phase := pi_phase item;
             pod_state := state;
             pod_cpuUsage := None;
             pod_memUsage := None |}) s, Ok tt) in
  extract_pod item s =
  if String.eqb state "PodNotScheduled" then stored None
  else match pi_nodeName item with
       | Some n => stored (Some n)
       | None => (s, Raise KeyError)
       end.
Proof.
  intros state stored. unfold extract_pod. rewrite extract_pod_state. fold state.
  unfold bind, lift, modify, stored, pod_key. cbn [pod_name].
  destruct (String.eqb state "PodNotScheduled"); cbn [negb]; [reflexivity|].
  destruct (pi_nodeName item); reflexivity.
Qed.

Lemma pods_loop_keys {X} (l : list X) (body : X -> M unit) :
  (forall x, preserves (fun s => Dict.keys (pods s)) (body x)) ->
  preserves (fun s => Dict.keys (pods s)) (for_each l body).
Proof. apply preserves_for_each. Qed.

Lemma add_pod_usage_keys (k : string) (field : Pod -> option float)
    (store : float -> Pod -> Pod) (decoded : result num) :
  preserves (fun s => Dict.keys (pods s)) (add_pod_usage k field store decoded).
Proof.
  unfold add_pod_usage.
  apply preserves_bind; [apply preserves_gets|]. intros [p|]; [|apply preserves_ret].
  destruct (field p); [|apply preserves_ret].
  repeat first [ apply preserves_bind; [|intros ?]
               | apply preserves_lift
               | apply update_pod_keys ].
Qed.

Lemma extract_pod_metrics_keys (data : option (list PodMetricsItem)) :
  preserves (fun s => Dict.keys (pods s)) (extract_pod_metrics data).
Proof.
  destruct data as [items|]; cbn [extract_pod_metrics]; [|apply preserves_ret].
  apply preserves_for_each. intros item.
  apply preserves_bind; [apply preserves_gets|]. intros [p|]; [|apply preserves_ret].
  repeat first [ apply add_pod_usage_keys
               | apply update_pod_keys
               | apply preserves_for_each; intros ?
               | apply preserves_bind; [|intros ?] ].
Qed.

Lemma same_pod_refl (p : Pod) : same_pod p p.
Proof. repeat split. Qed.

Lemma same_pod_trans (p q r : Pod) : same_pod p q -> same_pod q r -> same_pod p r.
Proof.
  unfold same_pod. intros (A1 & A2 & A3 & A4 & A5 & A6) (B1 & B2 & B3 & B4 & B5 & B6).
  repeat split; congruence.
Qed.

(** One [+=] on a usage attribute of the pod stored under [k]. *)
Lemma add_pod_cpu (k : string) (decoded : result num) (x : num) (y : float)
    (s : K8sUsage) (p : Pod) (c : float) :
  Dict.get (pods s) k = Some p ->
  pod_cpuUsage p = Some c ->
  decoded = Ok x -> to_float x = Ok y ->
  add_pod_usage k pod_cpuUsage with_pod_cpuUsage decoded s
  = (set_pods (Dict.set (pods s) k (with_pod_cpuUsage (fadd c y) p)) s, Ok tt).
Proof.
  intros Hg Hc -> Hy. unfold add_pod_usage, bind, gets, lift, update_pod, modify.
  now rewrite Hg, Hc, Hy, Hg.
Qed.

Lemma add_pod_mem (k : string) (decoded : result num) (x : num) (y : float)
    (s : K8sUsage) (p : Pod) (m : float) :
  Dict.get (pods s) k = Some p ->
  pod_memUsage p = Some m ->
  decoded = Ok x -> to_float x = Ok y ->
  add_pod_usage k pod_memUsage with_pod_memUsage decoded s
  = (set_pods (Dict.set (pods s) k (with_pod_memUsage (fadd m y) p)) s, Ok tt).
Proof.
  intros Hg Hm -> Hy. unfold add_pod_usage, bind, gets, lift, update_pod, modify.
  now rewrite Hg, Hm, Hy, Hg.
Qed.

Lemma set_lookup_same {V} (d : Dict.t string V) (k : string) (v : V) :
  Dict.get d k = Some v -> Dict.set d k v = d.
Proof.
  induction d as [|[k0 v0] d IH]; cbn [Dict.get Dict.set]; [discriminate|].
  destruct (key_eqb k k0); [intros [= ->]; reflexivity|].
  intros Hd. now rewrite IH.
Qed.

Lemma rbind_ok {A B} (r : result A) (k : A -> result B) (b : B) :
  rbind r k = Ok b -> exists a, r = Ok a /\ k a = Ok b.
Proof. destruct r as [a|]; [|discriminate]. intros Hk. now exists a. Qed.

(** The loop over the containers of one metrics item. *)
Lemma containers_loop (k : string) (l : list ContainerMetrics) :
  forall (cs ms : list float) (s : K8sUsage) (p : Pod) (c m : float),
    Dict.get (pods s) k = Some p ->
    pod_cpuUsage p = Some c -> pod_memUsage p = Some m ->
    map container_cpu l = map Ok cs ->
    map container_mem l = map Ok ms ->
    exists p',
      for_each l (fun container =>
        add_pod_usage k pod_cpuUsage with_pod_cpuUsage
          (decode_cpu_capacity (cm_usage_cpu container)) ;;;
        add_pod_usage k pod_memUsage with_pod_memUsage
          (decode_memory_capacity (cm_usage_memory container))) s
      = (set_pods (Dict.set (pods s) k p') s, Ok tt)
      /\ same_pod p p'
      /\ pod_cpuUsage p' = Some (fsum cs c)
      /\ pod_memUsage p' = Some (fsum ms m).
Proof.
  induction l as [|x l IH]; intros cs ms s p c m Hg Hc Hm Hcs Hms.
  - destruct cs; [|discriminate]. destruct ms; [|discriminate].
    exists p. cbn [for_each ret fsum fold_left].
    split; [|split; [apply same_pod_refl | split; assumption]].
    rewrite (set_lookup_same _ _ _ Hg). now destruct s.
  - destruct cs as [|y cs]; [discriminate|]. destruct ms as [|z ms]; [discriminate|].
    cbn [map] in Hcs, Hms. injection Hcs as Hy Hcs. injection Hms as Hz Hms.
    unfold container_cpu in Hy. unfold container_mem in Hz.
    apply rbind_ok in Hy. destruct Hy as (xc & Hdc & Hfc).
    apply rbind_ok in Hz. destruct Hz as (xm & Hdm & Hfm).
    rewrite for_each_cons. unfold bind at 1.
    rewrite (add_pod_cpu k _ xc y s p c Hg Hc Hdc Hfc).
    set (s1 := set_pods (Dict.set (pods s) k (with_pod_cpuUsage (fadd c y) p)) s).
    assert (Hg1 : Dict.get (pods s1) k = Some (with_pod_cpuUsage (fadd c y) p))
      by (subst s1; cbn [set_pods pods]; apply lookup_set_same).
    rewrite (add_pod_mem k _ xm z s1 _ m Hg1 Hm Hdm Hfm).
    set (p2 := with_pod_memUsage (fadd m z) (with_pod_cpuUsage (fadd c y) p)).
    set (s2 := set_pods (Dict.set (pods s1) k p2) s1).
    assert (Hg2 : Dict.get (pods s2) k = Some p2)
      by (subst s2; cbn [set_pods pods]; apply lookup_set_same).
    destruct (IH cs ms s2 p2 (fadd c y) (fadd m z) Hg2 eq_refl eq_refl Hcs Hms)
      as (p' & Hrun & Hsame & Hc' & Hm').
    exists p'. rewrite Hrun.
    split; [|split; [|split; assumption]].
    + subst s2 s1. cbn [set_pods pods nodes nsResUsage cpuUsedByPods memUsedByPods
        cpuCapacity memCapacity cpuAllocatable memAllocatable].
      now rewrite !set_set.
    + apply same_pod_trans with p2; [|exact Hsame]. subst p2. repeat split.
Qed.

End Pods.

(** X4. The state recorded for a pod is the type of the first listed
    condition whose status is [True] and whose type is one of Ready,
    ContainersReady, PodScheduled, Initialized, in the order of the list
    and with no priority among the four; it is [PodNotScheduled] when
    there is no such condition or no condition list at all.  The pod is
    stored under [name.namespace], without usage attributes.  Its node
    name is [None] exactly when its state is [PodNotScheduled], whatever
    [spec.nodeName] says; a pod in another state whose spec has no
    [nodeName] makes the extraction raise [KeyError], and nothing is
    stored for it. *)
Theorem pod_state_decides_placement (item : PodItem) (s : K8sUsage) :
  let state := pod_state_of (pi_conditions item) in
  let key := pod_key (pi_name item) (pi_namespace item) in
  let r := extract_pod item s in
  snd r = (if negb (String.eqb state "PodNotScheduled")
              && match pi_nodeName item with None => true | Some _ => false end
           then Raise KeyError else Ok tt)
  /\ (snd r = Raise KeyError -> fst r = s)
  /\ (snd r = Ok tt ->
      exists p,
        Dict.get (pods (fst r)) key = Some p
        /\ pod_name p = key /\ pod_namespace p = pi_namespace item
        /\ pod_id p = pi_uid item /\ pod_phase p = pi_phase item
        /\ pod_state p = state
        /\ pod_nodeName p = (if String.eqb state "PodNotScheduled"
                             then None else pi_nodeName item)
        /\ pod_cpuUsage p = None /\ pod_memUsage p = None)
  /\ (forall k, k <> key -> Dict.get (pods (fst r)) k = Dict.get (pods s) k)
  /\ nodes (fst r) = nodes s /\ nsResUsage (fst r) = nsResUsage s.
Proof.
  intros state key r. subst r. rewrite extract_pod_run. fold state. fold key.
  destruct (String.eqb state "PodNotScheduled") eqn:Es; cbn [negb andb].
  - cbn [fst snd set_pods pods nodes nsResUsage].
    split; [reflexivity|]. split; [discriminate|]. split.
    + intros _. eexists. split; [apply lookup_set_same|].
      cbn. repeat split; reflexivity.
    + split; [|split; reflexivity].
      intros k Hk. apply lookup_set_other. congruence.
  - destruct (pi_nodeName item) as [n|]; cbn [fst snd set_pods pods nodes nsResUsage].
    + split; [reflexivity|]. split; [discriminate|]. split.
      * intros _. eexists. split; [apply lookup_set_same|].
        cbn. repeat split; reflexivity.
      * split; [|split; reflexivity].
        intros k Hk. apply lookup_set_other. congruence.
    + split; [reflexivity|]. split; [reflexivity|]. split; [discriminate|].
      repeat split; reflexivity.
Qed.

(** X5. For the pod named by the first item of a pod-metrics listing, when
    the pod is in the table and every container quantity decodes, the
    two usage attributes are reset to [0.0] and then receive the usage of
    each container, added from the left in the order of the listing (so
    [0.0] for an item without containers); nothing else of the pod
    changes, and the other pods, the set of keys of the pod table, the
    nodes, the namespaces and the six totals of the snapshot are left as
    they were. *)
Theorem pod_usage_is_the_sum_of_its_containers
    (item : PodMetricsItem) (rest : list PodMetricsItem)
    (s : K8sUsage) (p : Pod) (cs ms : list float) :
  let key := pod_key (pm_name item) (pm_namespace item) in
  Dict.get (pods s) key = Some p ->
  map container_cpu (pm_containers item) = map Ok cs ->
  map container_mem (pm_containers item) = map Ok ms ->
  exists s1 p',
    extract_pod_metrics (Some (item :: rest)) s = extract_pod_metrics (Some rest) s1
    /\ Dict.get (pods s1) key = Some p'
    /\ same_pod p p'
    /\ pod_cpuUsage p' = Some (fsum cs f0)
    /\ pod_memUsage p' = Some (fsum ms f0)
    /\ (forall k, k <> key -> Dict.get (pods s1) k = Dict.get (pods s) k)
    /\ Dict.keys (pods s1) = Dict.keys (pods s)
    /\ nodes s1 = nodes s /\ nsResUsage s1 = nsResUsage s
    /\ node_totals s1 = node_totals s
    /\ pod_totals s1 = pod_totals s.
Proof.
  intros key Hg Hcs Hms. cbn [extract_pod_metrics].
  rewrite for_each_cons. fold (pod_key (pm_name item) (pm_namespace item)). fold key.
  unfold bind at 1, gets at 1. rewrite Hg.
  unfold bind at 1. unfold update_pod at 1, modify at 1. rewrite Hg.
  set (s0 := set_pods (Dict.set (pods s) key (with_pod_cpuUsage f0 p)) s).
  assert (Hg0 : Dict.get (pods s0) key = Some (with_pod_cpuUsage f0 p))
    by (subst s0; cbn [set_pods pods]; apply lookup_set_same).
  unfold bind at 1. unfold update_pod at 1, modify at 1. rewrite Hg0.
  set (p1 := with_pod_memUsage f0 (with_pod_cpuUsage f0 p)).
  set (s1 := set_pods (Dict.set (pods s0) key p1) s0).
  assert (Hg1 : Dict.get (pods s1) key = Some p1)
    by (subst s1; cbn [set_pods pods]; apply lookup_set_same).
  destruct (containers_loop key (pm_containers item) cs ms s1 p1 f0 f0 Hg1
              eq_refl eq_refl Hcs Hms) as (p' & Hrun & Hsame & Hc & Hm).
  rewrite Hrun.
  exists (set_pods (Dict.set (pods s1) key p') s1), p'.
  split; [reflexivity|].
  unfold node_totals, pod_totals.
  cbn [set_pods pods nodes nsResUsage cpuCapacity memCapacity
       cpuAllocatable memAllocatable cpuUsedByPods memUsedByPods].
  split; [apply lookup_set_same|].
  split; [apply same_pod_trans with p1; [subst p1; repeat split | exact Hsame]|].
  split; [exact Hc|]. split; [exact Hm|].
  split; [|split; [|repeat split; reflexivity]].
  - intros k Hk. subst s1 s0. cbn [set_pods pods].
    rewrite !lookup_set_other by congruence. reflexivity.
  - subst s1 s0. cbn [set_pods pods].
    rewrite !set_set. apply keys_set_present. unfold Dict.mem. now rewrite Hg.
Qed.

Lemma pod_usage_is_the_sum_of_its_containers_witness :
  let item := {| pm_name := "web"; pm_namespace := "team-a";
                 pm_containers := [ {| cm_usage_cpu := "250m"; cm_usage_memory := "512Mi" |};
                                    {| cm_usage_cpu := "1"; cm_usage_memory := "1Gi" |} ] |} in
  let s := fst (extract_pods (Some [example_pod "web" "team-a" "p1" "node-1"]) K8sUsage_init) in
  exists s1 p',
    extract_pod_metrics (Some [item]) s = (s1, Ok tt)
    /\ Dict.get (pods s1) "web.team-a" = Some p'
    /\ pod_cpuUsage p' = Some (dec 125 (-2))
    /\ pod_memUsage p' = Some (dec 1512 6).
Proof.
  intros item s.
  destruct (pod_usage_is_the_sum_of_its_containers item [] s
              {| pod_name := "web.team-a"; pod_namespace := "team-a"; pod_id := "p1";
                 pod_nodeName := Some "node-1"; pod_phase := "Running";
                 pod_state := "Ready"; pod_cpuUsage := None; pod_memUsage := None |}
              [dec 25 (-2); dec 1 0] [dec 512 6; dec 1 9])
    as (s1 & p' & Hrun & Hget & _ & Hc & Hm & _).
  - vm_compute. reflexivity.
  - vm_compute. reflexivity.
  - vm_compute. reflexivity.
  - exists s1, p'. split; [exact Hrun|]. split; [exact Hget|].
    split; [rewrite Hc | rewrite Hm]; vm_compute; reflexivity.
Defined.

(** X6. [extract_pod_metrics] never adds or removes a pod and never
    touches the nodes or the namespaces, whether it returns or raises; an
    item that names a pod which is not in the table is passed over
    without its quantities being decoded. *)
Theorem pod_metrics_only_update_known_pods
    (data : option (list PodMetricsItem)) (s : K8sUsage) :
  let r := extract_pod_metrics data s in
  Dict.keys (pods (fst r)) = Dict.keys (pods s)
  /\ nodes (fst r) = nodes s
  /\ nsResUsage (fst r) = nsResUsage s
  /\ (forall item rest, data = Some (item :: rest) ->
        Dict.mem (pods s) (pod_key (pm_name item) (pm_namespace item)) = false ->
        r = extract_pod_metrics (Some rest) s).
Proof.
  intros r. subst r. split; [apply (extract_pod_metrics_keys data s)|].
  split; [|split].
  - assert (H : preserves nodes (extract_pod_metrics data)).
    { destruct data; cbn [extract_pod_metrics]; [|apply preserves_ret].
      unfold add_pod_usage. frame. }
    apply H.
  - assert (H : preserves nsResUsage (extract_pod_metrics data)).
    { destruct data; cbn [extract_pod_metrics]; [|apply preserves_ret].
      unfold add_pod_usage. frame. }
    apply H.
  - intros item rest -> Hu. cbn [extract_pod_metrics].
    rewrite for_each_cons. unfold bind at 1, gets at 1.
    unfold Dict.mem, pod_key in Hu.
    destruct (Dict.get (pods s) (pm_name item ++ "." ++ pm_namespace item));
      [discriminate | reflexivity].
Qed.

(* ===================================================================== *)
(** * The consolidated snapshot *)
(* ===================================================================== *)

Section Collected.

Lemma preserves_read {A C} (proj : K8sUsage -> C) (r : K8sUsage -> result A) :
  preserves proj (fun s => (s, r s)).
Proof. intros s. reflexivity. Qed.

Lemma preserves_accumulate {C} (proj : K8sUsage -> C) (get : K8sUsage -> float)
    (put : float -> K8sUsage -> K8sUsage) (x : num) :
  (forall y t, proj (put y t) = proj t) ->
  preserves proj (accumulate get put x).
Proof.
  intros Hput. unfold accumulate.
  apply preserves_bind; [apply preserves_lift | intros y; apply preserves_modify; intros; apply Hput].
Qed.

(** The five extraction steps leave alone what they do not fill. *)
Lemma extract_nodes_frame {C} (proj : K8sUsage -> C) (data : option (list NodeItem)) :
  (forall d s, proj (set_nodes d s) = proj s) -> preserves proj (extract_nodes data).
Proof.
  intros Hp. destruct data as [items|]; cbn [extract_nodes]; [|apply preserves_ret].
  apply preserves_for_each. intros item. unfold extract_node.
  repeat (apply preserves_bind; [apply preserves_lift | intros ?]).
  destruct (scan_node_conditions _ _ _). apply preserves_modify. intros; apply Hp.
Qed.

Lemma extract_node_metrics_frame {C} (proj : K8sUsage -> C)
    (data : option (list NodeMetricsItem)) :
  (forall d s, proj (set_nodes d s) = proj s) -> preserves proj (extract_node_metrics data).
Proof.
  intros Hp. destruct data as [items|]; cbn [extract_node_metrics]; [|apply preserves_ret].
  apply preserves_for_each. intros item.
  apply preserves_bind; [apply preserves_gets|]. intros [n|]; [|apply preserves_ret].
  repeat first [ apply preserves_update_node; exact Hp
               | apply preserves_lift
               | apply preserves_bind; [|intros ?] ].
Qed.

Lemma extract_pods_frame {C} (proj : K8sUsage -> C) (data : option (list PodItem)) :
  (forall d s, proj (set_pods d s) = proj s) -> preserves proj (extract_pods data).
Proof.
  intros Hp. destruct data as [items|]; cbn [extract_pods]; [|apply preserves_ret].
  apply preserves_for_each. intros item. unfold extract_pod.
  apply preserves_bind; [apply preserves_lift | intros ?].
  apply preserves_modify. intros; apply Hp.
Qed.

Lemma extract_pod_metrics_frame {C} (proj : K8sUsage -> C)
    (data : option (list PodMetricsItem)) :
  (forall d s, proj (set_pods d s) = proj s) -> preserves proj (extract_pod_metrics data).
Proof.
  intros Hp. destruct data as [items|]; cbn [extract_pod_metrics]; [|apply preserves_ret].
  apply preserves_for_each. intros item.
  apply preserves_bind; [apply preserves_gets|]. intros [p|]; [|apply preserves_ret].
  unfold add_pod_usage.
  repeat first [ apply preserves_update_pod; exact Hp
               | apply preserves_lift
               | apply preserves_gets
               | apply preserves_ret
               | apply preserves_for_each; intros ?
               | apply preserves_bind; [|intros ?]
               | match goal with
                 | |- preserves _ (match ?x with _ => _ end) => destruct x
                 end ].
Qed.

Lemma extract_namespaces_frame {C} (proj : K8sUsage -> C)
    (data : option (list NamespaceItem)) :
  (forall d s, proj (set_nsResUsage d s) = proj s) ->
  preserves proj (extract_namespaces_and_initialize_usage data).
Proof.
  intros Hp. destruct data as [items|];
    cbn [extract_namespaces_and_initialize_usage]; [|apply preserves_ret].
  apply preserves_for_each. intros item. apply preserves_modify. intros; apply Hp.
Qed.

(** A cycle that returns has passed its six steps. *)
Lemma collect_ok (api : Listings) (k : K8sUsage) :
  collect api K8sUsage_init = (k, Ok tt) ->
  exists s1 s2 s3 s4,
    extract_namespaces_and_initialize_usage (api_namespaces api) K8sUsage_init = (s1, Ok tt)
    /\ extract_nodes (api_nodes api) s1 = (s2, Ok tt)
    /\ extract_node_metrics (api_node_metrics api) s2 = (s3, Ok tt)
    /\ extract_pods (api_pods api) s3 = (s4, Ok tt)
    /\ extract_pod_metrics (api_pod_metrics api) s4 = (extracted api, Ok tt)
    /\ consolidate_ns_usage (extracted api) = (k, Ok tt).
Proof.
  unfold collect. intros H.
  apply bind_ok in H. destruct H as (s1 & [] & H1 & H).
  apply bind_ok in H. destruct H as (s2 & [] & H2 & H).
  apply bind_ok in H. destruct H as (s3 & [] & H3 & H).
  apply bind_ok in H. destruct H as (s4 & [] & H4 & H).
  apply bind_ok in H. destruct H as (s5 & [] & H5 & H).
  assert (E : extracted api = s5).
  { unfold extracted, bind. now rewrite H1, H2, H3, H4, H5. }
  rewrite E. now exists s1, s2, s3, s4.
Qed.

(** ** Pods and namespaces after the consolidation *)

Lemma consolidate_pod_frame {C} (proj : K8sUsage -> C) (p : Pod) :
  (forall d s, proj (set_nodes d s) = proj s) ->
  (forall d s, proj (set_nsResUsage d s) = proj s) ->
  (forall x s, proj (set_cpuUsedByPods x s) = proj s) ->
  (forall x s, proj (set_memUsedByPods x s) = proj s) ->
  preserves proj (consolidate_pod p).
Proof.
  intros Hn Hns Hc Hm. unfold consolidate_pod.
  destruct (pod_cpuUsage p); [|apply preserves_ret].
  destruct (pod_memUsage p); [|apply preserves_ret].
  unfold add_ns_cpuUsage, add_ns_memUsage, append_podsRunning.
  repeat first [ apply preserves_read
               | apply preserves_lift
               | apply preserves_modify; intros; first [apply Hn | apply Hns | apply Hc | apply Hm]
               | apply preserves_bind; [|intros ?]
               | match goal with
                 | |- preserves _ (match ?x with _ => _ end) => destruct x
                 end ].
Qed.

Lemma node_loops_frame {C} (proj : K8sUsage -> C) :
  (forall x s, proj (set_cpuCapacity x s) = proj s) ->
  (forall x s, proj (set_memCapacity x s) = proj s) ->
  (forall x s, proj (set_cpuAllocatable x s) = proj s) ->
  (forall x s, proj (set_memAllocatable x s) = proj s) ->
  preserves proj node_loops.
Proof.
  intros H1 H2 H3 H4. unfold node_loops.
  repeat first [ apply preserves_gets
               | apply preserves_modify; intros;
                 first [apply H1 | apply H2 | apply H3 | apply H4]
               | apply preserves_accumulate; intros;
                 first [apply H1 | apply H2 | apply H3 | apply H4]
               | apply preserves_for_each; intros ?
               | apply preserves_bind; [|intros ?] ].
Qed.

Lemma consolidate_keeps_pods : preserves pods consolidate_ns_usage.
Proof.
  intros s. rewrite consolidate_ns_usage_unfold.
  assert (Hl : preserves pods (for_each (Dict.values (pods s)) consolidate_pod)).
  { apply preserves_for_each. intros p.
    apply consolidate_pod_frame; intros; reflexivity. }
  specialize (Hl (usage_reset s)).
  destruct (for_each _ _ _) as [s1 [[]|e]]; cbn [fst] in *; [|exact Hl].
  rewrite (node_loops_frame pods); try (intros; reflexivity). exact Hl.
Qed.

End Collected.

(** X7. After a collection cycle that returns, every namespace of the
    namespace listing holds, for cpu and for memory, the usage of the
    pods of that namespace that report metrics, added from the left to
    [0.0] in the order of the pod table (so [0.0] for a namespace none of
    whose pods reports metrics); the state, the phase and the node of a
    pod play no part. *)
Theorem namespace_usage_is_the_sum_over_its_pods
    (api : Listings) (k : K8sUsage) (items : list NamespaceItem) (ns : string) :
  collect api K8sUsage_init = (k, Ok tt) ->
  api_namespaces api = Some items ->
  In ns (map ns_name items) ->
  exists u,
    Dict.get (nsResUsage k) ns = Some u
    /\ cpuUsage u = fsum (cpu_usages (owned_by ns (Dict.values (pods k)))) f0
    /\ memUsage u = fsum (mem_usages (owned_by ns (Dict.values (pods k)))) f0.
Proof.
  intros Hk Hitems Hin.
  destruct (collect_ok api k Hk) as (s1 & s2 & s3 & s4 & H1 & H2 & H3 & H4 & H5 & H6).
  assert (Hns : nsResUsage (extracted api) = nsResUsage s1).
  { pose proof (extract_nodes_frame nsResUsage (api_nodes api)
                  (fun _ _ => eq_refl) s1) as E2.
    pose proof (extract_node_metrics_frame nsResUsage (api_node_metrics api)
                  (fun _ _ => eq_refl) s2) as E3.
    pose proof (extract_pods_frame nsResUsage (api_pods api)
                  (fun _ _ => eq_refl) s3) as E4.
    pose proof (extract_pod_metrics_frame nsResUsage (api_pod_metrics api)
                  (fun _ _ => eq_refl) s4) as E5.
    rewrite H2 in E2. rewrite H3 in E3. rewrite H4 in E4. rewrite H5 in E5.
    cbn [fst] in *. congruence. }
  assert (Hzero : Dict.get (nsResUsage (extracted api)) ns = Some zero_usage).
  { rewrite Hns. rewrite Hitems in H1.
    destruct (extract_namespaces_lookup items K8sUsage_init) as (s1' & Hrun & Hget).
    rewrite H1 in Hrun. injection Hrun as <-. rewrite Hget.
    replace (existsb (String.eqb ns) (map ns_name items)) with true; [reflexivity|].
    symmetry. apply existsb_exists. exists ns. split; [exact Hin | apply String.eqb_refl]. }
  destruct (consolidate_ns_usage_sums _ _ ns zero_usage H6 Hzero) as (u & Hu & Hc & Hm).
  pose proof (consolidate_keeps_pods (extracted api)) as Hp. rewrite H6 in Hp. cbn [fst] in Hp.
  exists u. rewrite Hp. auto.
Qed.

Lemma namespace_usage_is_the_sum_over_its_pods_witness :
  exists u,
    Dict.get (nsResUsage (fst (collect example_listings K8sUsage_init))) "team-b" = Some u
    /\ cpuUsage u = dec 5 (-1) /\ memUsage u = dec 1 9.
Proof.
  destruct (namespace_usage_is_the_sum_over_its_pods example_listings
              (fst (collect example_listings K8sUsage_init))
              [ {| ns_name := "team-a" |}; {| ns_name := "team-b" |} ] "team-b")
    as (u & Hu & Hc & Hm).
  - vm_compute. reflexivity.
  - reflexivity.
  - cbn. auto.
  - exists u. split; [exact Hu|].
    split; [rewrite Hc | rewrite Hm]; vm_compute; reflexivity.
Defined.

Section Totals.

(** A loop that adds two fields of every node to two totals. *)
Lemma totals_loop (get1 get2 : K8sUsage -> float)
    (put1 put2 : float -> K8sUsage -> K8sUsage) (f1 f2 : Node -> num) :
  (forall y t, get1 (put1 y t) = y) -> (forall y t, get2 (put1 y t) = get2 t) ->
  (forall y t, get1 (put2 y t) = get1 t) -> (forall y t, get2 (put2 y t) = y) ->
  forall (l : list Node) (s s' : K8sUsage),
    for_each l (fun node =>
      accumulate get1 put1 (f1 node) ;;; accumulate get2 put2 (f2 node)) s = (s', Ok tt) ->
    exists xs ys,
      map (fun n => to_float (f1 n)) l = map Ok xs
      /\ map (fun n => to_float (f2 n)) l = map Ok ys
      /\ get1 s' = fsum xs (get1 s)
      /\ get2 s' = fsum ys (get2 s)
      /\ forall (C : Type) (proj : K8sUsage -> C),
           (forall y t, proj (put1 y t) = proj t) ->
           (forall y t, proj (put2 y t) = proj t) ->
           proj s' = proj s.
Proof.
  intros H11 H21 H12 H22 l s s' Hrun.
  assert (Hfr : forall (C : Type) (proj : K8sUsage -> C),
             (forall y t, proj (put1 y t) = proj t) ->
             (forall y t, proj (put2 y t) = proj t) ->
             proj s' = proj s).
  { intros C proj P1 P2.
    assert (P : preserves proj (for_each l (fun node =>
        accumulate get1 put1 (f1 node) ;;; accumulate get2 put2 (f2 node)))).
    { apply preserves_for_each. intros n.
      apply preserves_bind; [|intros ?]; apply preserves_accumulate; assumption. }
    specialize (P s). now rewrite Hrun in P. }
  revert s s' Hrun Hfr.
  induction l as [|n l IH]; intros s s' Hrun Hfr.
  - injection Hrun as <-. exists [], []. repeat split; auto.
  - rewrite for_each_cons in Hrun.
    unfold bind at 1, accumulate at 1 2, bind, lift, modify in Hrun.
    destruct (to_float (f1 n)) as [x|] eqn:E1; [|discriminate].
    destruct (to_float (f2 n)) as [y|] eqn:E2; [|discriminate].
    assert (Hfr' : forall (C : Type) (proj : K8sUsage -> C),
               (forall y t, proj (put1 y t) = proj t) ->
               (forall y t, proj (put2 y t) = proj t) ->
               proj s' = proj (put2 (fadd (get2 (put1 (fadd (get1 s) x) s)) y)
                                 (put1 (fadd (get1 s) x) s))).
    { intros C proj P1 P2. rewrite (Hfr C proj P1 P2). now rewrite P2, P1. }
    destruct (IH _ _ Hrun Hfr') as (xs & ys & Hxs & Hys & Hg1 & Hg2 & _).
    exists (x :: xs), (y :: ys). cbn [map]. rewrite E1, E2, Hxs, Hys.
    split; [reflexivity|]. split; [reflexivity|].
    rewrite Hg1, Hg2. rewrite H12, H11, H22, H21.
    split; [reflexivity|]. split; [reflexivity | exact Hfr].
Qed.

Lemma node_loops_totals (s s' : K8sUsage) :
  node_loops s = (s', Ok tt) ->
  exists cc mc ca ma,
    node_quantities node_cpuCapacity (nodes s) = map Ok cc
    /\ node_quantities node_memCapacity (nodes s) = map Ok mc
    /\ node_quantities node_cpuAllocatable (nodes s) = map Ok ca
    /\ node_quantities node_memAllocatable (nodes s) = map Ok ma
    /\ cpuCapacity s' = fsum cc (fadd (cpuCapacity s) f0)
    /\ memCapacity s' = fsum mc (fadd (memCapacity s) f0)
    /\ cpuAllocatable s' = fsum ca (fadd (cpuAllocatable s) f0)
    /\ memAllocatable s' = fsum ma (fadd (memAllocatable s) f0)
    /\ nodes s' = nodes s.
Proof.
  unfold node_loops. intros H.
  apply bind_ok in H. destruct H as (s1 & [] & H1 & H). injection H1 as <-.
  apply bind_ok in H. destruct H as (s2 & [] & H2 & H). injection H2 as <-.
  apply bind_ok in H. destruct H as (s3 & l1 & H3 & H). injection H3 as <- <-.
  apply bind_ok in H. destruct H as (s4 & [] & H4 & H).
  apply bind_ok in H. destruct H as (s5 & [] & H5 & H). injection H5 as <-.
  apply bind_ok in H. destruct H as (s6 & [] & H6 & H). injection H6 as <-.
  apply bind_ok in H. destruct H as (s7 & l2 & H7 & H). injection H7 as <- <-.
  apply (totals_loop cpuCapacity memCapacity set_cpuCapacity set_memCapacity) in H4;
    try (intros; reflexivity).
  apply (totals_loop cpuAllocatable memAllocatable set_cpuAllocatable set_memAllocatable) in H;
    try (intros; reflexivity).
  destruct H4 as (cc & mc & Hcc & Hmc & Hc & Hm & F4).
  destruct H as (ca & ma & Hca & Hma & Hac & Ham & F).
  pose proof (F4 _ nodes (fun _ _ => eq_refl) (fun _ _ => eq_refl)) as Hn4.
  pose proof (F4 _ cpuAllocatable (fun _ _ => eq_refl) (fun _ _ => eq_refl)) as Ha4.
  pose proof (F4 _ memAllocatable (fun _ _ => eq_refl) (fun _ _ => eq_refl)) as Hb4.
  pose proof (F _ nodes (fun _ _ => eq_refl) (fun _ _ => eq_refl)) as Hn.
  pose proof (F _ cpuCapacity (fun _ _ => eq_refl) (fun _ _ => eq_refl)) as Hc'.
  pose proof (F _ memCapacity (fun _ _ => eq_refl) (fun _ _ => eq_refl)) as Hm'.
  cbn [nodes cpuCapacity memCapacity cpuAllocatable memAllocatable
       set_cpuCapacity set_memCapacity set_cpuAllocatable set_memAllocatable] in *.
  rewrite Hn4 in Hca, Hma, Hn.
  exists cc, mc, ca, ma. unfold node_quantities.
  split; [exact Hcc|]. split; [exact Hmc|]. split; [exact Hca|]. split; [exact Hma|].
  split; [now rewrite Hc', Hc|]. split; [now rewrite Hm', Hm|].
  split; [now rewrite Hac, Ha4|]. split; [now rewrite Ham, Hb4 | exact Hn].
Qed.

End Totals.

Section Invariants.

Lemma maintains_bind {A B} (I : K8sUsage -> Prop) (c : M A) (k : A -> M B) :
  maintains I c -> (forall a, maintains I (k a)) -> maintains I (bind c k).
Proof.
  intros Hc Hk s Hs. unfold bind. specialize (Hc s Hs).
  destruct (c s) as [s1 [a|e]]; cbn [fst] in *; [now apply Hk | exact Hc].
Qed.

Lemma maintains_for_each {X} (I : K8sUsage -> Prop) (l : list X) (body : X -> M unit) :
  (forall x, maintains I (body x)) -> maintains I (for_each l body).
Proof.
  intros Hb. induction l as [|x l IH]; [intros s Hs; exact Hs|].
  cbn [for_each]. apply maintains_bind; [apply Hb | intros _; exact IH].
Qed.

Lemma maintains_modify (I : K8sUsage -> Prop) (f : K8sUsage -> K8sUsage) :
  (forall s, I s -> I (f s)) -> maintains I (modify f).
Proof. intros Hf s Hs. now apply Hf. Qed.

Lemma maintains_lift {A} (I : K8sUsage -> Prop) (r : result A) : maintains I (lift r).
Proof. intros s Hs. exact Hs. Qed.

Lemma maintains_preserved {A C} (I : K8sUsage -> Prop) (proj : K8sUsage -> C) (c : M A) :
  (forall s t, proj t = proj s -> I s -> I t) -> preserves proj c -> maintains I c.
Proof. intros HI Hp s Hs. apply (HI s); [apply Hp | exact Hs]. Qed.

Lemma no_pods_listed_nodes (s t : K8sUsage) :
  nodes t = nodes s -> no_pods_listed s -> no_pods_listed t.
Proof. unfold no_pods_listed. intros ->. auto. Qed.

Lemma nodes_distinct_keys (s t : K8sUsage) :
  Dict.keys (nodes t) = Dict.keys (nodes s) -> nodes_distinct s -> nodes_distinct t.
Proof. unfold nodes_distinct. now intros ->. Qed.

Lemma no_pods_listed_set (s : K8sUsage) (k : string) (n : Node) :
  node_podsRunning n = [] -> node_podsNotRunning n = [] ->
  no_pods_listed s -> no_pods_listed (set_nodes (Dict.set (nodes s) k n) s).
Proof.
  intros H1 H2 Hs k' n'. cbn [set_nodes nodes].
  destruct (String.eqb_spec k k') as [->|Hk].
  - rewrite lookup_set_same. intros [= <-]. now split.
  - rewrite lookup_set_other by exact Hk. apply Hs.
Qed.

Lemma extract_nodes_no_pods_listed (data : option (list NodeItem)) :
  maintains no_pods_listed (extract_nodes data).
Proof.
  destruct data as [items|]; cbn [extract_nodes]; [|intros s Hs; exact Hs].
  apply maintains_for_each. intros item. unfold extract_node.
  repeat (apply maintains_bind; [apply maintains_lift | intros ?]).
  destruct (scan_node_conditions _ _ _) as [st msg]. apply maintains_modify.
  intros s Hs. now apply no_pods_listed_set.
Qed.

Lemma update_node_no_pods_listed (k : string) (f : Node -> Node) :
  (forall n, node_podsRunning (f n) = node_podsRunning n
             /\ node_podsNotRunning (f n) = node_podsNotRunning n) ->
  maintains no_pods_listed (update_node k f).
Proof.
  intros Hf. apply maintains_modify. intros s Hs.
  destruct (Dict.get (nodes s) k) as [n|] eqn:E; [|exact Hs].
  destruct (Hs k n E) as [H1 H2]. destruct (Hf n) as [F1 F2].
  apply no_pods_listed_set; [congruence | congruence | exact Hs].
Qed.

Lemma extract_node_metrics_no_pods_listed (data : option (list NodeMetricsItem)) :
  maintains no_pods_listed (extract_node_metrics data).
Proof.
  destruct data as [items|]; cbn [extract_node_metrics]; [|intros s Hs; exact Hs].
  apply maintains_for_each. intros item.
  apply maintains_bind; [intros s Hs; exact Hs|]. intros [n|]; [|intros s Hs; exact Hs].
  repeat first [ apply update_node_no_pods_listed; intros; split; reflexivity
               | apply maintains_lift
               | apply maintains_bind; [|intros ?] ].
Qed.

Lemma extract_nodes_distinct (data : option (list NodeItem)) :
  maintains nodes_distinct (extract_nodes data).
Proof.
  destruct data as [items|]; cbn [extract_nodes]; [|intros s Hs; exact Hs].
  apply maintains_for_each. intros item. unfold extract_node.
  repeat (apply maintains_bind; [apply maintains_lift | intros ?]).
  destruct (scan_node_conditions _ _ _) as [st msg]. apply maintains_modify.
  intros s Hs. unfold nodes_distinct in *. cbn [set_nodes nodes]. now apply nodup_keys_set.
Qed.

(** The snapshot handed to the consolidation. *)
Lemma extracted_invariants (api : Listings) :
  no_pods_listed (extracted api) /\ nodes_distinct (extracted api)
  /\ node_totals (extracted api) = (f0, f0, f0, f0).
Proof.
  unfold extracted.
  split; [|split].
  - match goal with |- no_pods_listed (fst (?c _)) => assert (H : maintains no_pods_listed c) end.
    { apply maintains_bind;
        [apply (maintains_preserved _ nodes);
           [exact (fun s t E => no_pods_listed_nodes s t E)
           | apply extract_namespaces_frame; intros; reflexivity] | intros _].
      apply maintains_bind; [apply extract_nodes_no_pods_listed | intros _].
      apply maintains_bind; [apply extract_node_metrics_no_pods_listed | intros _].
      apply maintains_bind;
        [apply (maintains_preserved _ nodes);
           [exact (fun s t E => no_pods_listed_nodes s t E)
           | apply extract_pods_frame; intros; reflexivity] | intros _].
      apply (maintains_preserved _ nodes);
        [exact (fun s t E => no_pods_listed_nodes s t E)
        | apply extract_pod_metrics_frame; intros; reflexivity]. }
    apply H. intros k n. discriminate.
  - match goal with |- nodes_distinct (fst (?c _)) => assert (H : maintains nodes_distinct c) end.
    { apply maintains_bind;
        [apply (maintains_preserved _ (fun s => Dict.keys (nodes s)));
           [exact (fun s t E => nodes_distinct_keys s t E)
           | apply extract_namespaces_frame; intros; reflexivity] | intros _].
      apply maintains_bind; [apply extract_nodes_distinct | intros _].
      apply maintains_bind;
        [apply (maintains_preserved _ (fun s => Dict.keys (nodes s)));
           [exact (fun s t E => nodes_distinct_keys s t E)
           | apply extract_node_metrics_keys] | intros _].
      apply maintains_bind;
        [apply (maintains_preserved _ (fun s => Dict.keys (nodes s)));
           [exact (fun s t E => nodes_distinct_keys s t E)
           | apply extract_pods_frame; intros; reflexivity] | intros _].
      apply (maintains_preserved _ (fun s => Dict.keys (nodes s)));
        [exact (fun s t E => nodes_distinct_keys s t E)
        | apply extract_pod_metrics_frame; intros; reflexivity]. }
    apply H. constructor.
  - match goal with |- node_totals (fst (?c _)) = _ => assert (H : preserves node_totals c) end.
    { apply preserves_bind; [apply extract_namespaces_frame; intros; reflexivity | intros _].
      apply preserves_bind; [apply extract_nodes_frame; intros; reflexivity | intros _].
      apply preserves_bind; [apply extract_node_metrics_frame; intros; reflexivity | intros _].
      apply preserves_bind; [apply extract_pods_frame; intros; reflexivity | intros _].
      apply extract_pod_metrics_frame; intros; reflexivity. }
    rewrite H. reflexivity.
Qed.

End Invariants.

Lemma map_Ok_inj {A} (a b : list A) : map (@Ok A) a = map (@Ok A) b -> a = b.
Proof.
  revert b. induction a as [|x a IH]; intros [|y b] H; try discriminate; [reflexivity|].
  cbn [map] in H. injection H as -> H. f_equal. now apply IH.
Qed.

Section PodsRunning.

Lemma with_node_podsRunning_same (n : Node) :
  with_node_podsRunning (node_podsRunning n ++ []) n = n.
Proof. destruct n. unfold with_node_podsRunning. cbn. now rewrite app_nil_r. Qed.

Lemma placed_on_cons (k : string) (p : Pod) (l : list Pod) :
  placed_on k (p :: l) = (placed_on k [p] ++ placed_on k l)%list.
Proof.
  unfold placed_on. cbn [filter].
  destruct (carries_usage p && on_node k p); reflexivity.
Qed.

(** One turn of the loop over the pods, seen from the node stored under
    [k]. *)
Lemma consolidate_pod_node (p : Pod) (s s' : K8sUsage) (k : string) (n : Node) :
  consolidate_pod p s = (s', Ok tt) ->
  Dict.get (nodes s) k = Some n ->
  Dict.get (nodes s') k
  = Some (with_node_podsRunning (node_podsRunning n ++ placed_on k [p]) n).
Proof.
  unfold consolidate_pod, placed_on, carries_usage, on_node. cbn [filter].
  destruct (pod_cpuUsage p) as [c|];
    [|intros [= <-] Hn; cbn [andb]; now rewrite with_node_podsRunning_same].
  destruct (pod_memUsage p) as [m|];
    [|intros [= <-] Hn; cbn [andb]; now rewrite with_node_podsRunning_same].
  cbn [andb]. intros H Hn.
  apply bind_ok in H. destruct H as (s1 & [] & H1 & H). injection H1 as <-.
  apply bind_ok in H. destruct H as (s2 & [] & H2 & H).
  apply bind_ok in H. destruct H as (s3 & [] & H3 & H).
  apply bind_ok in H. destruct H as (s4 & [] & H4 & H). injection H4 as <-.
  assert (E2 : nodes s2 = nodes s).
  { assert (P : preserves nodes (add_ns_cpuUsage (pod_namespace p) c)).
    { unfold add_ns_cpuUsage. apply preserves_bind; [apply preserves_read | intros ?].
      apply preserves_modify. reflexivity. }
    specialize (P (set_cpuUsedByPods (fadd (cpuUsedByPods s) c) s)).
    now rewrite H2 in P. }
  assert (E3 : nodes s3 = nodes s).
  { assert (P : preserves nodes (add_ns_memUsage (pod_namespace p) m)).
    { unfold add_ns_memUsage. apply preserves_bind; [apply preserves_read | intros ?].
      apply preserves_modify. reflexivity. }
    specialize (P s2). rewrite H3 in P. cbn [fst] in P. congruence. }
  unfold append_podsRunning in H.
  destruct (pod_nodeName p) as [kk|]; [|discriminate].
  apply bind_ok in H. destruct H as (s5 & n0 & H5 & H).
  unfold Dict.getitem in H5. cbn [nodes set_memUsedByPods] in H5. rewrite E3 in H5.
  destruct (Dict.get (nodes s) kk) as [n0'|] eqn:Ekk; [|discriminate].
  injection H5 as <- <-. injection H as <-.
  cbn [set_nodes nodes set_memUsedByPods]. rewrite E3.
  destruct (String.eqb_spec kk k) as [->|Hk].
  - rewrite lookup_set_same. congruence.
  - rewrite lookup_set_other by exact Hk. now rewrite with_node_podsRunning_same.
Qed.

Lemma consolidate_pods_node (l : list Pod) (s s' : K8sUsage) (k : string) (n : Node) :
  for_each l consolidate_pod s = (s', Ok tt) ->
  Dict.get (nodes s) k = Some n ->
  Dict.get (nodes s') k
  = Some (with_node_podsRunning (node_podsRunning n ++ placed_on k l) n).
Proof.
  revert s n. induction l as [|p l IH]; intros s n Hrun Hn.
  - injection Hrun as <-. now rewrite with_node_podsRunning_same.
  - rewrite for_each_cons in Hrun.
    destruct (consolidate_pod p s) as [s1 [[]|e]] eqn:Hp; [|discriminate].
    pose proof (consolidate_pod_node p s s1 k n Hp Hn) as H1.
    rewrite (IH s1 _ Hrun H1). rewrite (placed_on_cons k p l).
    generalize (placed_on k [p]) (placed_on k l). intros a b.
    unfold with_node_podsRunning.
    cbn [node_id node_name node_state node_message node_cpuCapacity node_cpuAllocatable
         node_cpuUsage node_memCapacity node_memAllocatable node_memUsage
         node_containerRuntime node_podsRunning node_podsNotRunning].
    now rewrite app_assoc.
Qed.

Lemma append_podsRunning_keys (nodeName : option string) (p : Pod) :
  preserves (fun s => Dict.keys (nodes s)) (append_podsRunning nodeName p).
Proof.
  intros s. unfold append_podsRunning. destruct nodeName as [k|]; [|reflexivity].
  unfold bind, Dict.getitem, modify.
  destruct (Dict.get (nodes s) k) eqn:E; [|reflexivity].
  cbn [fst set_nodes nodes]. apply keys_set_present. unfold Dict.mem. now rewrite E.
Qed.

Lemma consolidate_keeps_node_keys :
  preserves (fun s => Dict.keys (nodes s)) consolidate_ns_usage.
Proof.
  intros s. rewrite consolidate_ns_usage_unfold.
  assert (Hl : preserves (fun s => Dict.keys (nodes s))
                 (for_each (Dict.values (pods s)) consolidate_pod)).
  { apply preserves_for_each. intros p. unfold consolidate_pod.
    destruct (pod_cpuUsage p); [|apply preserves_ret].
    destruct (pod_memUsage p); [|apply preserves_ret].
    unfold add_ns_cpuUsage, add_ns_memUsage.
    repeat first [ apply append_podsRunning_keys
                 | apply preserves_read
                 | apply preserves_modify; intros; reflexivity
                 | apply preserves_bind; [|intros ?] ]. }
  specialize (Hl (usage_reset s)).
  destruct (for_each _ _ _) as [s1 [[]|e]]; cbn [fst] in *; [|exact Hl].
  rewrite (node_loops_frame (fun s => Dict.keys (nodes s))); try (intros; reflexivity).
  exact Hl.
Qed.

(** The nodes after a consolidation that returns. *)
Lemma consolidate_nodes (s s' : K8sUsage) (k : string) (n : Node) :
  consolidate_ns_usage s = (s', Ok tt) ->
  Dict.get (nodes s) k = Some n ->
  Dict.get (nodes s') k
  = Some (with_node_podsRunning
            (node_podsRunning n ++ placed_on k (Dict.values (pods s))) n).
Proof.
  rewrite consolidate_ns_usage_unfold. intros Hrun Hn.
  destruct (for_each (Dict.values (pods s)) consolidate_pod (usage_reset s))
    as [s1 [[]|e]] eqn:Hpods; [|discriminate].
  pose proof (consolidate_pods_node _ _ _ k n Hpods Hn) as H1.
  pose proof (node_loops_frame nodes (fun _ _ => eq_refl) (fun _ _ => eq_refl)
                (fun _ _ => eq_refl) (fun _ _ => eq_refl) s1) as E.
  rewrite Hrun in E. cbn [fst] in E. now rewrite E.
Qed.

(** The totals after a consolidation that returns. *)
Lemma consolidate_totals (s s' : K8sUsage) :
  consolidate_ns_usage s = (s', Ok tt) ->
  exists cc mc ca ma,
    node_quantities node_cpuCapacity (nodes s') = map Ok cc
    /\ node_quantities node_memCapacity (nodes s') = map Ok mc
    /\ node_quantities node_cpuAllocatable (nodes s') = map Ok ca
    /\ node_quantities node_memAllocatable (nodes s') = map Ok ma
    /\ cpuCapacity s' = fsum cc (fadd (cpuCapacity s) f0)
    /\ memCapacity s' = fsum mc (fadd (memCapacity s) f0)
    /\ cpuAllocatable s' = fsum ca (fadd (cpuAllocatable s) f0)
    /\ memAllocatable s' = fsum ma (fadd (memAllocatable s) f0)
    /\ cpuUsedByPods s' = fsum (cpu_usages (Dict.values (pods s))) f0
    /\ memUsedByPods s' = fsum (mem_usages (Dict.values (pods s))) f0.
Proof.
  rewrite consolidate_ns_usage_unfold. intros Hrun.
  destruct (for_each (Dict.values (pods s)) consolidate_pod (usage_reset s))
    as [s1 [[]|e]] eqn:Hpods; [|discriminate].
  assert (Hno : forall p, In p (Dict.values (pods s)) -> offending (usage_reset s) p = false).
  { intros p Hin. destruct (offending (usage_reset s) p) eqn:Ep; [|reflexivity].
    destruct (consolidate_pods_raise (Dict.values (pods s)) (usage_reset s))
      as (pre & p0 & post & sa & sb & _ & _ & _ & _ & _ & Hr & _); [now exists p|].
    rewrite Hpods in Hr. discriminate. }
  destruct (consolidate_pods_ok _ _ Hno) as (s1' & Hr & _ & _ & Htot & Hc & Hm).
  rewrite Hpods in Hr. injection Hr as <-.
  destruct (node_loops_totals s1 s' Hrun)
    as (cc & mc & ca & ma & Hcc & Hmc & Hca & Hma & H1 & H2 & H3 & H4 & Hn).
  unfold node_totals in Htot. cbn [usage_reset cpuCapacity memCapacity cpuAllocatable
    memAllocatable set_cpuUsedByPods set_memUsedByPods] in Htot.
  injection Htot as T1 T2 T3 T4.
  assert (U : cpuUsedByPods s' = cpuUsedByPods s1 /\ memUsedByPods s' = memUsedByPods s1).
  { pose proof (node_loops_frame (fun t => (cpuUsedByPods t, memUsedByPods t))
                  (fun _ _ => eq_refl) (fun _ _ => eq_refl)
                  (fun _ _ => eq_refl) (fun _ _ => eq_refl) s1) as E.
    rewrite Hrun in E. cbn [fst] in E. injection E as E1 E2. now split. }
  destruct U as [U1 U2].
  exists cc, mc, ca, ma. rewrite Hn.
  repeat split; try assumption; try congruence.
  - rewrite U1, Hc. reflexivity.
  - rewrite U2, Hm. reflexivity.
Qed.

End PodsRunning.

(** X8. After a collection cycle that returns, the four cluster totals
    are the capacities and the allocatable quantities of the nodes, each
    turned into a float and added from the left to [0.0] in the order of
    the node table, and the two pod totals are the cpu and the memory
    usage of the pods that report metrics, added likewise in the order of
    the pod table; a cycle returns only if every integer quantity of a
    node fits a float. *)
Theorem cluster_totals_are_sums (api : Listings) (k : K8sUsage) :
  collect api K8sUsage_init = (k, Ok tt) ->
  exists cc mc ca ma,
    node_quantities node_cpuCapacity (nodes k) = map Ok cc
    /\ node_quantities node_memCapacity (nodes k) = map Ok mc
    /\ node_quantities node_cpuAllocatable (nodes k) = map Ok ca
    /\ node_quantities node_memAllocatable (nodes k) = map Ok ma
    /\ cpuCapacity k = fsum cc f0 /\ memCapacity k = fsum mc f0
    /\ cpuAllocatable k = fsum ca f0 /\ memAllocatable k = fsum ma f0
    /\ cpuUsedByPods k = fsum (cpu_usages (Dict.values (pods k))) f0
    /\ memUsedByPods k = fsum (mem_usages (Dict.values (pods k))) f0.
Proof.
  intros Hk.
  destruct (collect_ok api k Hk) as (_ & _ & _ & _ & _ & _ & _ & _ & _ & H6).
  destruct (extracted_invariants api) as (_ & _ & Ht).
  injection Ht as T1 T2 T3 T4.
  destruct (consolidate_totals _ _ H6)
    as (cc & mc & ca & ma & Hcc & Hmc & Hca & Hma & H1 & H2 & H3 & H4 & U1 & U2).
  pose proof (consolidate_keeps_pods (extracted api)) as Hp. rewrite H6 in Hp. cbn [fst] in Hp.
  rewrite T1 in H1. rewrite T2 in H2. rewrite T3 in H3. rewrite T4 in H4.
  exists cc, mc, ca, ma. rewrite Hp.
  repeat split; assumption.
Qed.

Lemma cluster_totals_are_sums_witness :
  exists k,
    collect example_listings K8sUsage_init = (k, Ok tt)
    /\ cpuCapacity k = dec 4 0 /\ memCapacity k = dec 8 9
    /\ cpuAllocatable k = dec 35 (-1) /\ memAllocatable k = dec 7 9
    /\ cpuUsedByPods k = dec 75 (-2) /\ memUsedByPods k = dec 1512 6.
Proof.
  let K := eval vm_compute in (fst (collect example_listings K8sUsage_init)) in
  assert (Hk : collect example_listings K8sUsage_init = (K, Ok tt))
    by (vm_compute; reflexivity);
  exists K; split; [exact Hk|];
  destruct (cluster_totals_are_sums example_listings K Hk)
    as (cc & mc & ca & ma & Hcc & Hmc & Hca & Hma & H1 & H2 & H3 & H4 & U1 & U2).
  assert (Ecc : cc = [dec 4 0])
    by (apply map_Ok_inj; rewrite <- Hcc; vm_compute; reflexivity).
  assert (Emc : mc = [dec 8 9])
    by (apply map_Ok_inj; rewrite <- Hmc; vm_compute; reflexivity).
  assert (Eca : ca = [dec 35 (-1)])
    by (apply map_Ok_inj; rewrite <- Hca; vm_compute; reflexivity).
  assert (Ema : ma = [dec 7 9])
    by (apply map_Ok_inj; rewrite <- Hma; vm_compute; reflexivity).
  rewrite H1, H2, H3, H4, U1, U2, Ecc, Emc, Eca, Ema.
  vm_compute. repeat split; reflexivity.
Defined.

(** X9. After a collection cycle that returns, the [podsRunning] list of
    every node holds exactly the pods of the pod table that report
    metrics and whose node name is the key of the node, in the order of
    the pod table and whatever their phase or state, and its
    [podsNotRunning] list is empty. *)
Theorem pods_running_are_the_pods_with_metrics
    (api : Listings) (k : K8sUsage) (name : string) (n : Node) :
  collect api K8sUsage_init = (k, Ok tt) ->
  Dict.get (nodes k) name = Some n ->
  node_podsRunning n = placed_on name (Dict.values (pods k))
  /\ node_podsNotRunning n = [].
Proof.
  intros Hk Hn.
  destruct (collect_ok api k Hk) as (_ & _ & _ & _ & _ & _ & _ & _ & _ & H6).
  destruct (extracted_invariants api) as (Hfresh & _ & _).
  pose proof (consolidate_keeps_pods (extracted api)) as Hp. rewrite H6 in Hp. cbn [fst] in Hp.
  pose proof (consolidate_keeps_node_keys (extracted api)) as Hkeys.
  rewrite H6 in Hkeys. cbn [fst] in Hkeys.
  destruct (Dict.get (nodes (extracted api)) name) as [n0|] eqn:E0.
  - rewrite (consolidate_nodes _ _ name n0 H6 E0) in Hn. injection Hn as <-.
    destruct (Hfresh name n0 E0) as [F1 F2]. cbn [node_podsRunning node_podsNotRunning
      with_node_podsRunning]. rewrite F1, Hp. split; [reflexivity | exact F2].
  - pose proof (mem_keys _ _ name Hkeys) as Hm. unfold Dict.mem in Hm.
    rewrite Hn, E0 in Hm. discriminate.
Qed.

Lemma pods_running_are_the_pods_with_metrics_witness :
  exists k n,
    collect example_listings K8sUsage_init = (k, Ok tt)
    /\ Dict.get (nodes k) "node-1" = Some n
    /\ map pod_name (node_podsRunning n) = ["web.team-a"; "db.team-b"]
    /\ node_podsNotRunning n = [].
Proof.
  let K := eval vm_compute in (fst (collect example_listings K8sUsage_init)) in
  match eval vm_compute in (Dict.get (nodes K) "node-1") with
  | Some ?N =>
      assert (Hk : collect example_listings K8sUsage_init = (K, Ok tt))
        by (vm_compute; reflexivity);
      assert (Hn : Dict.get (nodes K) "node-1" = Some N) by (vm_compute; reflexivity);
      exists K, N; split; [exact Hk|]; split; [exact Hn|];
      destruct (pods_running_are_the_pods_with_metrics example_listings K "node-1" N Hk Hn)
        as [H1 H2]
  end.
  split; [|exact H2]. rewrite H1. vm_compute. reflexivity.
Defined.

(* ===================================================================== *)
(** * Numerals *)
(* ===================================================================== *)

Section Numerals.

Lemma digit_of_is_digit (c : ascii) (d : Z) : digit_of c = Some d -> is_digit c = true.
Proof.
  destruct c as [b0 b1 b2 b3 b4 b5 b6 b7].
  destruct b0, b1, b2, b3, b4, b5, b6, b7; vm_compute; congruence.
Qed.

Lemma is_space_is_blank (c : ascii) : is_space c = true -> is_blank c = true.
Proof.
  destruct c as [b0 b1 b2 b3 b4 b5 b6 b7].
  destruct b0, b1, b2, b3, b4, b5, b6, b7; vm_compute; congruence.
Qed.

Lemma append_assoc (a b c : string) : (a ++ b) ++ c = a ++ b ++ c.
Proof. induction a as [|x a IH]; cbn [append]; [reflexivity | now rewrite IH]. Qed.

Lemma lstrip_blank (s : string) :
  exists lead, s = lead ++ lstrip s /\ all_blank lead = true.
Proof.
  induction s as [|c r IH]; [now exists EmptyString|].
  cbn [lstrip]. destruct (is_space c) eqn:E; [|now exists EmptyString].
  destruct IH as (lead & Hs & Hb). exists (String c lead).
  cbn [append all_blank]. rewrite <- Hs, Hb, (is_space_is_blank c E). now split.
Qed.

Lemma rstrip_blank (s : string) :
  exists trail, s = rstrip s ++ trail /\ all_blank trail = true.
Proof.
  induction s as [|c r IH]; [now exists EmptyString|].
  destruct IH as (trail & Hs & Hb). cbn [rstrip].
  destruct (rstrip r) as [|c' r'] eqn:Er.
  - cbn [append] in Hs. subst r.
    destruct (is_space c) eqn:E.
    + exists (String c trail). cbn [append all_blank].
      now rewrite Hb, (is_space_is_blank c E).
    + exists trail. now split.
  - exists trail. cbn [append]. cbn [append] in Hs. rewrite <- Hs. now split.
Qed.

(** What [int_digits] accepts is a run of digits. *)
Lemma int_digits_run (t : string) :
  forall (acc z : Z),
    (int_digits t acc false = Some z -> digit_run t)
    /\ (int_digits t acc true = Some z ->
        t = EmptyString \/ digit_run t
        \/ exists r, t = String "_" r /\ digit_run r).
Proof.
  induction t as [|c r IH]; intros acc z; cbn [int_digits].
  - split; [discriminate | now left].
  - destruct (digit_of c) as [d|] eqn:Ed.
    + apply digit_of_is_digit in Ed.
      assert (H : int_digits r (10 * acc + d) true = Some z -> digit_run (String c r)).
      { intros Hr. destruct (proj2 (IH _ _) Hr) as [-> | [Hrun | (r' & -> & Hrun)]].
        - now apply run_end.
        - now apply run_digit.
        - now apply run_underscore. }
      split; [exact H | intros Hr; right; left; now apply H].
    + cbn [andb]. rewrite andb_false_r.
      split; [discriminate|].
      rewrite andb_true_r.
      destruct (Ascii.eqb c "_") eqn:Eu; [|discriminate].
      apply Ascii.eqb_eq in Eu. subst c.
      destruct r as [|c' r']; [discriminate|].
      destruct (digit_of c'); [|discriminate].
      intros Hr. right. right. exists (String c' r'). split; [reflexivity|].
      exact (proj1 (IH _ _) Hr).
Qed.

Lemma digit_run_has_digit (t : string) : digit_run t -> has_digit t = true.
Proof. intros H. destruct H; cbn [has_digit]; now rewrite H. Qed.

Lemma has_digit_app (a b : string) : has_digit (a ++ b) = has_digit a || has_digit b.
Proof.
  induction a as [|c a IH]; cbn [append has_digit]; [reflexivity|].
  now rewrite IH, orb_assoc.
Qed.

(** A numeral holds a digit. *)
Lemma numeral_has_digit (s : string) : numeral s -> has_digit s = true.
Proof.
  intros (lead & sign & body & trail & -> & _ & _ & _ & Hrun).
  rewrite !has_digit_app, (digit_run_has_digit _ Hrun).
  now rewrite orb_true_r, !orb_true_r.
Qed.

Lemma numeral_chars_app (a b : string) :
  numeral_chars (a ++ b) = numeral_chars a && numeral_chars b.
Proof.
  induction a as [|c a IH]; cbn [append numeral_chars]; [reflexivity|].
  now rewrite IH, andb_assoc.
Qed.

Lemma all_blank_chars (s : string) : all_blank s = true -> numeral_chars s = true.
Proof.
  induction s as [|c s IH]; cbn [all_blank numeral_chars]; [reflexivity|].
  intros H. apply andb_prop in H. destruct H as [Hc Hs].
  unfold numeral_char. now rewrite Hc, (IH Hs).
Qed.

Lemma digit_run_chars (s : string) : digit_run s -> numeral_chars s = true.
Proof.
  induction 1 as [c Hc | c r Hc _ IH | c r Hc _ IH]; cbn [numeral_chars];
    unfold numeral_char at 1; rewrite Hc, orb_true_r; cbn [orb andb];
    [reflexivity | exact IH |].
  replace (numeral_char "_") with true by (vm_compute; reflexivity). exact IH.
Qed.

(** A numeral holds nothing but blanks, signs, digits and underscores. *)
Lemma numeral_only_chars (s : string) : numeral s -> numeral_chars s = true.
Proof.
  intros (lead & sign & body & trail & -> & Hlead & Htrail & Hsign & Hrun).
  rewrite !numeral_chars_app, (all_blank_chars _ Hlead), (all_blank_chars _ Htrail),
    (digit_run_chars _ Hrun).
  destruct Hsign as [-> | [-> | ->]]; vm_compute; reflexivity.
Qed.

(** [int] tells the sign from the first character left after the blanks
    are dropped. *)
Lemma int_unfold (s : string) :
  let body (t : string) :=
    match int_digits t 0 false with
    | Some z => if int_max_str_digits <? digit_count t then Raise ValueError else Ok z
    | None => Raise ValueError
    end in
  int s =
  match strip s with
  | String c r =>
      if Ascii.eqb c "-" then rbind (body r) (fun z => Ok (- z))
      else if Ascii.eqb c "+" then body r
      else body (strip s)
  | EmptyString => body EmptyString
  end.
Proof.
  intros body. unfold int. fold body.
  destruct (strip s) as [|c r]; [reflexivity|].
  destruct c as [b0 b1 b2 b3 b4 b5 b6 b7].
  destruct b0, b1, b2, b3, b4, b5, b6, b7; reflexivity.
Qed.

(** [int] raises nothing but [ValueError]. *)
Lemma int_raises_value_error (s : string) (e : exn) : int s = Raise e -> e = ValueError.
Proof.
  rewrite int_unfold. cbv zeta.
  destruct (strip s) as [|c r].
  - cbn. congruence.
  - destruct (Ascii.eqb c "-"); [|destruct (Ascii.eqb c "+")];
      destruct (int_digits _ 0 false); try (destruct (_ <? _)); cbn; congruence.
Qed.

(** What [int] reads is a numeral. *)
Lemma int_numeral (s : string) (z : Z) : int s = Ok z -> numeral s.
Proof.
  rewrite int_unfold. cbv zeta.
  destruct (lstrip_blank s) as (lead & Hs & Hlead).
  destruct (rstrip_blank (lstrip s)) as (trail & Ht & Htrail).
  fold (strip s) in Ht.
  assert (Hdec : forall sign body,
             strip s = sign ++ body ->
             (sign = EmptyString \/ sign = "+" \/ sign = "-") ->
             digit_run body -> numeral s).
  { intros sign body E Hsign Hrun. exists lead, sign, body, trail.
    rewrite <- (append_assoc sign body trail), <- E, <- Ht, <- Hs. auto. }
  destruct (strip s) as [|c r] eqn:Estrip.
  - cbn. discriminate.
  - destruct (Ascii.eqb c "-") eqn:Em; [|destruct (Ascii.eqb c "+") eqn:Ep].
    + apply Ascii.eqb_eq in Em. subst c.
      destruct (int_digits r 0 false) as [v|] eqn:Ed; [|discriminate].
      intros _. apply (Hdec "-" r); [reflexivity | auto |].
      exact (proj1 (int_digits_run r 0 v) Ed).
    + apply Ascii.eqb_eq in Ep. subst c.
      destruct (int_digits r 0 false) as [v|] eqn:Ed; [|discriminate].
      intros _. apply (Hdec "+" r); [reflexivity | auto |].
      exact (proj1 (int_digits_run r 0 v) Ed).
    + destruct (int_digits (String c r) 0 false) as [v|] eqn:Ed; [|discriminate].
      intros _. apply (Hdec EmptyString (String c r)); [reflexivity | auto |].
      exact (proj1 (int_digits_run _ 0 v) Ed).
Qed.

(** What is not a numeral makes [int] raise [ValueError]. *)
Lemma int_rejects (s : string) : ~ numeral s -> int s = Raise ValueError.
Proof.
  intros Hn. destruct (int s) as [z|e] eqn:E.
  - exfalso. apply Hn. now apply (int_numeral s z).
  - now rewrite (int_raises_value_error s e E).
Qed.

End Numerals.

(* ===================================================================== *)
(** * Malformed quantities *)
(* ===================================================================== *)

Section Malformed.

(** What [decode_memory_capacity] does with its payload. *)
Lemma memory_payload_decoded (s : string) :
  match memory_payload s with
  | Some p => exists k, decode_memory_capacity s = (n <- int p ;; k n)
  | None => decode_memory_capacity s = Ok (PInt 0)
  end.
Proof.
  destruct (endswith_char s "i") eqn:E.
  - assert (Hs : exists v, s = v ++ "i").
    { destruct s as [|a s0] eqn:Es; [discriminate|]. rewrite <- Es in *.
      destruct (string_snoc s) as (v & c & Hv); [subst; discriminate|].
      exists v. rewrite Hv in E. unfold endswith_char in E.
      rewrite last_char_app in E. cbn [last_char] in E.
      apply Ascii.eqb_eq in E. now subst c. }
    destruct Hs as (v & ->).
    destruct v as [|a v0] eqn:Ev; [vm_compute; reflexivity|]. rewrite <- Ev in *.
    destruct (string_snoc v) as (w & c & Hw); [subst; discriminate|].
    rewrite Hw, append_assoc. cbn [append].
    rewrite decode_memory_unit. unfold memory_payload, endswith_char.
    rewrite last_char_app. cbn [last_char Ascii.eqb Bool.eqb].
    destruct (slice_suffix w (String c "i")) as [H1 H2]; [discriminate|].
    change (len (String c "i")) with 2 in H1, H2. rewrite H1, H2.
    cbn [existsb String.eqb]. unfold memory_scale. rewrite !Ascii.eqb_refl.
    repeat match goal with
           | |- context [Ascii.eqb c ?k] =>
               destruct (Ascii.eqb c k); cbn [orb andb]; [eexists; reflexivity|]
           end.
    reflexivity.
  - unfold memory_payload, decode_memory_capacity. rewrite E. cbn [String.eqb].
    eexists. reflexivity.
Qed.

Lemma decode_memory_non_numeral (s p : string) :
  memory_payload s = Some p -> ~ numeral p ->
  decode_memory_capacity s = Raise ValueError.
Proof.
  intros Hp Hn. pose proof (memory_payload_decoded s) as H. rewrite Hp in H.
  destruct H as (k & ->). now rewrite (int_rejects p Hn).
Qed.

Lemma decode_memory_unknown_unit (s : string) :
  memory_payload s = None -> decode_memory_capacity s = Ok (PInt 0).
Proof.
  intros Hp. pose proof (memory_payload_decoded s) as H. now rewrite Hp in H.
Qed.

(** The first quantity of a node that fails ends [extract_node]. *)
Lemma extract_node_failure (item : NodeItem) (s : K8sUsage) (e : exn) :
  first_failure (node_decodes item) = Some e ->
  extract_node item s = (s, Raise e).
Proof.
  unfold node_decodes, extract_node, bind, lift. cbn [first_failure].
  destruct (decode_cpu_capacity (ni_capacity_cpu item)); [|now intros [= ->]].
  destruct (decode_cpu_capacity (ni_allocatable_cpu item)); [|now intros [= ->]].
  destruct (decode_memory_capacity (ni_capacity_memory item)); [|now intros [= ->]].
  destruct (decode_memory_capacity (ni_allocatable_memory item)); [|now intros [= ->]].
  discriminate.
Qed.

(** The first usage of a known node that fails ends
    [extract_node_metrics]. *)
Lemma node_metrics_failure
    (item : NodeMetricsItem) (post : list NodeMetricsItem)
    (s : K8sUsage) (n : Node) (e : exn) :
  Dict.get (nodes s) (nm_name item) = Some n ->
  first_failure (node_metrics_decodes item) = Some e ->
  extract_node_metrics (Some (item :: post)) s
  = (match decode_cpu_capacity (nm_usage_cpu item) with
     | Ok c => set_nodes (Dict.set (nodes s) (nm_name item) (with_node_cpuUsage c n)) s
     | Raise _ => s
     end, Raise e).
Proof.
  intros Hg. unfold node_metrics_decodes. cbn [first_failure extract_node_metrics].
  rewrite for_each_cons. unfold bind at 1, gets at 1. rewrite Hg.
  unfold bind at 1, lift at 1.
  destruct (decode_cpu_capacity (nm_usage_cpu item)) as [c|e1]; [|now intros [= ->]].
  unfold bind at 1, update_node at 1, modify at 1. rewrite Hg.
  unfold bind at 1, lift at 1.
  destruct (decode_memory_capacity (nm_usage_memory item)) as [m|e2]; [discriminate|].
  now intros [= ->].
Qed.

(** One [+=] whose quantity fails leaves the pod as it is. *)
Lemma add_pod_usage_failure (k : string)
    (field : Pod -> option float) (store : float -> Pod -> Pod)
    (decoded : result num) (s : K8sUsage) (p : Pod) (cur : float) (e : exn) :
  Dict.get (pods s) k = Some p -> field p = Some cur ->
  (x <- decoded ;; to_float x) = Raise e ->
  add_pod_usage k field store decoded s = (s, Raise e).
Proof.
  intros Hg Hf He. unfold add_pod_usage, bind, gets, lift. rewrite Hg, Hf.
  destruct decoded as [x|e1]; cbn [rbind] in He.
  - now rewrite He.
  - now injection He as ->.
Qed.

(** The first container quantity that fails ends the loop over the
    containers of a metrics item. *)
Lemma containers_failure (k : string)
    (done : list ContainerMetrics) (c : ContainerMetrics) (rest : list ContainerMetrics)
    (cs ms : list float) (s : K8sUsage) (p : Pod) (e : exn) :
  Dict.get (pods s) k = Some p ->
  pod_cpuUsage p = Some f0 -> pod_memUsage p = Some f0 ->
  map container_cpu done = map Ok cs ->
  map container_mem done = map Ok ms ->
  first_failure [container_cpu c; container_mem c] = Some e ->
  exists p',
    for_each (done ++ c :: rest) (fun container =>
      add_pod_usage k pod_cpuUsage with_pod_cpuUsage
        (decode_cpu_capacity (cm_usage_cpu container)) ;;;
      add_pod_usage k pod_memUsage with_pod_memUsage
        (decode_memory_capacity (cm_usage_memory container))) s
    = (set_pods (Dict.set (pods s) k p') s, Raise e)
    /\ same_pod p p'
    /\ pod_cpuUsage p' =
       Some (fsum (cs ++ match container_cpu c with Ok y => [y] | Raise _ => [] end) f0)
    /\ pod_memUsage p' = Some (fsum ms f0).
Proof.
  intros Hg Hc Hm Hcs Hms Hf.
  destruct (containers_loop k done cs ms s p f0 f0 Hg Hc Hm Hcs Hms)
    as (p1 & Hrun & Hsame & Hc1 & Hm1).
  rewrite for_each_app, Hrun, for_each_cons.
  set (s1 := set_pods (Dict.set (pods s) k p1) s).
  assert (Hg1 : Dict.get (pods s1) k = Some p1)
    by (subst s1; cbn [set_pods pods]; apply lookup_set_same).
  cbn [first_failure] in Hf. unfold bind at 1.
  destruct (container_cpu c) as [y|e1] eqn:Ey.
  - unfold container_cpu in Ey. apply rbind_ok in Ey. destruct Ey as (xc & Hdc & Hfc).
    rewrite (add_pod_cpu k _ xc y s1 p1 _ Hg1 Hc1 Hdc Hfc).
    set (p2 := with_pod_cpuUsage (fadd (fsum cs f0) y) p1).
    set (s2 := set_pods (Dict.set (pods s1) k p2) s1).
    assert (Hg2 : Dict.get (pods s2) k = Some p2)
      by (subst s2; cbn [set_pods pods]; apply lookup_set_same).
    destruct (container_mem c) as [z|e2] eqn:Ez; [discriminate|].
    injection Hf as ->.
    rewrite (add_pod_usage_failure k _ _ _ s2 p2 (fsum ms f0) e Hg2 Hm1 Ez).
    exists p2. split; [|split; [|split]].
    + subst s2 s1. cbn [set_pods pods nodes nsResUsage cpuUsedByPods memUsedByPods
        cpuCapacity memCapacity cpuAllocatable memAllocatable].
      now rewrite !set_set.
    + apply same_pod_trans with p1; [exact Hsame|]. subst p2. repeat split.
    + subst p2. cbn [with_pod_cpuUsage pod_cpuUsage]. rewrite fsum_app. reflexivity.
    + exact Hm1.
  - injection Hf as ->.
    rewrite (add_pod_usage_failure k _ _ _ s1 p1 (fsum cs f0) e Hg1 Hc1 Ey).
    exists p1. rewrite app_nil_r. repeat split; try assumption; apply Hsame.
Qed.

End Malformed.

(** C5, as stated, fails: a node whose cpu capacity does not parse makes
    [extract_nodes] raise; no node with a zero capacity is recorded, and
    the well-formed node listed after it is not recorded either. *)
Lemma malformed_capacity_is_not_zeroed :
  let bad := {| ni_name := "n1"; ni_uid := "u1";
                ni_capacity_cpu := "abc"; ni_capacity_memory := "8Gi";
                ni_allocatable_cpu := "2"; ni_allocatable_memory := "7Gi";
                ni_containerRuntimeVersion := "containerd"; ni_conditions := [] |} in
  let good := {| ni_name := "n2"; ni_uid := "u2";
                 ni_capacity_cpu := "4"; ni_capacity_memory := "8Gi";
                 ni_allocatable_cpu := "2"; ni_allocatable_memory := "7Gi";
                 ni_containerRuntimeVersion := "containerd"; ni_conditions := [] |} in
  extract_nodes (Some [bad; good]) K8sUsage_init = (K8sUsage_init, Raise ValueError).
Proof. vm_compute. reflexivity. Qed.

(** C5 (amended).  A payload is numeric when it is a decimal numeral:
    blanks, an optional sign, digits with single underscores allowed
    between them, blanks.  [decode_cpu_capacity] raises [ValueError] for
    every input whose payload is not numeric, and so does
    [decode_memory_capacity] whenever it reads a payload; the one input
    that is turned into zero is a memory quantity that ends in [i] behind
    an unknown unit, whose payload is not read.  During the construction
    of the snapshot no failing quantity is replaced by zero: the first
    quantity that fails, in the order in which the step decodes them,
    ends the step with its exception.  In [extract_nodes] the nodes
    listed before are recorded and neither this node nor a later one is;
    in [extract_node_metrics], for a node of the table, the cpu usage is
    stored when it is the memory usage that fails, and nothing is changed
    otherwise; in [extract_pod_metrics], for a pod of the table, the
    usage of the pod is left at the sum of the containers decoded before
    the failure, and the other pods, the nodes and the namespaces are
    not changed. *)
Theorem malformed_quantity_aborts_extraction :
  (forall cap_input : string,
      ~ numeral (cpu_payload cap_input) ->
      decode_cpu_capacity cap_input = Raise ValueError)
  /\ (forall cap_input payload : string,
         memory_payload cap_input = Some payload -> ~ numeral payload ->
         decode_memory_capacity cap_input = Raise ValueError)
  /\ (forall cap_input : string,
         memory_payload cap_input = None ->
         decode_memory_capacity cap_input = Ok (PInt 0))
  /\ (forall (pre post : list NodeItem) (item : NodeItem) (s s' : K8sUsage) (e : exn),
         extract_nodes (Some pre) s = (s', Ok tt) ->
         first_failure (node_decodes item) = Some e ->
         extract_nodes (Some (pre ++ item :: post)%list) s = (s', Raise e))
  /\ (forall (pre post : list NodeMetricsItem) (item : NodeMetricsItem)
             (s s' : K8sUsage) (n : Node) (e : exn),
         extract_node_metrics (Some pre) s = (s', Ok tt) ->
         Dict.get (nodes s') (nm_name item) = Some n ->
         first_failure (node_metrics_decodes item) = Some e ->
         extract_node_metrics (Some (pre ++ item :: post)%list) s
         = (match decode_cpu_capacity (nm_usage_cpu item) with
            | Ok c => set_nodes (Dict.set (nodes s') (nm_name item)
                                          (with_node_cpuUsage c n)) s'
            | Raise _ => s'
            end, Raise e))
  /\ (forall (pre post : list PodMetricsItem) (item : PodMetricsItem)
             (done rest : list ContainerMetrics) (c : ContainerMetrics)
             (cs ms : list float) (s s' : K8sUsage) (p : Pod) (e : exn),
         let key := pod_key (pm_name item) (pm_namespace item) in
         extract_pod_metrics (Some pre) s = (s', Ok tt) ->
         Dict.get (pods s') key = Some p ->
         pm_containers item = (done ++ c :: rest)%list ->
         map container_cpu done = map Ok cs ->
         map container_mem done = map Ok ms ->
         first_failure [container_cpu c; container_mem c] = Some e ->
         exists s'' p',
           extract_pod_metrics (Some (pre ++ item :: post)%list) s = (s'', Raise e)
           /\ Dict.get (pods s'') key = Some p'
           /\ same_pod p p'
           /\ pod_cpuUsage p' =
              Some (fsum (cs ++ match container_cpu c with
                                | Ok y => [y]
                                | Raise _ => []
                                end) f0)
           /\ pod_memUsage p' = Some (fsum ms f0)
           /\ (forall k, k <> key -> Dict.get (pods s'') k = Dict.get (pods s') k)
           /\ nodes s'' = nodes s' /\ nsResUsage s'' = nsResUsage s').
Proof.
  split; [|split; [|split; [|split; [|split]]]].
  - intros cap_input Hn. apply decode_cpu_non_numeric. now apply int_rejects.
  - exact decode_memory_non_numeral.
  - exact decode_memory_unknown_unit.
  - intros pre post item s s' e Hpre Hf. cbn [extract_nodes] in *.
    rewrite for_each_app, Hpre, for_each_cons.
    now rewrite (extract_node_failure item s' e Hf).
  - intros pre post item s s' n e Hpre Hg Hf.
    pose proof (node_metrics_failure item post s' n e Hg Hf) as H.
    cbn [extract_node_metrics] in *. now rewrite for_each_app, Hpre.
  - intros pre post item done rest c cs ms s s' p e key Hpre Hg Hitem Hcs Hms Hf.
    cbn [extract_pod_metrics] in *. rewrite for_each_app, Hpre, for_each_cons.
    fold (pod_key (pm_name item) (pm_namespace item)). fold key.
    unfold bind at 1, gets at 1. rewrite Hg.
    unfold bind at 1. unfold update_pod at 1, modify at 1. rewrite Hg.
    set (s0 := set_pods (Dict.set (pods s') key (with_pod_cpuUsage f0 p)) s').
    assert (Hg0 : Dict.get (pods s0) key = Some (with_pod_cpuUsage f0 p))
      by (subst s0; cbn [set_pods pods]; apply lookup_set_same).
    unfold bind at 1. unfold update_pod at 1, modify at 1. rewrite Hg0.
    set (p1 := with_pod_memUsage f0 (with_pod_cpuUsage f0 p)).
    set (s1 := set_pods (Dict.set (pods s0) key p1) s0).
    assert (Hg1 : Dict.get (pods s1) key = Some p1)
      by (subst s1; cbn [set_pods pods]; apply lookup_set_same).
    rewrite Hitem.
    destruct (containers_failure key done c rest cs ms s1 p1 e Hg1
                eq_refl eq_refl Hcs Hms Hf) as (p' & Hrun & Hsame & Hc & Hm).
    rewrite Hrun.
    exists (set_pods (Dict.set (pods s1) key p') s1), p'.
    split; [reflexivity|].
    cbn [set_pods pods nodes nsResUsage].
    split; [apply lookup_set_same|].
    split; [apply same_pod_trans with p1; [subst p1; repeat split | exact Hsame]|].
    split; [exact Hc|]. split; [exact Hm|].
    split; [|split; reflexivity].
    intros k Hk. subst s1 s0. cbn [set_pods pods].
    rewrite !lookup_set_other by congruence. reflexivity.
Qed.

Lemma malformed_quantity_aborts_extraction_witness :
  let node (name cpu memory : string) :=
    {| ni_name := name; ni_uid := "u";
       ni_capacity_cpu := cpu; ni_capacity_memory := memory;
       ni_allocatable_cpu := "2"; ni_allocatable_memory := "7Gi";
       ni_containerRuntimeVersion := "containerd"; ni_conditions := [] |} in
  let with_node := fst (extract_nodes (Some [node "node-1" "4" "8Gi"]) K8sUsage_init) in
  let with_pod :=
    fst (extract_pods (Some [example_pod "web" "team-a" "p1" "node-1"]) K8sUsage_init) in
  decode_cpu_capacity "0.5" = Raise ValueError
  /\ decode_cpu_capacity ("5" ++ String (ascii_of_nat 31) "m") = Raise ValueError
  /\ decode_cpu_capacity "m" = Raise ValueError
  /\ decode_memory_capacity "1.5Gi" = Raise ValueError
  /\ decode_memory_capacity "1.5gi" = Ok (PInt 0)
  /\ (exists s',
         extract_nodes (Some [node "node-1" "4" "8Gi"; node "node-2" "4" "1.5Gi";
                              node "node-3" "4" "8Gi"]) K8sUsage_init
         = (s', Raise ValueError)
         /\ Dict.keys (nodes s') = ["node-1"])
  /\ (exists s',
         extract_node_metrics
           (Some [ {| nm_name := "node-1"; nm_usage_cpu := "250m";
                      nm_usage_memory := "1.5Gi" |} ]) with_node
         = (s', Raise ValueError)
         /\ option_map node_cpuUsage (Dict.get (nodes s') "node-1") = Some (PFloat (dec 25 (-2)))
         /\ option_map node_memUsage (Dict.get (nodes s') "node-1") = Some (PFloat f0))
  /\ (exists s' p',
         extract_pod_metrics
           (Some [ {| pm_name := "web"; pm_namespace := "team-a";
                      pm_containers :=
                        [ {| cm_usage_cpu := "250m"; cm_usage_memory := "512Mi" |};
                          {| cm_usage_cpu := "0.5"; cm_usage_memory := "1Gi" |} ] |} ])
           with_pod
         = (s', Raise ValueError)
         /\ Dict.get (pods s') "web.team-a" = Some p'
         /\ pod_cpuUsage p' = Some (dec 25 (-2))
         /\ pod_memUsage p' = Some (dec 512 6)).
Proof.
  intros node with_node with_pod.
  destruct malformed_quantity_aborts_extraction as (Hcpu & Hmem & Hzero & Hn & Hnm & Hpm).
  assert (Hnot : forall s, numeral_chars s = false -> ~ numeral s).
  { intros s Hs Hnum. apply numeral_only_chars in Hnum. congruence. }
  split; [apply Hcpu, Hnot; vm_compute; reflexivity|].
  split; [apply Hcpu, Hnot; vm_compute; reflexivity|].
  split.
  { apply Hcpu. intros Hnum. apply numeral_has_digit in Hnum.
    vm_compute in Hnum. discriminate. }
  split; [apply (Hmem "1.5Gi" "1.5"); [vm_compute; reflexivity | apply Hnot; vm_compute; reflexivity]|].
  split; [apply Hzero; vm_compute; reflexivity|].
  split.
  { exists with_node.
    split; [|vm_compute; reflexivity].
    apply (Hn [node "node-1" "4" "8Gi"] [node "node-3" "4" "8Gi"] (node "node-2" "4" "1.5Gi")).
    - vm_compute. reflexivity.
    - vm_compute. reflexivity. }
  split.
  { match eval vm_compute in (Dict.get (nodes with_node) "node-1") with
    | Some ?n =>
        pose proof (Hnm [] []
                      {| nm_name := "node-1"; nm_usage_cpu := "250m";
                         nm_usage_memory := "1.5Gi" |}
                      with_node with_node n ValueError) as H
    end.
    eexists. split.
    - apply H; vm_compute; reflexivity.
    - split; vm_compute; reflexivity. }
  match eval vm_compute in (Dict.get (pods with_pod) "web.team-a") with
  | Some ?p =>
      destruct (Hpm [] []
                  {| pm_name := "web"; pm_namespace := "team-a";
                     pm_containers :=
                       [ {| cm_usage_cpu := "250m"; cm_usage_memory := "512Mi" |};
                         {| cm_usage_cpu := "0.5"; cm_usage_memory := "1Gi" |} ] |}
                  [ {| cm_usage_cpu := "250m"; cm_usage_memory := "512Mi" |} ] []
                  {| cm_usage_cpu := "0.5"; cm_usage_memory := "1Gi" |}
                  [dec 25 (-2)] [dec 512 6] with_pod with_pod p ValueError)
        as (s' & p' & Hrun & Hget & _ & Hc & Hm & _)
  end; try (vm_compute; reflexivity).
  exists s', p'. split; [exact Hrun|]. split; [exact Hget|].
  split; [rewrite Hc | rewrite Hm]; vm_compute; reflexivity.
Defined.
